(** * pump-fun-bot: the holder analytics and the evaluation loop

    A shallow embedding of [analytics.py] (class [HolderCountAnalyzer]) and of
    the monitoring part of [trade.py] ([monitorTokenCreation], [analyser]),
    followed by the properties of the decision engine, of the holder queries
    and of the admission of new analysers.

    The Python code talks to three services (the Helius paged holder query,
    the Solana RPC node, the clock) and prints a line at almost every step.
    The embedding threads a [State] (how many answers of each service were
    consumed, and the trace of what the program did) through a small
    state-and-exception monad; the answers themselves are read from an [Env],
    which is quantified over in every theorem. *)

From Stdlib Require Import ZArith QArith List String Bool Lia Sorted.
From stdpp Require Import gmap strings list.

Close Scope Q_scope.
Open Scope string_scope.
Open Scope list_scope.
Open Scope nat_scope.

(** ** Data *)

(** A [solders] public key is 32 raw bytes. *)
Definition Pubkey := list Byte.byte.

(** An exception object; only its description is kept. *)
Inductive Exn := Exception (what : string).

(** One entry of [data['result']['token_accounts']]: the token account and
    the wallet that owns it. *)
Record TokenAccount := mkTokenAccount {
  ta_address : string;
  ta_owner : string
}.

(** What one [requests.post(...)] followed by [response.json()] gives. Any
    exception on the way (transport, invalid JSON, a missing key below
    ['result']) is [HttpRaises]. *)
Inductive HttpResponse :=
| HttpRaises (e : Exn)
| HttpNoResult
| HttpResult (token_accounts : list TokenAccount).

(** One element of [get_token_largest_accounts(mint).value]. *)
Record LargestAccount := mkLargestAccount {
  la_address : Pubkey;
  la_amount : Z
}.

Inductive LargestResponse :=
| LargestRaises (e : Exn)
| LargestNone
| LargestValue (largest_accounts : list LargestAccount).

(** [response.value.data] is [bytes] for a raw account, something else when
    the node sends parsed data. *)
Inductive AccountData :=
| DataBytes (b : list Byte.byte)
| DataOther.

Inductive AccountResponse :=
| AccountRaises (e : Exn)
| AccountNone
| AccountValue (owner : Pubkey) (data : AccountData).

(** The dictionaries of [top_holders]. [percentage] is a Python float; it is
    kept as the rational number that the float denotes, and Python compares a
    float with an [int] threshold exactly. *)
Record Holder := mkHolder {
  rank : nat;
  address : string;
  amount : Z;
  percentage : Q;
  is_dev : bool
}.

(** The fields of the creation event that the analyser reads. *)
Record TokenData := mkTokenData {
  td_mint : string;
  td_user : string;
  td_bondingCurve : string
}.

(** The lines the program prints, one constructor per [print] statement. *)
Inductive Msg :=
| MsgNoMoreResults (pages : nat)
| MsgProcessingPage (page : nat)
| MsgAccountNoData (account : string)
| MsgAccountNotSpl (account : string)
| MsgAccountInvalidData (account : string)
| MsgAccountTooShort (account : string)
| MsgExceptionOwnerWallet (account : string) (e : Exn)
| MsgLargestNoValue
| MsgTotalSupplyZero
| MsgFetchingTop (top_n : nat) (mint : string)
| MsgSkippingAccount (account : string)
| MsgExceptionTopHolders (e : Exn)
| MsgNoTopHolders
| MsgTotalUniqueHolders (n : nat)
| MsgTableTitle (top_n : nat) (mint : string)
| MsgTableRule
| MsgTableHead
| MsgTableRow (h : Holder)
| MsgHolderCountExceeds (threshold : Z)
| MsgHolderCountBelow (threshold : Z)
| MsgDevStillHolds (threshold : Z)
| MsgDevSold
| MsgLpMeets (lower upper : Z)
| MsgLpDoesNotMeet (lower upper : Z)
| MsgWithinTimeLimit (timeLimit : Z)
| MsgTimeLimitExceeded (timeLimit : Z)
| MsgAtSecond (elapsed : Z)
| MsgNoTopHoldersSkipping
| MsgAllConditionsMet
| MsgSpecialConditionsMet
| MsgSpecialConditions
| MsgConditionsNotMet
| MsgBondingCurveExhausted
| MsgTimeLimitExiting
| MsgExceptionMakeDecision (e : Exn)
| MsgWaitingFiveSeconds
| MsgIterationCompleted (i : nat) (mint : string) (started ended : Q)
| MsgErrorFetchingHolderCount (e : Exn)
| MsgNumberOfTasks (n : nat)
| MsgAnalyserStarted (mint : string)
| MsgTooManyTasks.

(** What the program does that can be seen from outside. *)
Inductive Event :=
| Print (m : Msg)
| HttpPost (mint : string) (page limit : nat)
| GetTokenLargestAccounts (mint : Pubkey)
| GetAccountInfo (account : Pubkey)
| Sleep (seconds : nat).

(** ** The world outside the repository

    [http_response i] is the answer to the [i]-th [requests.post] of the run,
    and likewise for the RPC calls and the clock: the program is sequential,
    so an answer indexed by its position is the most general environment.
    [pubkey_str] and [pubkey_from_string] are [str(Pubkey)] and
    [Pubkey.from_string] of [solders] ([None]: it raises). [float_pct a t] is
    the binary64 value of [(a / t) * 100]. [fuel] bounds the number of pages
    one pagination is followed for: the source's [while True] has no bound. *)
Record Env := mkEnv {
  http_response : nat -> HttpResponse;
  largest_response : nat -> LargestResponse;
  account_response : nat -> AccountResponse;
  clock_reading : nat -> Q;
  pubkey_str : Pubkey -> string;
  pubkey_from_string : string -> option Pubkey;
  float_pct : Z -> Z -> Q;
  fuel : nat
}.

Record State := mkState {
  n_http : nat;
  n_largest : nat;
  n_account : nat;
  n_clock : nat;
  trace : list Event
}.

Definition initial_state : State := mkState 0 0 0 0 [].

(** ** The monad *)

Inductive Outcome (A : Type) :=
| Ret (a : A)
| Raise (e : Exn)
| OutOfFuel.
Arguments Ret {A} a.
Arguments Raise {A} e.
Arguments OutOfFuel {A}.

Definition M (A : Type) : Type := Env -> State -> Outcome A * State.

Definition ret {A} (a : A) : M A := fun _ st => (Ret a, st).

Definition bind {A B} (m : M A) (k : A -> M B) : M B :=
  fun env st =>
    match m env st with
    | (Ret a, st') => k a env st'
    | (Raise e, st') => (Raise e, st')
    | (OutOfFuel, st') => (OutOfFuel, st')
    end.

Definition raise {A} (e : Exn) : M A := fun _ st => (Raise e, st).

Definition out_of_fuel {A} : M A := fun _ st => (OutOfFuel, st).

(** [try: body except Exception as e: handler e]. *)
Definition try_except {A} (body : M A) (handler : Exn -> M A) : M A :=
  fun env st =>
    match body env st with
    | (Raise e, st') => handler e env st'
    | r => r
    end.

Definition ask : M Env := fun env st => (Ret env, st).

Declare Scope monad_scope.
Delimit Scope monad_scope with monad.
Notation "x <- m ;; k" := (bind m (fun x => k))
  (at level 100, m at next level, right associativity) : monad_scope.
Notation "m ;; k" := (bind m (fun _ => k))
  (at level 100, right associativity) : monad_scope.
Open Scope monad_scope.

Definition emit (e : Event) : M unit :=
  fun _ st =>
    (Ret tt, mkState (n_http st) (n_largest st) (n_account st) (n_clock st)
                     (trace st ++ [e])).

Definition print (m : Msg) : M unit := emit (Print m).

(** ** The services *)

(** [time.time()]. *)
Definition time_time : M Q :=
  fun env st =>
    (Ret (clock_reading env (n_clock st)),
     mkState (n_http st) (n_largest st) (n_account st) (S (n_clock st))
             (trace st)).

(** [int(x)] on a float: truncation towards zero. *)
Definition int_of_float (x : Q) : Z := Z.quot (Qnum x) (Z.pos (Qden x)).

(** [requests.post(url, ..., json={... "page": page, "limit": 1000, "mint":
    str(mint)})] and [response.json()]. *)
Definition requests_post (mint : Pubkey) (page : nat) : M HttpResponse :=
  fun env st =>
    let st' := mkState (S (n_http st)) (n_largest st) (n_account st)
                 (n_clock st)
                 (trace st ++ [HttpPost (pubkey_str env mint) page 1000]) in
    match http_response env (n_http st) with
    | HttpRaises e => (Raise e, st')
    | data => (Ret data, st')
    end.

(** ** [HolderCountAnalyzer.get_holder_count] *)

(** [for account in token_accounts: all_owners.add(account['owner'])]. *)
Definition add_owners (token_accounts : list TokenAccount)
    (all_owners : gset string) : gset string :=
  fold_left (fun s account => {[ta_owner account]} ∪ s) token_accounts
            all_owners.

(** The [while True] loop, one page per unit of fuel. *)
Fixpoint get_holder_count_loop (n : nat) (mint : Pubkey) (page : nat)
    (all_owners : gset string) : M nat :=
  match n with
  | O => out_of_fuel
  | S n' =>
      data <- requests_post mint page ;;
      match data with
      | HttpRaises e => raise e
      | HttpNoResult =>
          print (MsgNoMoreResults (page - 1)) ;;
          ret (size all_owners)
      | HttpResult token_accounts =>
          if length token_accounts =? 0 then
            print (MsgNoMoreResults (page - 1)) ;;
            ret (size all_owners)
          else
            print (MsgProcessingPage page) ;;
            get_holder_count_loop n' mint (page + 1)
              (add_owners token_accounts all_owners)
      end
  end.

Definition get_holder_count (mint : Pubkey) : M nat :=
  env <- ask ;;
  get_holder_count_loop (fuel env) mint 1 ∅.

(** ** [HolderCountAnalyzer.get_owner_wallet] *)

Definition SPL_TOKEN_PROGRAM_ID : string :=
  "TokenkegQfeZyiNwAJbNbGKPFXCWuBvf9Ss623VQ5DA".

Definition CONVERT_TO_OWNER_WALLET_ADDRESSES : bool := true.

(** [self.client.get_account_info(token_account)]. *)
Definition get_account_info (token_account : Pubkey) : M AccountResponse :=
  fun env st =>
    let st' := mkState (n_http st) (n_largest st) (S (n_account st))
                 (n_clock st) (trace st ++ [GetAccountInfo token_account]) in
    match account_response env (n_account st) with
    | AccountRaises e => (Raise e, st')
    | response => (Ret response, st')
    end.

(** [account_data[32:64]]. *)
Definition owner_field (account_data : list Byte.byte) : list Byte.byte :=
  take 32 (drop 32 account_data).

Definition get_owner_wallet (token_account : Pubkey) : M (option string) :=
  try_except
    (response <- get_account_info token_account ;;
     env <- ask ;;
     match response with
     | AccountRaises e => raise e
     | AccountNone =>
         print (MsgAccountNoData (pubkey_str env token_account)) ;;
         ret None
     | AccountValue owner account_data =>
         if negb (String.eqb (pubkey_str env owner) SPL_TOKEN_PROGRAM_ID) then
           print (MsgAccountNotSpl (pubkey_str env token_account)) ;;
           ret None
         else
           match account_data with
           | DataOther =>
               print (MsgAccountInvalidData (pubkey_str env token_account)) ;;
               ret None
           | DataBytes b =>
               if length b <? 64 then
                 print (MsgAccountTooShort (pubkey_str env token_account)) ;;
                 ret None
               else
                 let owner_bytes := owner_field b in
                 let owner_pubkey : Pubkey := owner_bytes in
                 ret (Some (pubkey_str env owner_pubkey))
           end
     end)
    (fun e =>
       env <- ask ;;
       print (MsgExceptionOwnerWallet (pubkey_str env token_account) e) ;;
       ret None).

(** ** [HolderCountAnalyzer.get_top_holders] *)

(** The two fields set by [__init__] besides the client. *)
Record HolderCountAnalyzer := mkAnalyzer {
  dev_wallet_pubkey : option Pubkey;
  bonding_curve_pubkey : option Pubkey
}.

(** [str(x)] for [x] a [Pubkey] or [None]. *)
Definition str_optional (env : Env) (x : option Pubkey) : string :=
  match x with
  | Some p => pubkey_str env p
  | None => "None"
  end.

(** [total_supply = 1000000000000000]. *)
Definition total_supply : Z := 1000000000000000.

(** [self.client.get_token_largest_accounts(mint)]. *)
Definition get_token_largest_accounts (mint : Pubkey) : M LargestResponse :=
  fun env st =>
    let st' := mkState (n_http st) (S (n_largest st)) (n_account st)
                 (n_clock st) (trace st ++ [GetTokenLargestAccounts mint]) in
    match largest_response env (n_largest st) with
    | LargestRaises e => (Raise e, st')
    | response => (Ret response, st')
    end.

(** [asyncio.gather] over [tasks]: the results come in the order of the tasks.
    Each task makes one request and prints at most one line; the tasks are
    run here one after the other, in the order in which they were created. *)
Fixpoint gather {A} (tasks : list (M A)) : M (list A) :=
  match tasks with
  | [] => ret []
  | t :: rest =>
      x <- t ;;
      xs <- gather rest ;;
      ret (x :: xs)
  end.

(** The dictionary [holder_info], with the [is_dev] tag already set. *)
Definition holder_info (self : HolderCountAnalyzer) (env : Env) (idx : nat)
    (addr : string) (account : LargestAccount) : Holder :=
  {| rank := idx;
     address := addr;
     amount := la_amount account;
     percentage :=
       if (total_supply >? 0)%Z then float_pct env (la_amount account) total_supply
       else 0%Q;
     is_dev :=
       match dev_wallet_pubkey self with
       | Some dev => String.eqb addr (pubkey_str env dev)
       | None => false
       end |}.

(** [for idx, (account, owner_wallet) in enumerate(zip(...), start=idx)],
    appending to [top_holders]. *)
Fixpoint compile_holders (self : HolderCountAnalyzer) (idx : nat)
    (pairs : list (LargestAccount * option string))
    (top_holders : list Holder) : M (list Holder) :=
  match pairs with
  | [] => ret top_holders
  | (account, None) :: rest =>
      env <- ask ;;
      print (MsgSkippingAccount (pubkey_str env (la_address account))) ;;
      compile_holders self (S idx) rest top_holders
  | (account, Some owner_wallet) :: rest =>
      env <- ask ;;
      compile_holders self (S idx) rest
        (top_holders ++ [holder_info self env idx owner_wallet account])
  end.

(** The branch taken when [CONVERT_TO_OWNER_WALLET_ADDRESSES] is false. *)
Fixpoint compile_accounts (self : HolderCountAnalyzer) (idx : nat)
    (accounts : list LargestAccount) (top_holders : list Holder)
    : M (list Holder) :=
  match accounts with
  | [] => ret top_holders
  | account :: rest =>
      env <- ask ;;
      compile_accounts self (S idx) rest
        (top_holders ++
         [holder_info self env idx (pubkey_str env (la_address account)) account])
  end.

Definition get_top_holders (self : HolderCountAnalyzer) (mint : Pubkey)
    (top_n : nat) : M (list Holder) :=
  try_except
    (response <- get_token_largest_accounts mint ;;
     match response with
     | LargestRaises e => raise e
     | LargestNone => print MsgLargestNoValue ;; ret []
     | LargestValue largest_accounts =>
         if (total_supply =? 0)%Z then print MsgTotalSupplyZero ;; ret []
         else
           env <- ask ;;
           print (MsgFetchingTop top_n (pubkey_str env mint)) ;;
           let accounts_to_process := take top_n largest_accounts in
           if CONVERT_TO_OWNER_WALLET_ADDRESSES then
             owner_wallets <-
               gather (map (fun account => get_owner_wallet (la_address account))
                           accounts_to_process) ;;
             compile_holders self 1 (zip accounts_to_process owner_wallets) []
           else
             compile_accounts self 1 accounts_to_process []
     end)
    (fun e => print (MsgExceptionTopHolders e) ;; ret []).

(** ** [display_top_holders] and the four checks *)

Fixpoint print_rows (top_holders : list Holder) : M unit :=
  match top_holders with
  | [] => ret tt
  | holder :: rest => print (MsgTableRow holder) ;; print_rows rest
  end.

Definition display_top_holders (self : HolderCountAnalyzer)
    (mint_address : Pubkey) (top_n : nat) (top_holders : list Holder)
    : M unit :=
  match top_holders with
  | [] => print MsgNoTopHolders
  | _ =>
      n <- get_holder_count mint_address ;;
      print (MsgTotalUniqueHolders n) ;;
      env <- ask ;;
      print (MsgTableTitle top_n (pubkey_str env mint_address)) ;;
      print MsgTableRule ;;
      print MsgTableHead ;;
      print MsgTableRule ;;
      print_rows top_holders ;;
      print MsgTableRule
  end.

Definition check_holder_count (self : HolderCountAnalyzer)
    (mint_address : Pubkey) (threshold : Z) : M bool :=
  currentThreshold <- get_holder_count mint_address ;;
  if (Z.of_nat currentThreshold >=? threshold)%Z then
    print (MsgHolderCountExceeds threshold) ;; ret true
  else
    print (MsgHolderCountBelow threshold) ;; ret false.

(** The [for] loop of [check_dev_wallet_sold], with its early [return]. *)
Fixpoint check_dev_wallet_sold_loop (dev : string) (threshold : Z)
    (top_holders : list Holder) : M bool :=
  match top_holders with
  | [] => print MsgDevSold ;; ret true
  | holder :: rest =>
      if String.eqb (address holder) dev
         && Qle_bool (inject_Z threshold) (percentage holder) then
        print (MsgDevStillHolds threshold) ;; ret false
      else check_dev_wallet_sold_loop dev threshold rest
  end.

Definition check_dev_wallet_sold (self : HolderCountAnalyzer)
    (mint_address : Pubkey) (threshold : Z) (top_holders : list Holder)
    : M bool :=
  match top_holders with
  | [] => print MsgNoTopHolders ;; ret false
  | _ =>
      env <- ask ;;
      check_dev_wallet_sold_loop (str_optional env (dev_wallet_pubkey self))
        threshold top_holders
  end.

(** The [for] loop of [check_lp_liquidity]. *)
Fixpoint check_lp_liquidity_loop (bonding_curve : string)
    (thresholdLower thresholdUpper : Z) (top_holders : list Holder) : M bool :=
  match top_holders with
  | [] => print (MsgLpDoesNotMeet thresholdLower thresholdUpper) ;; ret false
  | holder :: rest =>
      if String.eqb (address holder) bonding_curve
         && Qle_bool (percentage holder) (inject_Z thresholdUpper)
         && negb (Qle_bool (percentage holder) (inject_Z thresholdLower)) then
        print (MsgLpMeets thresholdLower thresholdUpper) ;; ret true
      else
        check_lp_liquidity_loop bonding_curve thresholdLower thresholdUpper rest
  end.

Definition check_lp_liquidity (self : HolderCountAnalyzer)
    (mint_address : Pubkey) (thresholdLower thresholdUpper : Z)
    (top_holders : list Holder) : M bool :=
  match top_holders with
  | [] => print MsgNoTopHolders ;; ret false
  | _ =>
      env <- ask ;;
      check_lp_liquidity_loop (str_optional env (bonding_curve_pubkey self))
        thresholdLower thresholdUpper top_holders
  end.

Definition check_time_limit (startEpochTime timeLimit : Z) : M bool :=
  now <- time_time ;;
  if (int_of_float now - startEpochTime <=? timeLimit)%Z then
    print (MsgWithinTimeLimit timeLimit) ;; ret true
  else
    print (MsgTimeLimitExceeded timeLimit) ;; ret false.

(** ** [HolderCountAnalyzer.make_decision] *)

(** The loop over [top_holders] that looks for the bonding curve holding 99%
    or more; [true] when the loop executes its [return False]. *)
Fixpoint bonding_curve_exhausted (bonding_curve : string)
    (top_holders : list Holder) : bool :=
  match top_holders with
  | [] => false
  | holder :: rest =>
      if String.eqb (address holder) bonding_curve then
        if Qle_bool (inject_Z 99) (percentage holder) then true
        else bonding_curve_exhausted bonding_curve rest
      else bonding_curve_exhausted bonding_curve rest
  end.

(** The statements of [make_decision] that follow the fetch of the snapshot
    (from [if not top_holders] to the last [return True]). The result is
    [Some true] for [True] and [Some false] for [False]. *)
Definition make_decision_on (self : HolderCountAnalyzer)
    (mint_address : Pubkey)
    (holder_threshold dev_threshold lp_threshold_lower lp_threshold_upper
       startEpochTime timeLimit : Z) (top_holders : list Holder)
    : M (option bool) :=
  match top_holders with
  | [] => print MsgNoTopHoldersSkipping ;; ret (Some true)
  | _ =>
      display_top_holders self mint_address 20 top_holders ;;
      time_met <- check_time_limit startEpochTime timeLimit ;;
      holder_count_met <-
        check_holder_count self mint_address holder_threshold ;;
      dev_wallet_sold <-
        check_dev_wallet_sold self mint_address dev_threshold top_holders ;;
      lp_liquidity_met <-
        check_lp_liquidity self mint_address lp_threshold_lower
          lp_threshold_upper top_holders ;;
      if holder_count_met && dev_wallet_sold && lp_liquidity_met && time_met
      then
        print MsgAllConditionsMet ;; ret (Some false)
      else
        holders60 <- check_holder_count self mint_address 60 ;;
        lp6080 <-
          (if holders60 then
             check_lp_liquidity self mint_address 60 80 top_holders
           else ret false) ;;
        if holders60 && lp6080 && time_met && negb dev_wallet_sold then
          print MsgSpecialConditionsMet ;;
          print MsgSpecialConditions ;;
          ret (Some false)
        else
          print MsgConditionsNotMet ;;
          env <- ask ;;
          if bonding_curve_exhausted
               (str_optional env (bonding_curve_pubkey self)) top_holders
          then
            print MsgBondingCurveExhausted ;; ret (Some false)
          else if negb time_met then
            print MsgTimeLimitExiting ;; ret (Some false)
          else ret (Some true)
  end.

(** The first two statements of [make_decision]. *)
Definition make_decision_opening (startEpochTime : Z) : M unit :=
  now <- time_time ;;
  print (MsgAtSecond (int_of_float now - startEpochTime)).

(** [None] is the implicit [None] that the [except] branch returns. *)
Definition make_decision (self : HolderCountAnalyzer) (mint_address : Pubkey)
    (holder_threshold dev_threshold lp_threshold_lower lp_threshold_upper
       startEpochTime timeLimit : Z) : M (option bool) :=
  try_except
    (make_decision_opening startEpochTime ;;
     top_holders <- get_top_holders self mint_address 20 ;;
     make_decision_on self mint_address holder_threshold dev_threshold
       lp_threshold_lower lp_threshold_upper startEpochTime timeLimit
       top_holders)
    (fun e => print (MsgExceptionMakeDecision e) ;; ret None).

(** ** [trade.analyser] *)

(** [Pubkey.from_string(s)], which raises on a string that is no key. *)
Definition Pubkey_from_string (s : string) : M Pubkey :=
  env <- ask ;;
  match pubkey_from_string env s with
  | Some p => ret p
  | None => raise (Exception "ValueError")
  end.

(** [Pubkey.from_string(s) if s else None]. *)
Definition optional_pubkey (s : string) : M (option Pubkey) :=
  if String.eqb s "" then ret None
  else p <- Pubkey_from_string s ;; ret (Some p).

(** [HolderCountAnalyzer(client, dev_wallet, bonding_curve)]. *)
Definition HolderCountAnalyzer_init (dev_wallet bonding_curve : string)
    : M HolderCountAnalyzer :=
  dev <- optional_pubkey dev_wallet ;;
  curve <- optional_pubkey bonding_curve ;;
  ret (mkAnalyzer dev curve).

(** [asyncio.sleep(seconds)]. *)
Definition asyncio_sleep (seconds : nat) : M unit := emit (Sleep seconds).

(** [not proceed] for [proceed] one of [True], [False], [None]. *)
Definition not_ (proceed : option bool) : bool :=
  match proceed with
  | Some true => false
  | _ => true
  end.

(** [for i in range(...)], given the values of [i] still to come. *)
Fixpoint analyser_loop (holder_count_analyzer : HolderCountAnalyzer)
    (token_data : TokenData) (currentEpochTime : Z) (range : list nat)
    : M unit :=
  match range with
  | [] => ret tt
  | i :: rest =>
      iterationStartTime <- time_time ;;
      mint <- Pubkey_from_string (td_mint token_data) ;;
      proceed <-
        make_decision holder_count_analyzer mint 35 1 60 80 currentEpochTime
          100 ;;
      ended <- time_time ;;
      print (MsgIterationCompleted (i + 1) (td_mint token_data)
               iterationStartTime ended) ;;
      if not_ proceed then ret tt
      else
        asyncio_sleep 5 ;;
        analyser_loop holder_count_analyzer token_data currentEpochTime rest
  end.

Definition analyser (token_data : TokenData) : M unit :=
  try_except
    (holder_count_analyzer <-
       HolderCountAnalyzer_init (td_user token_data)
         (td_bondingCurve token_data) ;;
     print MsgWaitingFiveSeconds ;;
     now <- time_time ;;
     let currentEpochTime := int_of_float now in
     analyser_loop holder_count_analyzer token_data currentEpochTime
       (seq 0 (12 * 5)))
    (fun e => print (MsgErrorFetchingHolderCount e)).

(** ** [trade.monitorTokenCreation] *)

(** The tasks of the event loop, as [asyncio.all_tasks()] returns them: the
    task that runs [main] (and so [monitorTokenCreation] itself), the
    analysers started so far that have not finished, and the tasks that the
    libraries create for themselves. *)
Inductive Task :=
| MainTask
| AnalyserTask (token_data : TokenData)
| LibraryTask.

(** One turn of the [while True] loop for the creation event [token_data],
    when [asyncio.all_tasks()] is [tasks]: the tasks afterwards (with
    [asyncio.create_task(analyser(token_data))] the new task is only added
    to the loop, its body is not run here) and the lines printed from the
    task count on. *)
Definition monitor_event (tasks : list Task) (token_data : TokenData)
    : list Task * list Msg :=
  if length tasks <? 200 then
    ((tasks ++ [AnalyserTask token_data])%list,
     [MsgNumberOfTasks (length tasks); MsgAnalyserStarted (td_mint token_data)])
  else
    (tasks, [MsgNumberOfTasks (length tasks); MsgTooManyTasks]).

(** The loop over a burst of creation events during which no task finishes. *)
Fixpoint monitorTokenCreation (events : list TokenData) (tasks : list Task)
    : list Task :=
  match events with
  | [] => tasks
  | token_data :: rest =>
      monitorTokenCreation rest (fst (monitor_event tasks token_data))
  end.

(** The analysers among the tasks. *)
Definition is_analyser (t : Task) : bool :=
  match t with
  | AnalyserTask _ => true
  | _ => false
  end.

Definition running_analysers (tasks : list Task) : nat :=
  length (List.filter is_analyser tasks).

(** ** Vocabulary of the statements *)

(** The state after the events [evs] were appended to the trace. *)
Definition extend (st : State) (evs : list Event) : State :=
  mkState (n_http st) (n_largest st) (n_account st) (n_clock st)
          (trace st ++ evs).

(** The state in which [m] leaves [st]. *)
Definition exec {A} (m : M A) (env : Env) (st : State) : State :=
  snd (m env st).

(** The page numbers of the holder queries of a trace, in order. *)
Fixpoint http_pages (evs : list Event) : list nat :=
  match evs with
  | [] => []
  | HttpPost _ page _ :: rest => page :: http_pages rest
  | _ :: rest => http_pages rest
  end.

(** The owners named on a sequence of pages. *)
Definition owners_of_pages (pages : list (list TokenAccount)) : gset string :=
  list_to_set (map ta_owner (concat pages)).

(** The environment [env] with its [k]-th answer to the holder query
    replaced by [r]. *)
Definition with_http_response (env : Env) (k : nat) (r : HttpResponse) : Env :=
  mkEnv (fun i => if i =? k then r else http_response env i)
        (largest_response env) (account_response env) (clock_reading env)
        (pubkey_str env) (pubkey_from_string env) (float_pct env) (fuel env).

(** Bytes 32 to 63 of a record, read one by one. *)
Definition bytes_32_to_63 (record : list Byte.byte) : list Byte.byte :=
  map (fun i => nth i record Byte.x00) (seq 32 32).

(** The owner that the specification reads from an account record:
    bytes 32 to 63 when the record is raw bytes, at least 64 of them, owned
    by the SPL token program; no owner otherwise. *)
Definition resolved_owner (env : Env) (r : AccountResponse) : option string :=
  match r with
  | AccountValue program (DataBytes record) =>
      if decide (pubkey_str env program = SPL_TOKEN_PROGRAM_ID
                 /\ 64 <= length record)
      then Some (pubkey_str env (bytes_32_to_63 record))
      else None
  | _ => None
  end.

(** The rhythm of a trace: the decision cycles that start in it
    ([make_decision] opens with the line [At second since epoch]) and the
    pauses between them. *)
Inductive Beat :=
| Decision
| Pause (seconds : nat).

Definition beat (e : Event) : option Beat :=
  match e with
  | Print (MsgAtSecond _) => Some Decision
  | Sleep seconds => Some (Pause seconds)
  | _ => None
  end.

Definition cadence (evs : list Event) : list Beat := omap beat evs.

(** A page that ends a pagination: anything but a non-empty page. *)
Definition last_page (r : HttpResponse) : bool :=
  match r with
  | HttpResult (_ :: _) => false
  | _ => true
  end.

(** Every pagination, wherever it starts, meets such a page before the
    fuel of the embedding runs out. *)
Definition paginations_end (env : Env) : Prop :=
  forall k, exists j, j < fuel env /\ last_page (http_response env (k + j)) = true.

(** The state of the loop after the closing line of cycle [i], which
    started in [st] and whose [make_decision] ended in [st2]. *)
Definition cycle_closed (env : Env) (token_data : TokenData) (i : nat)
    (st st2 : State) : State :=
  extend (exec time_time env st2)
    [Print (MsgIterationCompleted (i + 1) (td_mint token_data)
              (clock_reading env (n_clock st))
              (clock_reading env (n_clock st2)))].

(** [cycles self token_data mint start env i st log closed]: from the state
    [st] the loop of the analyser ran the decision cycles [i], [i + 1], ...
    one after the other, 5 seconds of sleep between two of them; [log] holds
    for each cycle the state it started in and what [make_decision]
    returned; [closed] is the state after the closing line of the last
    one. *)
Inductive cycles (self : HolderCountAnalyzer) (token_data : TokenData)
    (mint : Pubkey) (start : Z) (env : Env)
    : nat -> State -> list (State * option bool) -> State -> Prop :=
| cycles_last i st proceed st2 :
    make_decision self mint 35 1 60 80 start 100 env (exec time_time env st)
    = (Ret proceed, st2) ->
    cycles self token_data mint start env i st [(st, proceed)]
      (cycle_closed env token_data i st st2)
| cycles_next i st proceed st2 log closed :
    make_decision self mint 35 1 60 80 start 100 env (exec time_time env st)
    = (Ret proceed, st2) ->
    cycles self token_data mint start env (S i)
      (extend (cycle_closed env token_data i st st2) [Sleep 5]) log closed ->
    cycles self token_data mint start env i st ((st, proceed) :: log) closed.

(** ** Sample worlds for the examples *)

Definition sample_key (s : string) : Pubkey := list_byte_of_string s.

Definition sample_mint : Pubkey := sample_key "mint".

Definition sample_analyzer : HolderCountAnalyzer :=
  mkAnalyzer (Some (sample_key "creator")) (Some (sample_key "curve")).

Definition sample_token : TokenData := mkTokenData "mint" "creator" "curve".

(** A raw token-account record: mint, owner, then the amount and the rest. *)
Definition sample_record (owner : string) : AccountData :=
  DataBytes (repeat Byte.x00 32
             ++ firstn 32 (list_byte_of_string owner ++ repeat Byte.x00 32)
             ++ repeat Byte.x00 101).

(** An environment given by its answers; keys print as their bytes with the
    trailing zero bytes left out, and percentages are exact. *)
Definition sample_str (p : Pubkey) : string :=
  string_of_list_byte
    (List.filter (fun b => negb (Byte.eqb b Byte.x00)) p).

Definition sample_env (http : nat -> HttpResponse)
    (largest : nat -> LargestResponse) (account : nat -> AccountResponse)
    (clock : nat -> Q) : Env :=
  mkEnv http largest account clock sample_str
        (fun s => Some (list_byte_of_string s))
        (fun a t => (inject_Z a / inject_Z t * 100)%Q) 8.

(** Two pages of holders, then an empty page; the two accounts of the first
    page have one owner. *)
Definition two_pages : list (list TokenAccount) :=
  [[mkTokenAccount "acc1" "owner1"; mkTokenAccount "acc2" "owner1"];
   [mkTokenAccount "acc3" "owner2"]].

Definition env_two_pages (closing : HttpResponse) : Env :=
  sample_env (fun i => match two_pages !! i with
                       | Some p => HttpResult p
                       | None => closing
                       end)
             (fun _ => LargestNone) (fun _ => AccountNone) (fun _ => 0%Q).

(** Three largest accounts; the record of the second belongs to another
    program than the SPL token program. *)
Definition env_three_accounts : Env :=
  sample_env
    (fun _ => HttpResult [])
    (fun _ => LargestValue
                [mkLargestAccount (sample_key "acc1") 750000000000000;
                 mkLargestAccount (sample_key "acc2") 100000000000000;
                 mkLargestAccount (sample_key "acc3") 50000000000000])
    (fun i => match i with
              | 0 => AccountValue (sample_key SPL_TOKEN_PROGRAM_ID)
                       (sample_record "curve")
              | 1 => AccountValue
                       (sample_key "11111111111111111111111111111111")
                       (sample_record "other")
              | _ => AccountValue (sample_key SPL_TOKEN_PROGRAM_ID)
                       (sample_record "creator")
              end)
    (fun _ => 0%Q).

(** The node has no largest accounts to give: every snapshot is empty. *)
Definition env_no_holders : Env :=
  sample_env (fun _ => HttpResult []) (fun _ => LargestNone)
             (fun _ => AccountNone) (fun _ => 0%Q).

(** The holder query fails on its first page. *)
Definition env_http_raises : Env :=
  sample_env (fun _ => HttpRaises (Exception "ConnectionError"))
             (fun _ => LargestValue
                         [mkLargestAccount (sample_key "acc1") 750000000000000])
             (fun _ => AccountValue (sample_key SPL_TOKEN_PROGRAM_ID)
                                    (sample_record "curve"))
             (fun _ => 0%Q).

(** Sixty-one distinct holders on one page. *)
Definition sample_crowd : list TokenAccount :=
  map (fun i => mkTokenAccount "acc" (string_of_list_byte (repeat Byte.x61 i)))
      (seq 1 61).

(** Two largest accounts, the curve and the creator, with the curve holding
    [curve_amount] base units and the creator [creator_amount]; every holder
    pagination is one page of [crowd] followed by an empty page. *)
Definition env_market (curve_amount creator_amount : Z)
    (crowd : list TokenAccount) (clock : nat -> Q) : Env :=
  sample_env
    (fun i => if Nat.even i then HttpResult crowd else HttpResult [])
    (fun _ => LargestValue
                [mkLargestAccount (sample_key "acc1") curve_amount;
                 mkLargestAccount (sample_key "acc2") creator_amount])
    (fun i => AccountValue (sample_key SPL_TOKEN_PROGRAM_ID)
                (sample_record (if Nat.even i then "curve" else "creator")))
    clock.

(** An environment with another bound on the pages of a pagination. *)
Definition with_fuel (env : Env) (n : nat) : Env :=
  mkEnv (http_response env) (largest_response env) (account_response env)
        (clock_reading env) (pubkey_str env) (pubkey_from_string env)
        (float_pct env) n.

(** The market of [env_market] with a holder query that never runs out of
    pages: every request is answered with the page [sample_crowd]. *)
Definition env_endless : Env :=
  sample_env
    (fun _ => HttpResult sample_crowd)
    (fun _ => LargestValue
                [mkLargestAccount (sample_key "acc1") 750000000000000;
                 mkLargestAccount (sample_key "acc2") 0])
    (fun i => AccountValue (sample_key SPL_TOKEN_PROGRAM_ID)
                (sample_record (if Nat.even i then "curve" else "creator")))
    (fun _ => 0%Q).

(** The RPC node is down: every request for the largest accounts raises. *)
Definition env_rpc_down : Env :=
  sample_env (fun _ => HttpResult [])
             (fun _ => LargestRaises (Exception "ConnectionError"))
             (fun _ => AccountNone) (fun _ => 0%Q).

(** ** Vocabulary of the proofs *)

(** The events of [k] non-empty pages read from page [page] on. *)
Fixpoint page_events (mint : string) (page k : nat) : list Event :=
  match k with
  | O => []
  | S k' =>
      HttpPost mint page 1000 :: Print (MsgProcessingPage page)
      :: page_events mint (S page) k'
  end.

(** The state after [k] more holder queries and the events [evs]. *)
Definition after_queries (st : State) (k : nat) (evs : list Event) : State :=
  mkState (n_http st + k) (n_largest st) (n_account st) (n_clock st)
          (trace st ++ evs).

(** The state after [k] more account lookups and the events [evs]. *)
Definition after_lookups (st : State) (k : nat) (evs : list Event) : State :=
  mkState (n_http st) (n_largest st) (n_account st + k) (n_clock st)
          (trace st ++ evs).

(** The records that the loop of [get_top_holders] appends to
    [top_holders]. *)
Fixpoint kept (self : HolderCountAnalyzer) (env : Env) (idx : nat)
    (pairs : list (LargestAccount * option string)) : list Holder :=
  match pairs with
  | [] => []
  | (account, None) :: rest => kept self env (S idx) rest
  | (account, Some owner_wallet) :: rest =>
      holder_info self env idx owner_wallet account
      :: kept self env (S idx) rest
  end.

(** *** Footprints

    What a computation may touch: the holder query, the clock, the fuel. No
    computation below starts a decision cycle or pauses, so the events it
    adds have an empty cadence. *)

Record Footprint := mkFootprint {
  fp_http : bool;
  fp_clock : bool;
  fp_fuel : bool
}.

Definition within (f : Footprint) (st : State) {A} (r : Outcome A * State)
    : Prop :=
  (fp_http f = false -> n_http (snd r) = n_http st)
  /\ (fp_clock f = false -> n_clock (snd r) = n_clock st)
  /\ (fp_fuel f = false -> fst r <> OutOfFuel)
  /\ exists evs, trace (snd r) = trace st ++ evs /\ cadence evs = [].

Definition stays (f : Footprint) (env : Env) {A} (m : M A) : Prop :=
  forall st, within f st (m env st).

(** The RPC node only. *)
Definition fp_rpc : Footprint := mkFootprint false false false.

(** Everything; [oof] tells whether running out of fuel is to be expected. *)
Definition fp_gates (oof : bool) : Footprint := mkFootprint true true oof.

(** *** Relations that a computation keeps *)

(** A relation between the state before and after that every step of a
    computation keeps. *)
Definition keeps (R : State -> State -> Prop) (env : Env) {A} (m : M A)
    : Prop :=
  forall st, R st (snd (m env st)).

(** The RPC node was not asked anything. *)
Definition same_rpc (st st' : State) : Prop :=
  n_largest st' = n_largest st /\ n_account st' = n_account st.

(** * The trading side of [trade.py]

    [_trade], [trade], [log_trade], [ping_websocket], [main] and the
    command line, with [monitorTokenCreation] as [main] runs it. The
    functions of [buy.py] and [sell.py], the websocket and the scheduler are
    answers of a [World]; the state is the trace of what the program did,
    and the answer to a call is the one indexed by the number of calls of
    its kind made so far. A [while True] loop takes the number of turns the
    embedding follows it for. *)
(** The lines of the analytics and of the admission, for the trading side. *)
Definition Msg0 := Msg.

Module Trade.

(** The creation event, as [listen_for_create_transaction] returns it. *)
Record TokenEvent := mkTokenEvent {
  name : string;
  symbol : string;
  mint : string;
  user : string;
  bondingCurve : string;
  associatedBondingCurve : string
}.

(** The part of the event that [analyser] reads. *)
Definition token_data_of (token_data : TokenEvent) : TokenData :=
  mkTokenData (mint token_data) (user token_data) (bondingCurve token_data).

Inductive Websocket := Connection (id : nat).

(** The dictionary that [log_trade] writes. *)
Record LogEntry := mkLogEntry {
  timestamp : string;
  action : string;
  token_address : string;
  price : Q;
  tx_hash : string
}.

Inductive Msg :=
| MsgWaitingForToken
| MsgNewToken
| MsgJson (token_data : TokenEvent)
| MsgNoMatch (match_string : option string)
| MsgNotBro (bro_address : option string)
| MsgSaved (file_name : string)
| MsgWaitingToStabilize
| MsgBondingCurve (bonding_curve : Pubkey)
| MsgTokenPrice (token_price_sol : Q)
| MsgBuying
| MsgBuyFailed
| MsgWaitingBeforeSelling
| MsgSelling
| MsgSellFailed
| MsgMarryMode
| MsgMonitor (m : Msg0)
| MsgErrorOccurred (e : Exn)
| MsgConnectionClosed
| MsgWaitingForNext
| MsgConnectionError (e : Exn)
| MsgReconnecting.

Inductive Event :=
| Printed (m : Msg)
| Connect (websocket : Websocket)
| Close (websocket : Websocket)
| Listen (websocket : Websocket)
| Ping (websocket : Websocket)
| WriteFile (file_name : string) (token_data : TokenEvent)
| Sleep (seconds : nat)
| GetCurveState (bonding_curve : Pubkey)
| BuyToken (mint bonding_curve associated_bonding_curve : Pubkey)
| SellToken (mint bonding_curve associated_bonding_curve : Pubkey)
| AppendLog (entry : LogEntry)
| AllTasks
| CreateTask (token_data : TokenData).

Inductive Answer (A : Type) :=
| Raises (e : Exn)
| Gives (a : A).
Arguments Raises {A} e.
Arguments Gives {A} a.

(** [buy_answer] and [sell_answer]: [Gives None] is a result that is false
    as a condition, [Gives (Some h)] one that is true and prints as [h].
    [write_answer] is the writing of the token's file ([os.makedirs],
    [open], [write]), [log_answer] the appending to the log.
    [price_answer] is [get_pump_curve_state] followed by
    [calculate_pump_curve_price]. [lower] is [str.lower],
    [connection_closed] tells the exceptions of class [ConnectionClosed]. *)
Record World := mkWorld {
  connect_answer : nat -> Answer unit;
  listen_answer : nat -> Answer TokenEvent;
  ping_answer : nat -> Answer unit;
  write_answer : nat -> Answer unit;
  price_answer : nat -> Answer Q;
  buy_answer : nat -> Answer (option string);
  sell_answer : nat -> Answer (option string);
  log_answer : nat -> Answer unit;
  tasks_answer : nat -> list Task;
  utcnow_answer : nat -> string;
  key_from_string : string -> option Pubkey;
  lower : string -> string;
  connection_closed : Exn -> bool
}.

Definition T (A : Type) : Type := World -> list Event -> Outcome A * list Event.

Definition ret {A} (a : A) : T A := fun _ tr => (Ret a, tr).

Definition bind {A B} (m : T A) (k : A -> T B) : T B :=
  fun w tr =>
    match m w tr with
    | (Ret a, tr') => k a w tr'
    | (Raise e, tr') => (Raise e, tr')
    | (OutOfFuel, tr') => (OutOfFuel, tr')
    end.

Definition raise {A} (e : Exn) : T A := fun _ tr => (Raise e, tr).

Definition out_of_fuel {A} : T A := fun _ tr => (OutOfFuel, tr).

Definition try_except {A} (body : T A) (handler : Exn -> T A) : T A :=
  fun w tr =>
    match body w tr with
    | (Raise e, tr') => handler e w tr'
    | r => r
    end.

(** [try: body finally: cleanup]. *)
Definition finally {A} (body : T A) (cleanup : T unit) : T A :=
  fun w tr =>
    match body w tr with
    | (OutOfFuel, tr') => (OutOfFuel, tr')
    | (r, tr') =>
        match cleanup w tr' with
        | (Ret _, tr'') => (r, tr'')
        | (Raise e, tr'') => (Raise e, tr'')
        | (OutOfFuel, tr'') => (OutOfFuel, tr'')
        end
    end.

Definition ask : T World := fun w tr => (Ret w, tr).

Declare Scope trade_scope.
Notation "x <- m ;; k" := (bind m (fun x => k))
  (at level 100, m at next level, right associativity) : trade_scope.
Notation "m ;; k" := (bind m (fun _ => k))
  (at level 100, right associativity) : trade_scope.
Delimit Scope trade_scope with trade.
Local Open Scope trade_scope.

Definition emit (e : Event) : T unit := fun _ tr => (Ret tt, tr ++ [e]).

Definition print (m : Msg) : T unit := emit (Printed m).

(** The number of events of a kind in a trace. *)
Definition count (kind : Event -> bool) (tr : list Event) : nat :=
  length (List.filter kind tr).

Definition is_connect (e : Event) : bool :=
  match e with Connect _ => true | _ => false end.
Definition is_listen (e : Event) : bool :=
  match e with Listen _ => true | _ => false end.
Definition is_ping (e : Event) : bool :=
  match e with Ping _ => true | _ => false end.
Definition is_write (e : Event) : bool :=
  match e with WriteFile _ _ => true | _ => false end.
Definition is_price (e : Event) : bool :=
  match e with GetCurveState _ => true | _ => false end.
Definition is_buy (e : Event) : bool :=
  match e with BuyToken _ _ _ => true | _ => false end.
Definition is_sell (e : Event) : bool :=
  match e with SellToken _ _ _ => true | _ => false end.
Definition is_log (e : Event) : bool :=
  match e with AppendLog _ => true | _ => false end.
Definition is_all_tasks (e : Event) : bool :=
  match e with AllTasks => true | _ => false end.

(** A call of the outside: the event is recorded, then the answer raises or
    is returned. *)
Definition call {A} (kind : Event -> bool) (answer : World -> nat -> Answer A)
    (e : Event) : T A :=
  fun w tr =>
    match answer w (count kind tr) with
    | Raises exn => (Raise exn, tr ++ [e])
    | Gives a => (Ret a, tr ++ [e])
    end.

(** [asyncio.sleep(seconds)]. *)
Definition asyncio_sleep (seconds : nat) : T unit := emit (Sleep seconds).

(** [Pubkey.from_string(s)]. *)
Definition Pubkey_from_string (s : string) : T Pubkey :=
  w <- ask ;;
  match key_from_string w s with
  | Some p => ret p
  | None => raise (Exception "ValueError")
  end.

(** [async with websockets.connect(WSS_ENDPOINT) as websocket: body]. *)
Definition with_connection {A} (body : Websocket -> T A) : T A :=
  fun w tr =>
    let websocket := Connection (count is_connect tr) in
    bind (call is_connect connect_answer (Connect websocket))
         (fun _ => finally (body websocket) (emit (Close websocket))) w tr.

(** [listen_for_create_transaction(websocket)]. *)
Definition listen_for_create_transaction (websocket : Websocket)
    : T TokenEvent :=
  call is_listen listen_answer (Listen websocket).

(** [needle in hay] on strings. *)
Fixpoint contains (needle hay : string) : bool :=
  String.prefix needle hay
  || match hay with
     | EmptyString => false
     | String _ hay' => contains needle hay'
     end.

(** [log_trade(action, token_data, price, tx_hash)]: one line appended to
    [trades/trades.log]. *)
Definition log_trade (action : string) (token_data : TokenEvent) (price : Q)
    (tx_hash : string) : T unit :=
  fun w tr =>
    let log_entry :=
      mkLogEntry (utcnow_answer w (count is_log tr)) action (mint token_data)
        price tx_hash in
    call is_log log_answer (AppendLog log_entry) w tr.

(** How a turn of a loop ends: [break], or the next turn ([continue] or the
    end of the body). *)
Inductive Control := Break | Continue.

(** A string given as an option is true as a condition when it is there and
    not empty. *)
Definition given (s : option string) : option string :=
  match s with
  | Some "" => None
  | s => s
  end.

(** [match_string and not (match_string.lower() in name.lower() or
    match_string.lower() in symbol.lower())]. *)
Definition fails_match (w : World) (match_string : option string)
    (token_data : TokenEvent) : bool :=
  match given match_string with
  | Some m =>
      negb (contains (lower w m) (lower w (name token_data))
            || contains (lower w m) (lower w (symbol token_data)))
  | None => false
  end.

(** [bro_address and token_data['user'] != bro_address]. *)
Definition fails_bro (bro_address : option string) (token_data : TokenEvent)
    : bool :=
  match given bro_address with
  | Some bro => negb (String.eqb (user token_data) bro)
  | None => false
  end.

(** [if not yolo_mode: break] at the end of a turn, or before [continue]. *)
Definition break_unless (yolo_mode : bool) : T Control :=
  if negb yolo_mode then ret Break else ret Continue.

(** The body of the [while True] of [_trade]. *)
Definition _trade_turn (websocket : Websocket)
    (match_string bro_address : option string) (marry_mode yolo_mode : bool)
    : T Control :=
  print MsgWaitingForToken ;;
  token_data <- listen_for_create_transaction websocket ;;
  print MsgNewToken ;;
  print (MsgJson token_data) ;;
  w <- ask ;;
  if fails_match w match_string token_data then
    print (MsgNoMatch match_string) ;;
    break_unless yolo_mode
  else if fails_bro bro_address token_data then
    print (MsgNotBro bro_address) ;;
    break_unless yolo_mode
  else
    let mint_address := mint token_data in
    let file_name := ("trades/" ++ mint_address ++ ".txt")%string in
    call is_write write_answer (WriteFile file_name token_data) ;;
    print (MsgSaved file_name) ;;
    print MsgWaitingToStabilize ;;
    asyncio_sleep 15 ;;
    mint <- Pubkey_from_string (mint token_data) ;;
    bonding_curve <- Pubkey_from_string (bondingCurve token_data) ;;
    associated_bonding_curve <-
      Pubkey_from_string (associatedBondingCurve token_data) ;;
    token_price_sol <-
      call is_price price_answer (GetCurveState bonding_curve) ;;
    print (MsgBondingCurve bonding_curve) ;;
    print (MsgTokenPrice token_price_sol) ;;
    print MsgBuying ;;
    buy_tx_hash <-
      call is_buy buy_answer
        (BuyToken mint bonding_curve associated_bonding_curve) ;;
    match buy_tx_hash with
    | Some h => log_trade "buy" token_data token_price_sol h
    | None => print MsgBuyFailed
    end ;;
    (if negb marry_mode then
       print MsgWaitingBeforeSelling ;;
       asyncio_sleep 20 ;;
       print MsgSelling ;;
       sell_tx_hash <-
         call is_sell sell_answer
           (SellToken mint bonding_curve associated_bonding_curve) ;;
       match sell_tx_hash with
       | Some h => log_trade "sell" token_data token_price_sol h
       | None => print MsgSellFailed
       end
     else print MsgMarryMode) ;;
    break_unless yolo_mode.

(** [_trade]: the loop, for at most [n] turns. *)
Fixpoint _trade (n : nat) (websocket : Websocket)
    (match_string bro_address : option string) (marry_mode yolo_mode : bool)
    : T unit :=
  match n with
  | O => out_of_fuel
  | S n' =>
      control <-
        _trade_turn websocket match_string bro_address marry_mode yolo_mode ;;
      match control with
      | Break => ret tt
      | Continue =>
          _trade n' websocket match_string bro_address marry_mode yolo_mode
      end
  end.

Definition trade (n : nat) (websocket : option Websocket)
    (match_string bro_address : option string) (marry_mode yolo_mode : bool)
    : T unit :=
  match websocket with
  | None =>
      with_connection
        (fun websocket =>
           _trade n websocket match_string bro_address marry_mode yolo_mode)
  | Some websocket =>
      _trade n websocket match_string bro_address marry_mode yolo_mode
  end.

(** [asyncio.all_tasks()]. *)
Definition all_tasks : T (list Task) :=
  fun w tr => (Ret (tasks_answer w (count is_all_tasks tr)), tr ++ [AllTasks]).

(** The body of the [while True] of [monitorTokenCreation].
    [asyncio.create_task(analyser(token_data))] only hands the task to the
    event loop: the turn records it, and the body of the task is [analyser]
    of the analytics side. *)
Definition monitor_turn : T unit :=
  with_connection
    (fun websocket =>
       print MsgWaitingForToken ;;
       token_data <- listen_for_create_transaction websocket ;;
       print MsgNewToken ;;
       print (MsgJson token_data) ;;
       tasks <- all_tasks ;;
       print (MsgMonitor (MsgNumberOfTasks (length tasks))) ;;
       if length tasks <? 200 then
         print (MsgMonitor (MsgAnalyserStarted (mint token_data))) ;;
         emit (CreateTask (token_data_of token_data))
       else
         print (MsgMonitor MsgTooManyTasks)).

Fixpoint monitorTokenCreation (n : nat) : T unit :=
  match n with
  | O => out_of_fuel
  | S n' => monitor_turn ;; monitorTokenCreation n'
  end.

(** The loop of [main] in monitor mode. *)
Fixpoint monitor_forever (n : nat) : T unit :=
  match n with
  | O => out_of_fuel
  | S n' =>
      try_except (monitorTokenCreation n')
        (fun e => print (MsgErrorOccurred e)) ;;
      monitor_forever n'
  end.

(** The inner loop of [main] in yolo mode, on one connection. *)
Fixpoint yolo_trades (n : nat) (websocket : Websocket)
    (match_string bro_address : option string) (marry_mode yolo_mode : bool)
    : T unit :=
  match n with
  | O => out_of_fuel
  | S n' =>
      control <-
        try_except
          (trade n' (Some websocket) match_string bro_address marry_mode
             yolo_mode ;;
           ret Continue)
          (fun e =>
             w <- ask ;;
             if connection_closed w e then
               print MsgConnectionClosed ;; ret Break
             else
               print (MsgErrorOccurred e) ;; ret Continue) ;;
      match control with
      | Break => ret tt
      | Continue =>
          print MsgWaitingForNext ;;
          asyncio_sleep 5 ;;
          yolo_trades n' websocket match_string bro_address marry_mode
            yolo_mode
      end
  end.

(** The outer loop of [main] in yolo mode. *)
Fixpoint yolo_forever (n : nat)
    (match_string bro_address : option string) (marry_mode yolo_mode : bool)
    : T unit :=
  match n with
  | O => out_of_fuel
  | S n' =>
      try_except
        (with_connection
           (fun websocket =>
              yolo_trades n' websocket match_string bro_address marry_mode
                yolo_mode))
        (fun e =>
           print (MsgConnectionError e) ;;
           print MsgReconnecting ;;
           asyncio_sleep 5) ;;
      yolo_forever n' match_string bro_address marry_mode yolo_mode
  end.

Definition main (n : nat) (yolo_mode : bool)
    (match_string bro_address : option string)
    (marry_mode monitor_mode : bool) : T unit :=
  (if monitor_mode then monitor_forever n else ret tt) ;;
  if yolo_mode then
    yolo_forever n match_string bro_address marry_mode yolo_mode
  else
    with_connection
      (fun websocket =>
         trade n (Some websocket) match_string bro_address marry_mode
           yolo_mode).

(** The arguments of the command line. *)
Record Args := mkArgs {
  args_yolo : bool;
  args_match : option string;
  args_bro : option string;
  args_marry : bool;
  args_monitor : bool
}.

(** [asyncio.run(main(yolo_mode=args.yolo, match_string=args.match,
    bro_address=args.bro, marry_mode=args.marry))]: [monitor_mode] is left
    to its default, [True]. *)
Definition command_line (n : nat) (args : Args) : T unit :=
  main n (args_yolo args) (args_match args) (args_bro args) (args_marry args)
    true.

Fixpoint ping_websocket (n : nat) (websocket : Websocket) : T unit :=
  match n with
  | O => out_of_fuel
  | S n' =>
      control <-
        try_except
          (call is_ping ping_answer (Ping websocket) ;;
           asyncio_sleep 20 ;;
           ret Continue)
          (fun _ => ret Break) ;;
      match control with
      | Break => ret tt
      | Continue => ping_websocket n' websocket
      end
  end.

(** ** Vocabulary of the statements about the trading side *)

(** The events of buying and selling: the token's file, the price query,
    the two transactions and the log. *)
Definition is_trading (e : Event) : bool :=
  is_write e || is_price e || is_buy e || is_sell e || is_log e.

(** [grows I m]: whatever the world answers, [m] only appends to the trace,
    and what it appends satisfies [I]. *)
Definition grows (I : list Event -> Prop) {A} (m : T A) : Prop :=
  forall w tr, exists evs, snd (m w tr) = tr ++ evs /\ I evs.

(** Every event added satisfies [P]. *)
Definition only (P : Event -> Prop) : list Event -> Prop := Forall P.

(** In every trace of the program: no sale without a purchase, no purchase
    without a price, no price without the token's file, no file without a
    creation event, and no log line without a transaction. *)
Definition balanced (evs : list Event) : Prop :=
  count is_sell evs <= count is_buy evs
  /\ count is_buy evs <= count is_price evs
  /\ count is_price evs <= count is_write evs
  /\ count is_write evs <= count is_listen evs
  /\ count is_log evs <= count is_buy evs + count is_sell evs.

(** With [marry_mode] no [SellToken] is sent and every log line is a
    purchase. *)
Definition no_sale (e : Event) : bool :=
  match e with
  | SellToken _ _ _ => false
  | AppendLog entry => String.eqb (action entry) "buy"
  | _ => true
  end.

(** [before a b evs]: in [evs] every event of kind [b] comes after an
    event of kind [a]. *)
Definition before (a b : Event -> bool) (evs : list Event) : Prop :=
  forall pre e post,
    evs = pre ++ e :: post -> b e = true -> 1 <= count a pre.

(** The same, as a check of the list from left to right; [seen] tells
    whether an event of kind [a] was met. *)
Fixpoint beforeb (a b : Event -> bool) (seen : bool) (evs : list Event)
    : bool :=
  match evs with
  | [] => true
  | e :: rest =>
      (if b e then seen else true) && beforeb a b (seen || a e) rest
  end.

(** What one turn adds: one creation event; at most one purchase, sent
    after the event; at most one sale, sent after the purchase. *)
Definition one_token (evs : list Event) : Prop :=
  count is_listen evs = 1
  /\ count is_connect evs = 0
  /\ count is_buy evs <= 1
  /\ count is_sell evs <= 1
  /\ before is_listen is_buy evs
  /\ before is_buy is_sell evs.

(** What follows a transaction: a line of the log when its result is true
    as a condition, the line [failed] on the screen otherwise. *)
Definition recorded (w : World) (logged : nat) (action : string)
    (token_data : TokenEvent) (price : Q) (tx_hash : option string)
    (failed : Msg) : list Event :=
  match tx_hash with
  | Some h =>
      [AppendLog
         (mkLogEntry (utcnow_answer w logged) action (mint token_data) price
            h)]
  | None => [Printed failed]
  end.

(** The events of a turn up to the purchase. *)
Definition until_purchase (websocket : Websocket) (token_data : TokenEvent)
    (mint_key bonding_curve associated_bonding_curve : Pubkey)
    (token_price_sol : Q) : list Event :=
  let file_name := ("trades/" ++ mint token_data ++ ".txt")%string in
  [Printed MsgWaitingForToken; Listen websocket; Printed MsgNewToken;
   Printed (MsgJson token_data); WriteFile file_name token_data;
   Printed (MsgSaved file_name); Printed MsgWaitingToStabilize; Sleep 15;
   GetCurveState bonding_curve; Printed (MsgBondingCurve bonding_curve);
   Printed (MsgTokenPrice token_price_sol); Printed MsgBuying;
   BuyToken mint_key bonding_curve associated_bonding_curve].

End Trade.

(** ** A sample world for the trading examples *)

(** Every call succeeds; the events are for tokens named [Pepe Coin]; tasks
    are the main task alone; ASCII letters are lowered. *)
Definition sample_lower (s : string) : string :=
  string_of_list_ascii
    (map (fun c =>
            let k := Ascii.nat_of_ascii c in
            if (65 <=? k) && (k <=? 90) then Ascii.ascii_of_nat (k + 32)
            else c)
         (list_ascii_of_string s)).

Definition sample_token_event : Trade.TokenEvent :=
  Trade.mkTokenEvent "Pepe Coin" "PEPE" "mint" "creator" "curve" "assoc".

Definition sample_world (buy sell : Trade.Answer (option string))
    : Trade.World :=
  Trade.mkWorld
    (fun _ => Trade.Gives tt)
    (fun _ => Trade.Gives sample_token_event)
    (fun i => if i <? 3 then Trade.Gives tt
              else Trade.Raises (Exception "ConnectionClosed"))
    (fun _ => Trade.Gives tt)
    (fun _ => Trade.Gives (1 # 1000000)%Q)
    (fun _ => buy) (fun _ => sell)
    (fun _ => Trade.Gives tt)
    (fun _ => [MainTask])
    (fun _ => "2024-01-01T00:00:00")
    (fun s => Some (sample_key s))
    sample_lower
    (fun e => match e with
              | Exception what => String.eqb what "ConnectionClosed"
              end).

(** The same world with a purchase that gives a transaction and a log that
    cannot be written. *)
Definition sample_world_no_log : Trade.World :=
  Trade.mkWorld
    (fun _ => Trade.Gives tt)
    (fun _ => Trade.Gives sample_token_event)
    (fun _ => Trade.Gives tt)
    (fun _ => Trade.Gives tt)
    (fun _ => Trade.Gives (1 # 1000000)%Q)
    (fun _ => Trade.Gives (Some "tx1"))
    (fun _ => Trade.Gives (Some "tx2"))
    (fun _ => Trade.Raises (Exception "OSError"))
    (fun _ => [MainTask])
    (fun _ => "2024-01-01T00:00:00")
    (fun s => Some (sample_key s))
    sample_lower
    (fun _ => false).

(** A world whose connection is closed while the program listens. *)
Definition sample_world_closed : Trade.World :=
  Trade.mkWorld
    (fun _ => Trade.Gives tt)
    (fun _ => Trade.Raises (Exception "ConnectionClosed"))
    (fun _ => Trade.Gives tt)
    (fun _ => Trade.Gives tt)
    (fun _ => Trade.Gives (1 # 1000000)%Q)
    (fun _ => Trade.Gives None)
    (fun _ => Trade.Gives None)
    (fun _ => Trade.Gives tt)
    (fun _ => [MainTask])
    (fun _ => "2024-01-01T00:00:00")
    (fun s => Some (sample_key s))
    sample_lower
    (fun e => match e with
              | Exception what => String.eqb what "ConnectionClosed"
              end).

(** * Properties *)

(** ** Running the monad *)

Lemma bind_run {A B} (m : M A) (k : A -> M B) env st a st' :
  m env st = (Ret a, st') -> bind m k env st = k a env st'.
Proof. intros H. unfold bind. now rewrite H. Qed.

Lemma bind_raise {A B} (m : M A) (k : A -> M B) env st e st' :
  m env st = (Raise e, st') -> bind m k env st = (Raise e, st').
Proof. intros H. unfold bind. now rewrite H. Qed.

Lemma try_except_ret {A} (m : M A) handler env st a st' :
  m env st = (Ret a, st') -> try_except m handler env st = (Ret a, st').
Proof. intros H. unfold try_except. now rewrite H. Qed.

Lemma try_except_raise {A} (m : M A) handler env st e st' :
  m env st = (Raise e, st') ->
  try_except m handler env st = handler e env st'.
Proof. intros H. unfold try_except. now rewrite H. Qed.

Lemma print_run m env st : print m env st = (Ret tt, extend st [Print m]).
Proof. reflexivity. Qed.

Lemma extend_extend st evs evs' :
  extend (extend st evs) evs' = extend st (evs ++ evs').
Proof. unfold extend. simpl. now rewrite <- app_assoc. Qed.

Lemma extend_nil st : extend st [] = st.
Proof. destruct st. unfold extend. simpl. now rewrite app_nil_r. Qed.

(** ** The creator-exit and liquidity gates *)

(** The loop of [check_dev_wallet_sold] returns, and it returns [false]
    exactly when it meets a record of [dev] at or above the threshold. *)
Lemma check_dev_wallet_sold_loop_run dev threshold hs env st :
  exists b evs,
    check_dev_wallet_sold_loop dev threshold hs env st
      = (Ret b, extend st evs)
    /\ (b = false <->
        exists h, h ∈ hs /\ address h = dev
                  /\ (inject_Z threshold <= percentage h)%Q).
Proof.
  revert st. induction hs as [|h hs IH]; intros st; simpl.
  - exists true, [Print MsgDevSold]. split; [reflexivity|].
    split; [discriminate|]. intros (h & Hin & _). now apply elem_of_nil in Hin.
  - destruct (String.eqb (address h) dev) eqn:Ea; simpl.
    + destruct (Qle_bool (inject_Z threshold) (percentage h)) eqn:Ep.
      * exists false, [Print (MsgDevStillHolds threshold)].
        split; [reflexivity|]. split; [|reflexivity]. intros _.
        exists h. split; [apply elem_of_cons; now left|].
        split; [now apply String.eqb_eq|now apply Qle_bool_iff].
      * destruct (IH st) as (b & evs & Hrun & Hb). exists b, evs.
        split; [exact Hrun|]. rewrite Hb. split.
        -- intros (h' & Hin & Hd & Hp). exists h'.
           split; [apply elem_of_cons; now right|now split].
        -- intros (h' & Hin & Hd & Hp). apply elem_of_cons in Hin.
           destruct Hin as [->|Hin]; [|now exists h'].
           apply Qle_bool_iff in Hp. congruence.
    + destruct (IH st) as (b & evs & Hrun & Hb). exists b, evs.
      split; [exact Hrun|]. rewrite Hb. split.
      * intros (h' & Hin & Hd & Hp). exists h'.
        split; [apply elem_of_cons; now right|now split].
      * intros (h' & Hin & Hd & Hp). apply elem_of_cons in Hin.
        destruct Hin as [->|Hin]; [|now exists h'].
        apply String.eqb_neq in Ea. contradiction.
Qed.

(** The loop of [check_lp_liquidity] returns, and it returns [true] exactly
    when it meets a record of the curve above the lower bound and at or below
    the upper bound. *)
Lemma check_lp_liquidity_loop_run curve lower upper hs env st :
  exists b evs,
    check_lp_liquidity_loop curve lower upper hs env st
      = (Ret b, extend st evs)
    /\ (b = true <->
        exists h, h ∈ hs /\ address h = curve
                  /\ (inject_Z lower < percentage h)%Q
                  /\ (percentage h <= inject_Z upper)%Q).
Proof.
  revert st. induction hs as [|h hs IH]; intros st; simpl.
  - exists false, [Print (MsgLpDoesNotMeet lower upper)].
    split; [reflexivity|]. split; [discriminate|].
    intros (h & Hin & _). now apply elem_of_nil in Hin.
  - destruct (String.eqb (address h) curve
              && Qle_bool (percentage h) (inject_Z upper)
              && negb (Qle_bool (percentage h) (inject_Z lower))) eqn:E.
    + exists true, [Print (MsgLpMeets lower upper)].
      split; [reflexivity|]. split; [|reflexivity]. intros _.
      apply andb_true_iff in E. destruct E as [E El].
      apply andb_true_iff in E. destruct E as [Ea Eu].
      exists h. split; [apply elem_of_cons; now left|].
      split; [now apply String.eqb_eq|]. split.
      * apply Qnot_le_lt. intros Hle. apply Qle_bool_iff in Hle.
        rewrite Hle in El. discriminate.
      * now apply Qle_bool_iff.
    + destruct (IH st) as (b & evs & Hrun & Hb). exists b, evs.
      split; [exact Hrun|]. rewrite Hb. split.
      * intros (h' & Hin & Hd & Hp). exists h'.
        split; [apply elem_of_cons; now right|exact (conj Hd Hp)].
      * intros (h' & Hin & Hd & Hl & Hu). apply elem_of_cons in Hin.
        destruct Hin as [->|Hin]; [|exists h'; auto].
        apply String.eqb_eq in Hd. apply Qle_bool_iff in Hu.
        rewrite Hd, Hu in E. simpl in E.
        apply negb_false_iff in E. apply Qle_bool_iff in E.
        exfalso. exact (Qlt_not_le _ _ Hl E).
Qed.

(** C3 (amended). On the empty snapshot [check_dev_wallet_sold] returns
    false. On every non-empty snapshot it returns a boolean, which is false
    exactly when some record whose address is the creator wallet has a
    percentage at or above the threshold; so it is true whenever no record
    of the snapshot has the creator's address. *)
Theorem check_dev_wallet_sold_spec self mint threshold top_holders env st :
  check_dev_wallet_sold self mint threshold [] env st
    = (Ret false, extend st [Print MsgNoTopHolders])
  /\ (top_holders <> [] ->
      exists b evs,
        check_dev_wallet_sold self mint threshold top_holders env st
          = (Ret b, extend st evs)
        /\ (b = false <->
            exists h, h ∈ top_holders
                      /\ address h = str_optional env (dev_wallet_pubkey self)
                      /\ (inject_Z threshold <= percentage h)%Q)
        /\ ((forall h, h ∈ top_holders ->
                       address h <> str_optional env (dev_wallet_pubkey self))
            -> b = true)).
Proof.
  split; [reflexivity|]. intros Hne.
  destruct top_holders as [|h0 hs]; [contradiction|].
  destruct (check_dev_wallet_sold_loop_run
              (str_optional env (dev_wallet_pubkey self)) threshold (h0 :: hs)
              env st) as (b & evs & Hrun & Hb).
  exists b, evs. split; [exact Hrun|]. split; [exact Hb|].
  intros Habsent. destruct b; [reflexivity|].
  destruct (proj1 Hb eq_refl) as (h & Hin & Hd & _).
  now destruct (Habsent h Hin).
Qed.

(** A snapshot with the curve at 75% and the creator at 5%: the creator has
    not sold; with the creator at 0.5% it has. *)
Lemma check_dev_wallet_sold_spec_witness :
  fst (check_dev_wallet_sold sample_analyzer sample_mint 1
         [mkHolder 1 "curve" 750000000000000 75%Q false;
          mkHolder 2 "creator" 50000000000000 5%Q true]
         env_no_holders initial_state) = Ret false
  /\ fst (check_dev_wallet_sold sample_analyzer sample_mint 1
            [mkHolder 1 "curve" 750000000000000 75%Q false]
            env_no_holders initial_state) = Ret true.
Proof.
  split.
  - destruct (proj2 (check_dev_wallet_sold_spec sample_analyzer sample_mint 1
                       [mkHolder 1 "curve" 750000000000000 75%Q false;
                        mkHolder 2 "creator" 50000000000000 5%Q true]
                       env_no_holders initial_state))
      as (b & evs & Hrun & Hb & _); [discriminate|].
    rewrite Hrun. simpl. f_equal. apply Hb.
    exists (mkHolder 2 "creator" 50000000000000 5%Q true).
    split; [apply elem_of_cons; right; apply elem_of_cons; now left|].
    split; [reflexivity|]. unfold Qle. simpl. lia.
  - destruct (proj2 (check_dev_wallet_sold_spec sample_analyzer sample_mint 1
                       [mkHolder 1 "curve" 750000000000000 75%Q false]
                       env_no_holders initial_state))
      as (b & evs & Hrun & _ & Hb); [discriminate|].
    rewrite Hrun. simpl. f_equal. apply Hb.
    intros h Hin. apply elem_of_cons in Hin. destruct Hin as [->|Hin].
    + discriminate.
    + now apply elem_of_nil in Hin.
Defined.

(** C3, as stated, fails on the empty snapshot: no record of it has the
    creator's address, and the predicate returns false. *)
Lemma check_dev_wallet_sold_empty_snapshot :
  (forall h : Holder,
      h ∈ [] ->
      address h
      <> str_optional env_no_holders (dev_wallet_pubkey sample_analyzer))
  /\ fst (check_dev_wallet_sold sample_analyzer sample_mint 1 []
            env_no_holders initial_state) = Ret false
  /\ fst (check_dev_wallet_sold sample_analyzer sample_mint 1 []
            env_no_holders initial_state) <> Ret true.
Proof.
  split; [intros h Hin; now apply elem_of_nil in Hin|].
  split; [reflexivity|discriminate].
Qed.

(** C4. [check_lp_liquidity] returns a boolean, which is true exactly when
    some record whose address is the bonding curve has a percentage strictly
    above the lower bound and at or below the upper bound. It is false when
    no record has the curve's address. With the bounds 70 and 80 a curve
    record at exactly 80 gives true, and curve records at exactly 70 give
    false. *)
Theorem check_lp_liquidity_spec self mint lower upper top_holders env st :
  let curve := str_optional env (bonding_curve_pubkey self) in
  exists b evs,
    check_lp_liquidity self mint lower upper top_holders env st
      = (Ret b, extend st evs)
    /\ (b = true <->
        exists h, h ∈ top_holders /\ address h = curve
                  /\ (inject_Z lower < percentage h)%Q
                  /\ (percentage h <= inject_Z upper)%Q)
    /\ ((forall h, h ∈ top_holders -> address h <> curve) -> b = false)
    /\ (lower = 70%Z -> upper = 80%Z ->
        (exists h, h ∈ top_holders /\ address h = curve
                   /\ (percentage h == 80)%Q) ->
        b = true)
    /\ (lower = 70%Z -> upper = 80%Z ->
        (forall h, h ∈ top_holders -> address h = curve ->
                   (percentage h == 70)%Q) ->
        b = false).
Proof.
  intros curve.
  assert (exists b evs,
            check_lp_liquidity self mint lower upper top_holders env st
              = (Ret b, extend st evs)
            /\ (b = true <->
                exists h, h ∈ top_holders /\ address h = curve
                          /\ (inject_Z lower < percentage h)%Q
                          /\ (percentage h <= inject_Z upper)%Q))
    as (b & evs & Hrun & Hb).
  { destruct top_holders as [|h0 hs].
    - exists false, [Print MsgNoTopHolders]. split; [reflexivity|].
      split; [discriminate|]. intros (h & Hin & _).
      now apply elem_of_nil in Hin.
    - apply (check_lp_liquidity_loop_run curve lower upper (h0 :: hs)). }
  exists b, evs. split; [exact Hrun|]. split; [exact Hb|].
  split; [|split].
  - intros Habsent. destruct b; [|reflexivity].
    destruct (proj1 Hb eq_refl) as (h & Hin & Hc & _).
    now destruct (Habsent h Hin).
  - intros -> -> (h & Hin & Hc & Hp). apply Hb. exists h.
    split; [exact Hin|]. split; [exact Hc|]. rewrite Hp.
    split; [reflexivity|]. unfold Qle. simpl. lia.
  - intros -> -> Hall. destruct b; [|reflexivity].
    destruct (proj1 Hb eq_refl) as (h & Hin & Hc & Hl & _).
    rewrite (Hall h Hin Hc) in Hl. discriminate Hl.
Qed.

(** The curve at exactly 80% passes the bounds 70 and 80; at exactly 70% it
    does not. *)
Lemma check_lp_liquidity_spec_witness :
  fst (check_lp_liquidity sample_analyzer sample_mint 70 80
         [mkHolder 1 "curve" 800000000000000 80%Q false]
         env_no_holders initial_state) = Ret true
  /\ fst (check_lp_liquidity sample_analyzer sample_mint 70 80
            [mkHolder 1 "curve" 700000000000000 70%Q false]
            env_no_holders initial_state) = Ret false.
Proof.
  split.
  - destruct (check_lp_liquidity_spec sample_analyzer sample_mint 70 80
                [mkHolder 1 "curve" 800000000000000 80%Q false]
                env_no_holders initial_state)
      as (b & evs & Hrun & _ & _ & H80 & _).
    rewrite Hrun. simpl. f_equal. apply H80; try reflexivity.
    exists (mkHolder 1 "curve" 800000000000000 80%Q false).
    split; [apply elem_of_cons; now left|]. split; reflexivity.
  - destruct (check_lp_liquidity_spec sample_analyzer sample_mint 70 80
                [mkHolder 1 "curve" 700000000000000 70%Q false]
                env_no_holders initial_state)
      as (b & evs & Hrun & _ & _ & _ & H70).
    rewrite Hrun. simpl. f_equal. apply H70; try reflexivity.
    intros h Hin _. apply elem_of_cons in Hin. destruct Hin as [->|Hin].
    + reflexivity.
    + now apply elem_of_nil in Hin.
Defined.

(** ** The holder pagination *)

Lemma after_queries_twice st k evs k' evs' :
  after_queries (after_queries st k evs) k' evs'
  = after_queries st (k + k') (evs ++ evs').
Proof.
  unfold after_queries. simpl. rewrite <- app_assoc. f_equal. lia.
Qed.

Lemma http_pages_app evs evs' :
  http_pages (evs ++ evs') = http_pages evs ++ http_pages evs'.
Proof.
  induction evs as [|e evs IH]; [reflexivity|].
  destruct e; simpl; now rewrite ?IH.
Qed.

Lemma http_pages_page_events mint page k :
  http_pages (page_events mint page k) = seq page k.
Proof.
  revert page. induction k as [|k IH]; intros page; [reflexivity|].
  simpl. now rewrite IH.
Qed.

Lemma add_owners_union token_accounts all_owners :
  add_owners token_accounts all_owners
  = list_to_set (map ta_owner token_accounts) ∪ all_owners.
Proof.
  unfold add_owners. revert all_owners.
  induction token_accounts as [|a l IH]; intros s; simpl.
  - now rewrite union_empty_l_L.
  - rewrite IH, (assoc_L (∪)).
    now rewrite (comm_L (∪) (list_to_set (map ta_owner l))).
Qed.

Lemma fold_add_owners pages all_owners :
  fold_left (fun s p => add_owners p s) pages all_owners
  = owners_of_pages pages ∪ all_owners.
Proof.
  unfold owners_of_pages. revert all_owners.
  induction pages as [|p ps IH]; intros s; simpl.
  - now rewrite union_empty_l_L.
  - rewrite IH, add_owners_union, map_app, list_to_set_app_L, (assoc_L (∪)).
    now rewrite (comm_L (∪) (list_to_set (map ta_owner (concat ps)))).
Qed.

(** As long as the answers are non-empty pages the loop goes on: after the
    pages [pages] it is at page [page + length pages] with their owners
    added. *)
Lemma get_holder_count_loop_pages mint env pages :
  forall n page all_owners st,
    Forall (fun p => p <> []) pages ->
    (forall i p, pages !! i = Some p ->
                 http_response env (n_http st + i) = HttpResult p) ->
    get_holder_count_loop (length pages + n) mint page all_owners env st
    = get_holder_count_loop n mint (page + length pages)
        (fold_left (fun s p => add_owners p s) pages all_owners) env
        (after_queries st (length pages)
           (page_events (pubkey_str env mint) page (length pages))).
Proof.
  induction pages as [|p ps IH]; intros n page all_owners st Hne Hresp.
  - simpl. rewrite Nat.add_0_r. f_equal. destruct st.
    unfold after_queries. simpl. now rewrite Nat.add_0_r, app_nil_r.
  - inversion Hne as [|? ? Hp Hps]; subst.
    pose proof (Hresp 0 p eq_refl) as H0. rewrite Nat.add_0_r in H0.
    simpl get_holder_count_loop at 1. unfold bind at 1.
    unfold requests_post at 1. rewrite H0.
    destruct p as [|a p]; [contradiction|].
    change (length (a :: p) =? 0) with false. cbv iota.
    unfold bind at 1. rewrite print_run.
    rewrite IH; [|exact Hps|].
    + replace (page + 1 + length ps) with (page + length ((a :: p) :: ps))
        by (simpl; lia).
      f_equal. unfold after_queries, extend. simpl.
      rewrite <- !app_assoc, Nat.add_1_r. simpl. f_equal. lia.
    + intros i q Hq. simpl. rewrite <- (Hresp (S i) q Hq). f_equal. lia.
Qed.

(** The loop at an empty page or at an answer without result. *)
Lemma get_holder_count_loop_last mint env n page all_owners st :
  http_response env (n_http st) = HttpNoResult
  \/ http_response env (n_http st) = HttpResult [] ->
  get_holder_count_loop (S n) mint page all_owners env st
  = (Ret (size all_owners),
     after_queries st 1
       [HttpPost (pubkey_str env mint) page 1000;
        Print (MsgNoMoreResults (page - 1))]).
Proof.
  intros H. simpl. unfold bind at 1. unfold requests_post.
  destruct H as [-> | ->]; simpl; unfold bind, print, emit, ret, after_queries;
    simpl; rewrite <- app_assoc; do 2 f_equal; lia.
Qed.

(** The loop at a query that raises. *)
Lemma get_holder_count_loop_raises mint env n page all_owners st e :
  http_response env (n_http st) = HttpRaises e ->
  get_holder_count_loop (S n) mint page all_owners env st
  = (Raise e,
     after_queries st 1 [HttpPost (pubkey_str env mint) page 1000]).
Proof.
  intros H. simpl. unfold bind at 1. unfold requests_post. rewrite H.
  unfold after_queries. do 2 f_equal. lia.
Qed.

(** A pagination of [pages] closed by an empty page or by an answer without
    result. *)
Lemma get_holder_count_closed mint env st pages :
  Forall (fun p => p <> []) pages ->
  (forall i p, pages !! i = Some p ->
               http_response env (n_http st + i) = HttpResult p) ->
  http_response env (n_http st + length pages) = HttpNoResult
  \/ http_response env (n_http st + length pages) = HttpResult [] ->
  length pages < fuel env ->
  get_holder_count mint env st
  = (Ret (size (owners_of_pages pages)),
     after_queries st (length pages + 1)
       (page_events (pubkey_str env mint) 1 (length pages)
        ++ [HttpPost (pubkey_str env mint) (1 + length pages) 1000;
            Print (MsgNoMoreResults (length pages))])).
Proof.
  intros Hne Hresp Hlast Hfuel. unfold get_holder_count, bind, ask.
  replace (fuel env) with (length pages + S (fuel env - length pages - 1))
    by lia.
  rewrite get_holder_count_loop_pages by assumption.
  rewrite get_holder_count_loop_last by exact Hlast.
  rewrite fold_add_owners. f_equal.
  - now rewrite union_empty_r_L.
  - rewrite after_queries_twice.
    replace (1 + length pages - 1) with (length pages) by lia. reflexivity.
Qed.

(** C5. When the holder query answers with the non-empty pages [pages] and
    then with an empty page, [get_holder_count] returns the number of
    distinct owners named on [pages], and it has asked for the pages 1 to
    [length pages + 1] and for nothing more. *)
Theorem get_holder_count_pagination mint env st pages :
  Forall (fun p => p <> []) pages ->
  (forall i p, pages !! i = Some p ->
               http_response env (n_http st + i) = HttpResult p) ->
  http_response env (n_http st + length pages) = HttpResult [] ->
  length pages < fuel env ->
  exists st',
    get_holder_count mint env st = (Ret (size (owners_of_pages pages)), st')
    /\ n_http st' = n_http st + length pages + 1
    /\ http_pages (trace st')
       = http_pages (trace st) ++ seq 1 (length pages + 1).
Proof.
  intros Hne Hresp Hlast Hfuel. eexists. split.
  - apply get_holder_count_closed; auto.
  - split; [simpl; lia|]. simpl trace.
    rewrite !http_pages_app, http_pages_page_events. simpl.
    rewrite Nat.add_1_r, seq_S. reflexivity.
Qed.

(** Two pages with three accounts of two owners, then an empty page: the
    count is 2 after three queries. *)
Lemma get_holder_count_pagination_witness :
  exists st',
    get_holder_count sample_mint (env_two_pages (HttpResult [])) initial_state
    = (Ret (size (owners_of_pages two_pages)), st')
    /\ n_http st' = n_http initial_state + length two_pages + 1
    /\ http_pages (trace st')
       = http_pages (trace initial_state) ++ seq 1 (length two_pages + 1).
Proof.
  apply (get_holder_count_pagination sample_mint
           (env_two_pages (HttpResult [])) initial_state two_pages).
  - repeat constructor; discriminate.
  - intros i p Hp. simpl. now rewrite Hp.
  - reflexivity.
  - simpl. lia.
Defined.

Example two_pages_owners : size (owners_of_pages two_pages) = 2.
Proof. vm_compute. reflexivity. Qed.

(** The answers of [with_http_response] away from the replaced one. *)
Lemma with_http_response_other env k r i :
  i <> k -> http_response (with_http_response env k r) i = http_response env i.
Proof.
  intros Hne. simpl. destruct (Nat.eqb_spec i k); [contradiction|reflexivity].
Qed.

Lemma with_http_response_same env k r :
  http_response (with_http_response env k r) k = r.
Proof. simpl. now rewrite Nat.eqb_refl. Qed.

(** C10. When the holder query answers with the non-empty pages [pages] and
    then with a document that has no [result] field, [get_holder_count]
    returns the number of distinct owners named on [pages] after asking for
    the pages 1 to [length pages + 1], that page once; and the whole run is
    the one it makes when that answer is an empty page instead. *)
Theorem get_holder_count_missing_result mint env st pages :
  Forall (fun p => p <> []) pages ->
  (forall i p, pages !! i = Some p ->
               http_response env (n_http st + i) = HttpResult p) ->
  http_response env (n_http st + length pages) = HttpNoResult ->
  length pages < fuel env ->
  (exists st',
      get_holder_count mint env st = (Ret (size (owners_of_pages pages)), st')
      /\ n_http st' = n_http st + length pages + 1
      /\ http_pages (trace st')
         = http_pages (trace st) ++ seq 1 (length pages + 1))
  /\ get_holder_count mint env st
     = get_holder_count mint
         (with_http_response env (n_http st + length pages) (HttpResult []))
         st.
Proof.
  intros Hne Hresp Hlast Hfuel.
  pose proof (get_holder_count_closed mint env st pages Hne Hresp
                (or_introl Hlast) Hfuel) as Hrun.
  split.
  - eexists. split; [exact Hrun|]. split; [simpl; lia|]. simpl trace.
    rewrite !http_pages_app, http_pages_page_events. simpl.
    rewrite Nat.add_1_r, seq_S. reflexivity.
  - rewrite Hrun. symmetry.
    apply (get_holder_count_closed mint
             (with_http_response env (n_http st + length pages)
                (HttpResult [])) st pages Hne).
    + intros i p Hp. rewrite with_http_response_other.
      * now apply Hresp.
      * apply lookup_lt_Some in Hp. lia.
    + right. apply with_http_response_same.
    + exact Hfuel.
Qed.

Lemma get_holder_count_missing_result_witness :
  (exists st',
      get_holder_count sample_mint (env_two_pages HttpNoResult) initial_state
      = (Ret (size (owners_of_pages two_pages)), st')
      /\ n_http st' = n_http initial_state + length two_pages + 1
      /\ http_pages (trace st')
         = http_pages (trace initial_state) ++ seq 1 (length two_pages + 1))
  /\ get_holder_count sample_mint (env_two_pages HttpNoResult) initial_state
     = get_holder_count sample_mint
         (with_http_response (env_two_pages HttpNoResult)
            (n_http initial_state + length two_pages) (HttpResult []))
         initial_state.
Proof.
  apply (get_holder_count_missing_result sample_mint
           (env_two_pages HttpNoResult) initial_state two_pages).
  - repeat constructor; discriminate.
  - intros i p Hp. simpl. now rewrite Hp.
  - reflexivity.
  - simpl. lia.
Defined.

(** Against non-empty pages only, the loop uses up its fuel. *)
Lemma get_holder_count_loop_unbounded mint env :
  (forall i, last_page (http_response env i) = false) ->
  forall n page all_owners st,
  exists st',
    get_holder_count_loop n mint page all_owners env st = (OutOfFuel, st')
    /\ n_http st' = n_http st + n.
Proof.
  intros Hpages. induction n as [|n IH]; intros page all_owners st.
  - exists st. split; [reflexivity|lia].
  - specialize (Hpages (n_http st)) as Hpage.
    destruct (http_response env (n_http st)) as [e| |[|a l]] eqn:Hr;
      try discriminate Hpage.
    change (S n) with (length [a :: l] + n).
    rewrite (get_holder_count_loop_pages mint env [a :: l]).
    + match goal with
      | |- context [get_holder_count_loop n mint ?p ?o env ?s] =>
          destruct (IH p o s) as (st' & Hrun & Hcount)
      end.
      exists st'. split; [exact Hrun|]. rewrite Hcount. simpl. lia.
    + repeat constructor. discriminate.
    + intros [|i] p Hp; [|discriminate].
      inversion Hp; subst. now rewrite Nat.add_0_r.
Qed.

(** ** A holder query that raises *)

Lemma make_decision_opening_run start env st :
  make_decision_opening start env st
  = (Ret tt, exec (make_decision_opening start) env st).
Proof. reflexivity. Qed.

(** [make_decision] once the snapshot is known. *)
Lemma make_decision_snapshot self mint ht dt lo up start limit env st
    top_holders st1 :
  get_top_holders self mint 20 env (exec (make_decision_opening start) env st)
  = (Ret top_holders, st1) ->
  make_decision self mint ht dt lo up start limit env st
  = try_except
      (make_decision_on self mint ht dt lo up start limit top_holders)
      (fun e => print (MsgExceptionMakeDecision e) ;; ret None) env st1.
Proof.
  intros Hsnap. unfold make_decision, try_except.
  rewrite (bind_run _ _ _ _ _ _ (make_decision_opening_run start env st)).
  rewrite (bind_run _ _ _ _ _ _ Hsnap). reflexivity.
Qed.

(** C6 (amended). When a page query of the pagination raises,
    [get_holder_count] raises the same exception to its caller and returns no
    count, and so does [check_holder_count]; [make_decision], when this
    happens in the first holder query of a cycle, catches the exception,
    prints it and returns [None]. *)
Theorem get_holder_count_raises mint env st pages e :
  Forall (fun p => p <> []) pages ->
  (forall i p, pages !! i = Some p ->
               http_response env (n_http st + i) = HttpResult p) ->
  http_response env (n_http st + length pages) = HttpRaises e ->
  length pages < fuel env ->
  exists st',
    get_holder_count mint env st = (Raise e, st')
    /\ (forall self threshold,
           check_holder_count self mint threshold env st = (Raise e, st'))
    /\ (forall self ht dt lo up start limit st0 top_holders,
           top_holders <> [] ->
           get_top_holders self mint 20 env
             (exec (make_decision_opening start) env st0)
           = (Ret top_holders, st) ->
           make_decision self mint ht dt lo up start limit env st0
           = (Ret None, extend st' [Print (MsgExceptionMakeDecision e)])).
Proof.
  intros Hne Hresp Hlast Hfuel.
  assert (exists st', get_holder_count mint env st = (Raise e, st'))
    as (st' & Hrun).
  { eexists. unfold get_holder_count, bind, ask.
    replace (fuel env) with (length pages + S (fuel env - length pages - 1))
      by lia.
    rewrite get_holder_count_loop_pages by assumption.
    now rewrite (get_holder_count_loop_raises _ _ _ _ _ _ e) by exact Hlast. }
  exists st'. split; [exact Hrun|]. split.
  - intros self threshold. unfold check_holder_count.
    now rewrite (bind_raise _ _ _ _ _ _ Hrun).
  - intros self ht dt lo up start limit st0 top_holders Hnonempty Hsnap.
    rewrite (make_decision_snapshot _ _ _ _ _ _ _ _ _ _ _ _ Hsnap).
    destruct top_holders as [|h hs]; [contradiction|].
    rewrite (try_except_raise _ _ _ _ e st'); [reflexivity|].
    unfold make_decision_on, display_top_holders.
    apply bind_raise. now apply bind_raise.
Qed.

Lemma get_holder_count_raises_witness :
  exists st',
    get_holder_count sample_mint
      (env_two_pages (HttpRaises (Exception "ConnectionError"))) initial_state
    = (Raise (Exception "ConnectionError"), st').
Proof.
  destruct (get_holder_count_raises sample_mint
              (env_two_pages (HttpRaises (Exception "ConnectionError")))
              initial_state two_pages (Exception "ConnectionError"))
    as (st' & Hrun & _).
  - repeat constructor; discriminate.
  - intros i p Hp. simpl. now rewrite Hp.
  - reflexivity.
  - simpl. lia.
  - exists st'. exact Hrun.
Defined.

(** C6, as stated, fails when the first page query raises: the caller of
    [get_holder_count], and the caller of [check_holder_count], receive the
    exception and not 0. *)
Lemma get_holder_count_propagates :
  http_response env_http_raises 0 = HttpRaises (Exception "ConnectionError")
  /\ fst (get_holder_count sample_mint env_http_raises initial_state)
     = Raise (Exception "ConnectionError")
  /\ fst (get_holder_count sample_mint env_http_raises initial_state)
     <> Ret 0
  /\ fst (check_holder_count sample_analyzer sample_mint 35 env_http_raises
            initial_state)
     = Raise (Exception "ConnectionError")
  /\ fst (make_decision sample_analyzer sample_mint 35 1 60 80 0 100
            env_http_raises initial_state)
     = Ret None.
Proof.
  split; [reflexivity|]. split; [reflexivity|]. split; [discriminate|].
  split; [reflexivity|]. vm_compute. reflexivity.
Qed.

(** ** Owner resolution and ranks *)

Lemma owner_field_bytes record :
  64 <= length record -> owner_field record = bytes_32_to_63 record.
Proof.
  intros Hlen. unfold owner_field, bytes_32_to_63.
  apply (nth_ext _ _ Byte.x00 Byte.x00).
  - rewrite length_map, length_seq, length_take, length_drop. lia.
  - intros i Hi. rewrite length_take, length_drop in Hi.
    rewrite nth_firstn.
    destruct (Nat.ltb_spec i 32) as [Hlt|Hge]; [|lia].
    rewrite nth_skipn.
    rewrite (nth_indep (map (fun i => nth i record Byte.x00) (seq 32 32))
               Byte.x00 (nth 0 record Byte.x00))
      by (rewrite length_map, length_seq; lia).
    rewrite (map_nth (fun i => nth i record Byte.x00) (seq 32 32) 0 i).
    now rewrite seq_nth by lia.
Qed.

(** [get_owner_wallet] makes one lookup and returns the owner that
    [resolved_owner] reads from the answer. *)
Lemma get_owner_wallet_run token_account env st :
  exists evs,
    get_owner_wallet token_account env st
    = (Ret (resolved_owner env (account_response env (n_account st))),
       after_lookups st 1 evs).
Proof.
  unfold get_owner_wallet, try_except, bind at 1, get_account_info,
    after_lookups.
  rewrite Nat.add_1_r.
  destruct (account_response env (n_account st)) as [e| |program data];
    simpl.
  - eexists. unfold bind, ask, print, emit, ret. simpl.
    rewrite <- app_assoc. reflexivity.
  - eexists. unfold bind, ask, print, emit, ret. simpl.
    rewrite <- app_assoc. reflexivity.
  - unfold bind at 1, ask.
    destruct (String.eqb_spec (pubkey_str env program) SPL_TOKEN_PROGRAM_ID)
      as [Hspl|Hspl]; simpl.
    + destruct data as [record|].
      * destruct (Nat.ltb_spec (length record) 64) as [Hshort|Hlong].
        -- eexists. unfold bind, print, emit, ret. simpl.
           rewrite <- app_assoc.
           destruct (decide _) as [[_ Hlen]|_]; [lia|reflexivity].
        -- exists [GetAccountInfo token_account]. unfold ret.
           destruct (decide _) as [_|Hno].
           ++ now rewrite owner_field_bytes.
           ++ destruct Hno. now split.
      * eexists. unfold bind, print, emit, ret. simpl.
        rewrite <- app_assoc. reflexivity.
    + eexists. unfold bind, print, emit, ret. simpl. rewrite <- app_assoc.
      destruct data as [record|]; [|reflexivity].
      destruct (decide _) as [[Heq _]|_]; [contradiction|reflexivity].
Qed.

Lemma after_lookups_twice st k evs k' evs' :
  after_lookups (after_lookups st k evs) k' evs'
  = after_lookups st (k + k') (evs ++ evs').
Proof.
  unfold after_lookups. simpl. rewrite <- app_assoc. f_equal. lia.
Qed.

(** The owners gathered for a list of accounts are the resolved owners of
    the successive answers. *)
Lemma gather_owner_wallets env accounts :
  forall st,
  exists owner_wallets evs,
    gather (map (fun account => get_owner_wallet (la_address account))
                accounts) env st
    = (Ret owner_wallets, after_lookups st (length accounts) evs)
    /\ length owner_wallets = length accounts
    /\ forall i, i < length accounts ->
         owner_wallets !! i
         = Some (resolved_owner env (account_response env (n_account st + i))).
Proof.
  induction accounts as [|a accounts IH]; intros st.
  - exists [], []. simpl. unfold ret, after_lookups. simpl.
    rewrite Nat.add_0_r, app_nil_r. destruct st. simpl.
    split; [reflexivity|]. split; [reflexivity|]. intros i Hi. lia.
  - destruct (get_owner_wallet_run (la_address a) env st) as (evs1 & Hrun1).
    destruct (IH (after_lookups st 1 evs1)) as (ws & evs2 & Hrun2 & Hlen & Hws).
    exists (resolved_owner env (account_response env (n_account st)) :: ws),
      (evs1 ++ evs2).
    split; [|split].
    + simpl. rewrite (bind_run _ _ _ _ _ _ Hrun1).
      rewrite (bind_run _ _ _ _ _ _ Hrun2). unfold ret.
      now rewrite after_lookups_twice.
    + simpl. now rewrite Hlen.
    + intros [|i] Hi; simpl.
      * now rewrite Nat.add_0_r.
      * simpl in Hi. rewrite Hws by lia. simpl. do 3 f_equal. lia.
Qed.

Lemma compile_holders_run self env pairs :
  forall idx top_holders st,
  exists evs,
    compile_holders self idx pairs top_holders env st
    = (Ret (top_holders ++ kept self env idx pairs), extend st evs).
Proof.
  induction pairs as [|[account [w|]] pairs IH]; intros idx top_holders st.
  - exists []. simpl. unfold ret. now rewrite app_nil_r, extend_nil.
  - destruct (IH (S idx)
                (top_holders ++ [holder_info self env idx w account]) st)
      as (evs & Hrun).
    exists evs. simpl. unfold bind at 1, ask. rewrite Hrun.
    now rewrite <- app_assoc.
  - destruct (IH (S idx) top_holders
                (extend st
                   [Print (MsgSkippingAccount
                             (pubkey_str env (la_address account)))]))
      as (evs & Hrun).
    eexists. simpl. unfold bind at 1, ask. unfold bind at 1.
    rewrite print_run, Hrun, extend_extend. reflexivity.
Qed.

Lemma kept_elem self env pairs :
  forall idx h,
    h ∈ kept self env idx pairs <->
    exists i account w,
      pairs !! i = Some (account, Some w)
      /\ h = holder_info self env (idx + i) w account.
Proof.
  induction pairs as [|[account [w|]] pairs IH]; intros idx h; simpl.
  - split.
    + intros Hin. now apply elem_of_nil in Hin.
    + intros (i & a & w & Hi & _). discriminate.
  - rewrite elem_of_cons, IH. split.
    + intros [->|(i & a & w' & Hi & ->)].
      * exists 0, account, w. now rewrite Nat.add_0_r.
      * exists (S i), a, w'. split; [exact Hi|]. f_equal. lia.
    + intros ([|i] & a & w' & Hi & ->).
      * left. simpl in Hi. inversion Hi; subst. now rewrite Nat.add_0_r.
      * right. exists i, a, w'. split; [exact Hi|]. f_equal. lia.
  - rewrite IH. split.
    + intros (i & a & w' & Hi & ->). exists (S i), a, w'.
      split; [exact Hi|]. f_equal. lia.
    + intros ([|i] & a & w' & Hi & ->).
      * discriminate.
      * exists i, a, w'. split; [exact Hi|]. f_equal. lia.
Qed.

Lemma kept_ranks self env pairs :
  forall idx,
    Forall (fun r => idx <= r) (map rank (kept self env idx pairs))
    /\ StronglySorted lt (map rank (kept self env idx pairs)).
Proof.
  induction pairs as [|[account [w|]] pairs IH]; intros idx; simpl.
  - split; constructor.
  - destruct (IH (S idx)) as [Hge Hsorted]. split.
    + constructor; [lia|]. eapply Forall_impl; [exact Hge|].
      intros r Hr. simpl in Hr. lia.
    + constructor; [exact Hsorted|]. eapply Forall_impl; [exact Hge|].
      intros r Hr. simpl in Hr. lia.
  - destruct (IH (S idx)) as [Hge Hsorted]. split; [|exact Hsorted].
    eapply Forall_impl; [exact Hge|]. intros r Hr. simpl in Hr. lia.
Qed.

(** C7. [get_owner_wallet] returns bytes 32 to 63 of the account record, as
    a key, exactly when the record is raw bytes, at least 64 of them, and
    its owning program is the SPL token program; in every other case it
    returns no owner. [get_top_holders] returns one record for each of the
    first [top_n] largest accounts whose owner is resolved, with the rank of
    the account among them counted from 1, in increasing order of rank; the
    accounts without owner leave gaps. *)
Theorem get_top_holders_owner_resolution self mint top_n env st
    largest_accounts :
  largest_response env (n_largest st) = LargestValue largest_accounts ->
  let accounts := take top_n largest_accounts in
  let owner i :=
    resolved_owner env (account_response env (n_account st + i)) in
  (forall token_account st0,
      fst (get_owner_wallet token_account env st0)
      = Ret (resolved_owner env (account_response env (n_account st0))))
  /\ exists top_holders st',
       get_top_holders self mint top_n env st = (Ret top_holders, st')
       /\ (forall h,
              h ∈ top_holders <->
              exists i account w,
                accounts !! i = Some account /\ owner i = Some w
                /\ h = holder_info self env (S i) w account)
       /\ StronglySorted lt (map rank top_holders).
Proof.
  intros Hlargest accounts owner. split.
  - intros token_account st0.
    destruct (get_owner_wallet_run token_account env st0) as (evs & ->).
    reflexivity.
  - set (st1 := extend
                  (mkState (n_http st) (S (n_largest st)) (n_account st)
                     (n_clock st)
                     (trace st ++ [GetTokenLargestAccounts mint]))
                  [Print (MsgFetchingTop top_n (pubkey_str env mint))]).
    destruct (gather_owner_wallets env accounts st1)
      as (ws & evs1 & Hgather & Hlen & Hws).
    destruct (compile_holders_run self env (zip accounts ws) 1 []
                (after_lookups st1 (length accounts) evs1))
      as (evs2 & Hcompile).
    exists (kept self env 1 (zip accounts ws)). eexists. split; [|split].
    + unfold get_top_holders, try_except, bind at 1,
        get_token_largest_accounts.
      rewrite Hlargest. cbv iota.
      change (total_supply =? 0)%Z with false. cbv iota.
      unfold bind at 1, ask. unfold bind at 1. rewrite print_run.
      change CONVERT_TO_OWNER_WALLET_ADDRESSES with true. cbv iota.
      fold accounts. fold st1.
      rewrite (bind_run _ _ _ _ _ _ Hgather), Hcompile. reflexivity.
    + intros h. rewrite kept_elem. split.
      * intros (i & a & w & Hi & ->).
        apply lookup_zip_with_Some in Hi.
        destruct Hi as (x & y & Hxy & Hx & Hy). inversion Hxy; subst x y.
        exists i, a, w. split; [exact Hx|]. split; [|reflexivity].
        apply lookup_lt_Some in Hx. rewrite (Hws i Hx) in Hy.
        unfold owner. now inversion Hy.
      * intros (i & a & w & Hi & Ho & ->). exists i, a, w.
        split; [|reflexivity]. apply lookup_zip_with_Some.
        exists a, (Some w). split; [reflexivity|]. split; [exact Hi|].
        apply lookup_lt_Some in Hi. rewrite (Hws i Hi). f_equal. exact Ho.
    + apply kept_ranks.
Qed.

(** Of three accounts the second has no owner: the ranks 1 and 3 remain. *)
Lemma get_top_holders_owner_resolution_witness :
  exists top_holders st',
    get_top_holders sample_analyzer sample_mint 20 env_three_accounts
      initial_state = (Ret top_holders, st')
    /\ map rank top_holders = [1; 3]
    /\ map address top_holders = ["curve"; "creator"].
Proof.
  destruct (get_top_holders_owner_resolution sample_analyzer sample_mint 20
              env_three_accounts initial_state _ eq_refl)
    as (_ & hs & st' & Hrun & _ & _).
  exists hs, st'. split; [exact Hrun|].
  vm_compute in Hrun. inversion Hrun. split; reflexivity.
Defined.

(** ** Footprints *)

Lemma cadence_app evs evs' : cadence (evs ++ evs') = cadence evs ++ cadence evs'.
Proof. apply omap_app. Qed.

Section Footprints.
Variable f : Footprint.
Variable env : Env.

Lemma within_here {A} (o : Outcome A) st :
  (fp_fuel f = false -> o <> OutOfFuel) -> within f st (o, st).
Proof.
  intros Ho. repeat split; try reflexivity; try exact Ho.
  exists []. now rewrite app_nil_r.
Qed.

Lemma within_trans {A B} st (o1 : Outcome A) st1 (r : Outcome B * State) :
  within f st (o1, st1) -> within f st1 r -> within f st r.
Proof.
  intros (Hh1 & Hc1 & _ & evs1 & Ht1 & Hq1) (Hh2 & Hc2 & Ho2 & evs2 & Ht2 & Hq2).
  simpl in *. repeat split.
  - intros Hf. now rewrite Hh2, Hh1.
  - intros Hf. now rewrite Hc2, Hc1.
  - exact Ho2.
  - exists (evs1 ++ evs2). rewrite Ht2, Ht1, <- app_assoc.
    split; [reflexivity|]. now rewrite cadence_app, Hq1, Hq2.
Qed.

Lemma stays_ret {A} (a : A) : stays f env (ret a).
Proof. intros st. now apply within_here. Qed.

Lemma stays_raise {A} e : stays f env (@raise A e).
Proof. intros st. now apply within_here. Qed.

Lemma stays_ask : stays f env ask.
Proof. intros st. now apply within_here. Qed.

Lemma stays_out_of_fuel {A} : fp_fuel f = true -> stays f env (@out_of_fuel A).
Proof. intros Hf st. apply within_here. congruence. Qed.

Lemma stays_emit e : beat e = None -> stays f env (emit e).
Proof.
  intros He st. repeat split; try reflexivity; try discriminate.
  exists [e]. split; [reflexivity|]. unfold cadence. simpl. now rewrite He.
Qed.

Lemma stays_print m :
  match m with MsgAtSecond _ => False | _ => True end ->
  stays f env (print m).
Proof. intros Hm. apply stays_emit. now destruct m. Qed.

Lemma stays_bind {A B} (m : M A) (k : A -> M B) :
  stays f env m -> (forall a, stays f env (k a)) -> stays f env (bind m k).
Proof.
  intros Hm Hk st. unfold bind. specialize (Hm st).
  destruct (m env st) as [[a|e|] st1].
  - exact (within_trans _ _ _ _ Hm (Hk a st1)).
  - destruct Hm as (Hh & Hc & _ & Hev). repeat split; try assumption.
    discriminate.
  - destruct Hm as (Hh & Hc & Ho & Hev). repeat split; try assumption.
    intros Hf _. now apply (Ho Hf).
Qed.

Lemma stays_try_except {A} (m : M A) handler :
  stays f env m -> (forall e, stays f env (handler e)) ->
  stays f env (try_except m handler).
Proof.
  intros Hm Hh st. unfold try_except. specialize (Hm st).
  destruct (m env st) as [[a|e|] st1].
  - exact Hm.
  - exact (within_trans _ _ _ _ Hm (Hh e st1)).
  - exact Hm.
Qed.

Lemma stays_time_time : fp_clock f = true -> stays f env time_time.
Proof.
  intros Hf st. repeat split; try reflexivity; try discriminate.
  - simpl. congruence.
  - exists []. simpl. now rewrite app_nil_r.
Qed.

Lemma stays_requests_post mint page :
  fp_http f = true -> stays f env (requests_post mint page).
Proof.
  intros Hf st. unfold requests_post.
  assert (Hev : exists evs,
             trace st ++ [HttpPost (pubkey_str env mint) page 1000]
             = trace st ++ evs /\ cadence evs = [])
    by (eexists; split; reflexivity).
  destruct (http_response env (n_http st)); repeat split; simpl;
    try congruence; exact Hev.
Qed.

Lemma stays_get_account_info token_account :
  stays f env (get_account_info token_account).
Proof.
  intros st. unfold get_account_info.
  assert (Hev : exists evs,
             trace st ++ [GetAccountInfo token_account]
             = trace st ++ evs /\ cadence evs = [])
    by (eexists; split; reflexivity).
  destruct (account_response env (n_account st)); repeat split; simpl;
    try congruence; exact Hev.
Qed.

Lemma stays_get_token_largest_accounts mint :
  stays f env (get_token_largest_accounts mint).
Proof.
  intros st. unfold get_token_largest_accounts.
  assert (Hev : exists evs,
             trace st ++ [GetTokenLargestAccounts mint]
             = trace st ++ evs /\ cadence evs = [])
    by (eexists; split; reflexivity).
  destruct (largest_response env (n_largest st)); repeat split; simpl;
    try congruence; exact Hev.
Qed.
End Footprints.

Create HintDb stays.

#[local] Hint Resolve stays_ret stays_raise stays_ask stays_get_account_info
  stays_get_token_largest_accounts : stays.

(** One step through the structure of a computation. *)
Ltac stays_step :=
  match goal with
  | |- stays _ _ (bind _ _) => apply stays_bind; [|intros ?]
  | |- stays _ _ (try_except _ _) => apply stays_try_except; [|intros ?]
  | |- stays _ _ (print _) => apply stays_print; exact I
  | |- stays _ _ time_time => apply stays_time_time; reflexivity
  | |- stays _ _ (requests_post _ _) => apply stays_requests_post; reflexivity
  | |- stays _ _ (match ?x with _ => _ end) => destruct x
  | |- stays _ _ _ => solve [eauto with stays]
  end.

Ltac stays_auto := repeat stays_step.

Section RpcFootprint.
Variable f : Footprint.
Variable env : Env.

Lemma stays_get_owner_wallet token_account :
  stays f env (get_owner_wallet token_account).
Proof. unfold get_owner_wallet. stays_auto. Qed.

Lemma stays_gather {A} (tasks : list (M A)) :
  Forall (stays f env) tasks -> stays f env (gather tasks).
Proof.
  induction 1 as [|t tasks Ht _ IH]; simpl; stays_auto; assumption.
Qed.

Lemma stays_compile_holders self pairs :
  forall idx top_holders,
    stays f env (compile_holders self idx pairs top_holders).
Proof.
  induction pairs as [|[account [w|]] pairs IH]; intros idx top_holders;
    simpl; stays_auto; apply IH.
Qed.

Lemma stays_compile_accounts self accounts :
  forall idx top_holders,
    stays f env (compile_accounts self idx accounts top_holders).
Proof.
  induction accounts as [|account accounts IH]; intros idx top_holders;
    simpl; stays_auto; apply IH.
Qed.

Lemma stays_get_top_holders self mint top_n :
  stays f env (get_top_holders self mint top_n).
Proof.
  unfold get_top_holders. stays_auto.
  - apply stays_gather. apply Forall_forall. intros t Ht.
    apply list_elem_of_In, in_map_iff in Ht. destruct Ht as (account & <- & _).
    apply stays_get_owner_wallet.
  - apply stays_compile_holders.
  - apply stays_compile_accounts.
Qed.

Lemma stays_print_rows top_holders : stays f env (print_rows top_holders).
Proof. induction top_holders; simpl; stays_auto; assumption. Qed.

Lemma stays_check_dev_wallet_sold self mint threshold top_holders :
  stays f env (check_dev_wallet_sold self mint threshold top_holders).
Proof.
  assert (Hloop : forall dev hs,
             stays f env (check_dev_wallet_sold_loop dev threshold hs)).
  { intros dev hs. induction hs; simpl; stays_auto; assumption. }
  unfold check_dev_wallet_sold. stays_auto.
Qed.

Lemma stays_check_lp_liquidity self mint lower upper top_holders :
  stays f env (check_lp_liquidity self mint lower upper top_holders).
Proof.
  assert (Hloop : forall curve hs,
             stays f env (check_lp_liquidity_loop curve lower upper hs)).
  { intros curve hs. induction hs; simpl; stays_auto; assumption. }
  unfold check_lp_liquidity. stays_auto.
Qed.
End RpcFootprint.

#[local] Hint Resolve stays_get_owner_wallet stays_get_top_holders
  stays_print_rows stays_check_dev_wallet_sold stays_check_lp_liquidity
  : stays.

Section GateFootprint.
Variable oof : bool.
Variable env : Env.
Hypothesis enough_fuel : oof = false -> paginations_end env.

Lemma within_get_holder_count_loop mint n :
  forall page all_owners st,
    (oof = false ->
     exists j, j < n /\ last_page (http_response env (n_http st + j)) = true) ->
    within (fp_gates oof) st
      (get_holder_count_loop n mint page all_owners env st).
Proof.
  induction n as [|n IH]; intros page all_owners st Hend.
  - apply within_here. intros Hf. destruct (Hend Hf) as (j & Hj & _). lia.
  - simpl. unfold bind at 1.
    pose proof (stays_requests_post (fp_gates oof) env mint page eq_refl st)
      as Hpost.
    unfold requests_post in *.
    destruct (http_response env (n_http st)) as [e| |token_accounts] eqn:Hr.
    + destruct Hpost as (Hh & Hc & _ & Hev). repeat split; try assumption.
      discriminate.
    + eapply within_trans; [exact Hpost|].
      assert (Hs : stays (fp_gates oof) env
                     (print (MsgNoMoreResults (page - 1)) ;;
                      ret (size all_owners))) by stays_auto.
      apply Hs.
    + destruct token_accounts as [|a l].
      * eapply within_trans; [exact Hpost|].
        assert (Hs : stays (fp_gates oof) env
                       (print (MsgNoMoreResults (page - 1)) ;;
                        ret (size all_owners))) by stays_auto.
        apply Hs.
      * eapply within_trans; [exact Hpost|].
        change (length (a :: l) =? 0) with false. cbv iota.
        unfold bind at 1. rewrite print_run.
        eapply within_trans;
          [exact (stays_print (fp_gates oof) env (MsgProcessingPage page) I _)|].
        apply IH. intros Hf.
        destruct (Hend Hf) as ([|j] & Hj & Hlast).
        -- rewrite Nat.add_0_r, Hr in Hlast. discriminate.
        -- exists j. split; [lia|]. simpl.
           now rewrite <- Nat.add_succ_r.
Qed.

Lemma stays_get_holder_count mint :
  stays (fp_gates oof) env (get_holder_count mint).
Proof.
  intros st. unfold get_holder_count, bind, ask.
  apply within_get_holder_count_loop. intros Hf.
  apply (enough_fuel Hf).
Qed.

Hint Resolve stays_get_holder_count : stays.

Lemma stays_display_top_holders self mint top_n top_holders :
  stays (fp_gates oof) env (display_top_holders self mint top_n top_holders).
Proof. unfold display_top_holders. stays_auto. Qed.

Lemma stays_check_holder_count self mint threshold :
  stays (fp_gates oof) env (check_holder_count self mint threshold).
Proof. unfold check_holder_count. stays_auto. Qed.

Lemma stays_check_time_limit start limit :
  stays (fp_gates oof) env (check_time_limit start limit).
Proof. unfold check_time_limit. stays_auto. Qed.

Hint Resolve stays_display_top_holders stays_check_holder_count
  stays_check_time_limit : stays.

Lemma stays_make_decision_on self mint ht dt lo up start limit top_holders :
  stays (fp_gates oof) env
    (make_decision_on self mint ht dt lo up start limit top_holders).
Proof. unfold make_decision_on. stays_auto. Qed.
End GateFootprint.

(** ** The decision engine *)

Lemma bonding_curve_exhausted_iff curve hs :
  bonding_curve_exhausted curve hs = true <->
  exists h, h ∈ hs /\ address h = curve /\ (99 <= percentage h)%Q.
Proof.
  induction hs as [|h hs IH]; simpl.
  - split; [discriminate|]. intros (h & Hin & _).
    now apply elem_of_nil in Hin.
  - destruct (String.eqb_spec (address h) curve) as [Ha|Ha].
    + destruct (Qle_bool (inject_Z 99) (percentage h)) eqn:Hp.
      * split; [|reflexivity]. intros _. exists h.
        split; [apply elem_of_cons; now left|].
        split; [exact Ha|now apply Qle_bool_iff].
      * rewrite IH. split.
        -- intros (h' & Hin & Hc & Hq). exists h'.
           split; [apply elem_of_cons; now right|now split].
        -- intros (h' & Hin & Hc & Hq). apply elem_of_cons in Hin.
           destruct Hin as [->|Hin]; [|now exists h'].
           apply Qle_bool_iff in Hq.
           change (inject_Z 99) with 99%Q in Hp. congruence.
    + rewrite IH. split.
      * intros (h' & Hin & Hc & Hq). exists h'.
        split; [apply elem_of_cons; now right|now split].
      * intros (h' & Hin & Hc & Hq). apply elem_of_cons in Hin.
        destruct Hin as [->|Hin]; [contradiction|now exists h'].
Qed.

(** The forced exits at the end of [make_decision]. *)
Lemma forced_exits self top_holders (time_met : bool) env st :
  (print MsgConditionsNotMet ;;
   env <- ask ;;
   if bonding_curve_exhausted (str_optional env (bonding_curve_pubkey self))
        top_holders
   then print MsgBondingCurveExhausted ;; ret (Some false)
   else if negb time_met then print MsgTimeLimitExiting ;; ret (Some false)
   else ret (Some true)) env st
  = if bonding_curve_exhausted (str_optional env (bonding_curve_pubkey self))
         top_holders
    then (Ret (Some false),
          extend st [Print MsgConditionsNotMet;
                     Print MsgBondingCurveExhausted])
    else if negb time_met
    then (Ret (Some false),
          extend st [Print MsgConditionsNotMet; Print MsgTimeLimitExiting])
    else (Ret (Some true), extend st [Print MsgConditionsNotMet]).
Proof.
  unfold bind, ask, print, emit, ret, extend. simpl.
  destruct (bonding_curve_exhausted _ top_holders); [|destruct time_met];
    simpl; now rewrite <- ?app_assoc.
Qed.

(** C1 (amended). When the snapshot fetched by [get_top_holders] is empty,
    [make_decision] prints one line and returns [True], the value on which
    the loop of the analyser goes on to its next iteration; it makes no
    holder query and reads the clock no more than for its opening line, so
    none of the gates is evaluated. *)
Theorem make_decision_empty_snapshot self mint ht dt lo up start limit env st
    st1 :
  get_top_holders self mint 20 env (exec (make_decision_opening start) env st)
  = (Ret [], st1) ->
  make_decision self mint ht dt lo up start limit env st
  = (Ret (Some true), extend st1 [Print MsgNoTopHoldersSkipping])
  /\ not_ (Some true) = false
  /\ n_http st1 = n_http st
  /\ n_clock st1 = S (n_clock st).
Proof.
  intros Hsnap. split; [|split; [reflexivity|]].
  - now rewrite (make_decision_snapshot _ _ _ _ _ _ _ _ _ _ _ _ Hsnap).
  - pose proof (stays_get_top_holders fp_rpc env self mint 20
                  (exec (make_decision_opening start) env st))
      as (Hh & Hc & _).
    rewrite Hsnap in Hh, Hc. simpl in Hh, Hc.
    split; [now apply Hh|now apply Hc].
Qed.

Lemma make_decision_empty_snapshot_witness :
  fst (make_decision sample_analyzer sample_mint 35 1 60 80 0 100
         env_no_holders initial_state) = Ret (Some true).
Proof.
  destruct (make_decision_empty_snapshot sample_analyzer sample_mint 35 1 60
              80 0 100 env_no_holders initial_state _ eq_refl) as [-> _].
  reflexivity.
Defined.

(** C1, as stated, fails where the node gives no largest accounts: the
    snapshot is empty, [make_decision] returns [True], which does not stop
    the loop, and the analyser goes through all its 60 decision cycles. *)
Lemma make_decision_empty_snapshot_continues :
  fst (get_top_holders sample_analyzer sample_mint 20 env_no_holders
         (exec (make_decision_opening 0) env_no_holders initial_state))
  = Ret []
  /\ fst (make_decision sample_analyzer sample_mint 35 1 60 80 0 100
            env_no_holders initial_state) = Ret (Some true)
  /\ not_ (Some true) = false
  /\ cadence (trace (exec (analyser sample_token) env_no_holders
                       initial_state))
     = concat (repeat [Decision; Pause 5] 60).
Proof.
  split; [reflexivity|]. split; [reflexivity|]. split; [reflexivity|].
  vm_compute. reflexivity.
Qed.

(** C2. On a non-empty snapshot, with the values that the gates return in
    the order in which [make_decision] evaluates them: when the four primary
    gates hold the result is [False] after the line [All conditions met], and
    the state is the one left by the primary gates, so the relaxed rule made
    no query; otherwise the holder count is checked against 60 and, when it
    passes, the liquidity against 60 and 80, and when these hold within the
    time limit with the creator still holding, the result is [False] after
    the lines of the special conditions; otherwise, after the line
    [Conditions not met], a bonding curve record at 99% or more gives
    [False] with the line of the exhausted curve; otherwise an exceeded time
    limit gives [False] with the line of the time limit; otherwise the
    result is [True]. *)
Theorem make_decision_order self mint ht dt lo up start limit env st
    top_holders st1 st2 time_met st3 holder_count_met st4 dev_wallet_sold st5
    lp_liquidity_met st6 :
  top_holders <> [] ->
  get_top_holders self mint 20 env (exec (make_decision_opening start) env st)
  = (Ret top_holders, st1) ->
  display_top_holders self mint 20 top_holders env st1 = (Ret tt, st2) ->
  check_time_limit start limit env st2 = (Ret time_met, st3) ->
  check_holder_count self mint ht env st3 = (Ret holder_count_met, st4) ->
  check_dev_wallet_sold self mint dt top_holders env st4
  = (Ret dev_wallet_sold, st5) ->
  check_lp_liquidity self mint lo up top_holders env st5
  = (Ret lp_liquidity_met, st6) ->
  let decision := make_decision self mint ht dt lo up start limit env st in
  let exhausted :=
    exists h, h ∈ top_holders
              /\ address h = str_optional env (bonding_curve_pubkey self)
              /\ (99 <= percentage h)%Q in
  (holder_count_met && dev_wallet_sold && lp_liquidity_met && time_met = true
   -> decision = (Ret (Some false), extend st6 [Print MsgAllConditionsMet]))
  /\ (holder_count_met && dev_wallet_sold && lp_liquidity_met && time_met
      = false ->
      forall holders60 st7 lp6080 st8,
        check_holder_count self mint 60 env st6 = (Ret holders60, st7) ->
        (if holders60 then check_lp_liquidity self mint 60 80 top_holders
         else ret false) env st7 = (Ret lp6080, st8) ->
        (holders60 && lp6080 && time_met && negb dev_wallet_sold = true ->
         decision
         = (Ret (Some false),
            extend st8 [Print MsgSpecialConditionsMet;
                        Print MsgSpecialConditions]))
        /\ (holders60 && lp6080 && time_met && negb dev_wallet_sold = false ->
            (exhausted ->
             decision
             = (Ret (Some false),
                extend st8 [Print MsgConditionsNotMet;
                            Print MsgBondingCurveExhausted]))
            /\ (~ exhausted -> time_met = false ->
                decision
                = (Ret (Some false),
                   extend st8 [Print MsgConditionsNotMet;
                               Print MsgTimeLimitExiting]))
            /\ (~ exhausted -> time_met = true ->
                decision
                = (Ret (Some true), extend st8 [Print MsgConditionsNotMet])))).
Proof.
  intros Hne Hsnap Hdisplay Htime Hcount Hdev Hlp decision exhausted.
  subst decision.
  rewrite (make_decision_snapshot _ _ _ _ _ _ _ _ _ _ _ _ Hsnap).
  destruct top_holders as [|h0 hs]; [contradiction|].
  unfold make_decision_on, try_except.
  rewrite (bind_run _ _ _ _ _ _ Hdisplay), (bind_run _ _ _ _ _ _ Htime),
    (bind_run _ _ _ _ _ _ Hcount), (bind_run _ _ _ _ _ _ Hdev),
    (bind_run _ _ _ _ _ _ Hlp).
  split.
  - intros ->. reflexivity.
  - intros ->. intros holders60 st7 lp6080 st8 Hcount60 Hlp60.
    rewrite (bind_run _ _ _ _ _ _ Hcount60), (bind_run _ _ _ _ _ _ Hlp60).
    split.
    + intros ->. unfold bind, print, emit, ret, extend. simpl.
      now rewrite <- app_assoc.
    + intros ->. cbv iota. rewrite forced_exits.
      pose proof (bonding_curve_exhausted_iff
                    (str_optional env (bonding_curve_pubkey self))
                    (h0 :: hs)) as Hex.
      fold exhausted in Hex.
      destruct (bonding_curve_exhausted _ (h0 :: hs)).
      * split; [|split].
        -- reflexivity.
        -- intros Hno. destruct Hno. now apply Hex.
        -- intros Hno. destruct Hno. now apply Hex.
      * split; [|split].
        -- intros Hyes. apply Hex in Hyes. discriminate.
        -- intros _ ->. reflexivity.
        -- intros _ ->. reflexivity.
Qed.

(** Solves [m env st = (Ret ?a, ?st')] on closed data by evaluation. *)
Ltac evaluate :=
  match goal with
  | |- ?l = _ =>
      let v := eval vm_compute in l in
      transitivity v; [vm_compute; reflexivity | reflexivity]
  end.

(** The curve at 75%, the creator out of the snapshot's holdings, 61
    holders, 5 seconds after the start: the launch is cleared. With the
    creator at 5% the relaxed rule clears it. *)
Lemma make_decision_order_witness :
  fst (make_decision sample_analyzer sample_mint 35 1 70 80 0 100
         (env_market 750000000000000 0 sample_crowd (fun _ => 5%Q))
         initial_state) = Ret (Some false)
  /\ fst (make_decision sample_analyzer sample_mint 35 1 70 80 0 100
            (env_market 750000000000000 50000000000000 sample_crowd
               (fun _ => 5%Q))
            initial_state) = Ret (Some false).
Proof.
  split.
  - edestruct (make_decision_order sample_analyzer sample_mint 35 1 70 80 0
                 100 (env_market 750000000000000 0 sample_crowd
                        (fun _ => 5%Q)) initial_state)
      as [Hprimary _].
    2: evaluate. 2: evaluate. 2: evaluate. 2: evaluate. 2: evaluate.
    2: evaluate.
    + discriminate.
    + rewrite Hprimary; reflexivity.
  - edestruct (make_decision_order sample_analyzer sample_mint 35 1 70 80 0
                 100 (env_market 750000000000000 50000000000000 sample_crowd
                        (fun _ => 5%Q)) initial_state)
      as [_ Hrelaxed].
    2: evaluate. 2: evaluate. 2: evaluate. 2: evaluate. 2: evaluate.
    2: evaluate.
    + discriminate.
    + edestruct (Hrelaxed eq_refl) as [Hspecial _]; [evaluate|evaluate|].
      rewrite Hspecial; reflexivity.
Defined.

(** ** Admission of new analysers *)

Lemma running_analysers_le tasks : running_analysers tasks <= length tasks.
Proof. unfold running_analysers. apply List.filter_length_le. Qed.

(** C8 (amended). [monitorTokenCreation] admits on the number of all the
    tasks of the event loop. An event consumed while fewer than 200
    tasks are alive adds one analyser task for it to the loop, and the turn
    ends without running anything of that analyser. An event consumed while
    200 tasks or more are alive is dropped: the line [Too many tasks] is
    printed and the tasks are unchanged, so that no analyser is started for
    it. Since the analysers are among the tasks, every event consumed while
    200 analysers or more are running is dropped. *)
Theorem monitor_event_admission tasks token_data :
  (length tasks < 200 ->
   monitor_event tasks token_data
   = (tasks ++ [AnalyserTask token_data],
      [MsgNumberOfTasks (length tasks);
       MsgAnalyserStarted (td_mint token_data)]))
  /\ (200 <= length tasks ->
      monitor_event tasks token_data
      = (tasks, [MsgNumberOfTasks (length tasks); MsgTooManyTasks]))
  /\ (200 <= running_analysers tasks ->
      monitor_event tasks token_data
      = (tasks, [MsgNumberOfTasks (length tasks); MsgTooManyTasks])).
Proof.
  unfold monitor_event.
  pose proof (running_analysers_le tasks) as Hle.
  destruct (Nat.ltb_spec (length tasks) 200) as [Hlt|Hge].
  - split; [reflexivity|]. split; intros; lia.
  - split; [intros; lia|]. split; reflexivity.
Qed.

Lemma monitor_event_admission_witness :
  monitor_event [MainTask] sample_token
  = ([MainTask; AnalyserTask sample_token],
     [MsgNumberOfTasks 1; MsgAnalyserStarted "mint"])
  /\ monitor_event (repeat (AnalyserTask sample_token) 200) sample_token
     = (repeat (AnalyserTask sample_token) 200,
        [MsgNumberOfTasks 200; MsgTooManyTasks]).
Proof.
  split.
  - apply (proj1 (monitor_event_admission [MainTask] sample_token)).
    simpl. lia.
  - apply (proj2 (proj2 (monitor_event_admission
                           (repeat (AnalyserTask sample_token) 200)
                           sample_token))).
    apply Nat.leb_le. vm_compute. reflexivity.
Defined.

(** C8, as stated, fails for the 200th event of a burst: with the main task
    and the 199 analysers started before it the count of tasks is 200, and
    the event is dropped although fewer than 200 analysers are running. *)
Lemma monitor_event_drops_below_ceiling :
  let tasks := monitorTokenCreation (repeat sample_token 199) [MainTask] in
  running_analysers tasks = 199
  /\ running_analysers tasks < 200
  /\ monitor_event tasks sample_token
     = (tasks, [MsgNumberOfTasks 200; MsgTooManyTasks]).
Proof.
  vm_compute. split; [reflexivity|]. split; [|reflexivity].
  apply Nat.ltb_lt. vm_compute. reflexivity.
Qed.

(** ** The evaluation loop *)

(** [make_decision] never lets an exception through, starts one decision
    cycle and does not pause; with enough fuel it returns. *)
Lemma make_decision_run oof env self mint ht dt lo up start limit st :
  (oof = false -> paginations_end env) ->
  exists evs,
    trace (exec (make_decision self mint ht dt lo up start limit) env st)
    = trace st ++ evs
    /\ cadence evs = [Decision]
    /\ (forall e,
           fst (make_decision self mint ht dt lo up start limit env st)
           <> Raise e)
    /\ (oof = false ->
        fst (make_decision self mint ht dt lo up start limit env st)
        <> OutOfFuel).
Proof.
  intros Hfuel.
  set (rest := top_holders <- get_top_holders self mint 20 ;;
               make_decision_on self mint ht dt lo up start limit top_holders).
  set (handler := fun e => print (MsgExceptionMakeDecision e) ;;
                          ret (@None bool)).
  assert (Hrun : make_decision self mint ht dt lo up start limit env st
                 = try_except rest handler env
                     (exec (make_decision_opening start) env st))
    by reflexivity.
  assert (Hstays : stays (fp_gates oof) env (try_except rest handler)).
  { apply stays_try_except.
    - apply stays_bind; [apply stays_get_top_holders|].
      intros top_holders. now apply stays_make_decision_on.
    - intros e. unfold handler. stays_auto. }
  destruct (Hstays (exec (make_decision_opening start) env st))
    as (_ & _ & Hoof & evs & Htrace & Hquiet).
  unfold exec. rewrite Hrun.
  exists (Print (MsgAtSecond
                   (int_of_float (clock_reading env (n_clock st)) - start))
          :: evs).
  split; [|split; [|split]].
  - rewrite Htrace. simpl. now rewrite <- app_assoc.
  - change (Decision :: cadence evs = [Decision]). now rewrite Hquiet.
  - intros e. unfold try_except, handler.
    destruct (rest env _) as [[a|e'|] st']; discriminate.
  - exact Hoof.
Qed.

(** One turn of the loop of the analyser, once [make_decision] has
    returned. *)
Lemma analyser_loop_step self td start i rest env st mint proceed st2 :
  pubkey_from_string env (td_mint td) = Some mint ->
  make_decision self mint 35 1 60 80 start 100 env (exec time_time env st)
  = (Ret proceed, st2) ->
  analyser_loop self td start (i :: rest) env st
  = if not_ proceed then
      (Ret tt,
       extend (exec time_time env st2)
         [Print (MsgIterationCompleted (i + 1) (td_mint td)
                   (clock_reading env (n_clock st))
                   (clock_reading env (n_clock st2)))])
    else
      analyser_loop self td start rest env
        (extend (exec time_time env st2)
           [Print (MsgIterationCompleted (i + 1) (td_mint td)
                     (clock_reading env (n_clock st))
                     (clock_reading env (n_clock st2)));
            Sleep 5]).
Proof.
  intros Hmint Hdecision. simpl. unfold bind at 1, time_time at 1.
  unfold bind at 1, Pubkey_from_string, bind at 1, ask. rewrite Hmint.
  unfold ret at 1. unfold exec, time_time in Hdecision. simpl in Hdecision.
  unfold bind at 1. rewrite Hdecision.
  unfold bind at 1, time_time at 1. unfold bind at 1. rewrite print_run.
  destruct (not_ proceed); [reflexivity|].
  unfold bind at 1, asyncio_sleep, emit. simpl. f_equal.
  unfold extend, exec, time_time. simpl. now rewrite <- app_assoc.
Qed.

Lemma analyser_loop_no_key self td start i rest env st :
  pubkey_from_string env (td_mint td) = None ->
  analyser_loop self td start (i :: rest) env st
  = (Raise (Exception "ValueError"), exec time_time env st).
Proof.
  intros Hmint. simpl. unfold bind at 1, time_time at 1.
  unfold bind at 1, Pubkey_from_string, bind at 1, ask. now rewrite Hmint.
Qed.

Lemma analyser_loop_out_of_fuel self td start i rest env st mint st2 :
  pubkey_from_string env (td_mint td) = Some mint ->
  make_decision self mint 35 1 60 80 start 100 env (exec time_time env st)
  = (OutOfFuel, st2) ->
  analyser_loop self td start (i :: rest) env st = (OutOfFuel, st2).
Proof.
  intros Hmint Hdecision. simpl. unfold bind at 1, time_time at 1.
  unfold bind at 1, Pubkey_from_string, bind at 1, ask. rewrite Hmint.
  unfold ret at 1. unfold exec, time_time in Hdecision. simpl in Hdecision.
  unfold bind at 1. now rewrite Hdecision.
Qed.

Lemma prefix_cons_same {A} (x : A) l k : l `prefix_of` k -> (x :: l) `prefix_of` (x :: k).
Proof. intros [r ->]. now exists r. Qed.

(** The loop starts at most one decision cycle for each value of its range,
    with a pause of 5 seconds after each cycle that does not end it. *)
Lemma analyser_loop_run oof env self td start :
  (oof = false -> paginations_end env) ->
  forall range st,
  exists evs,
    trace (exec (analyser_loop self td start range) env st) = trace st ++ evs
    /\ cadence evs
       `prefix_of` concat (repeat [Decision; Pause 5] (length range))
    /\ (oof = false ->
        fst (analyser_loop self td start range env st) <> OutOfFuel).
Proof.
  intros Hfuel. induction range as [|i range IH]; intros st.
  - exists []. simpl. rewrite app_nil_r. split; [reflexivity|].
    split; [apply prefix_nil|discriminate].
  - destruct (pubkey_from_string env (td_mint td)) as [mint|] eqn:Hmint.
    + destruct (make_decision_run oof env self mint 35 1 60 80 start 100
                  (exec time_time env st) Hfuel)
        as (evs1 & Htrace1 & Hcadence1 & Hraise & Hoof).
      unfold exec at 1 in Htrace1.
      destruct (make_decision self mint 35 1 60 80 start 100 env
                  (exec time_time env st)) as [[proceed|e|] st2] eqn:Hdec.
      * unfold exec.
        rewrite (analyser_loop_step _ _ _ _ _ _ _ _ _ _ Hmint Hdec).
        simpl in Htrace1.
        destruct (not_ proceed).
        -- eexists. split; [|split; [|discriminate]].
           ++ simpl. rewrite Htrace1, <- app_assoc. reflexivity.
           ++ rewrite cadence_app, Hcadence1. simpl.
              apply prefix_cons_same, prefix_nil.
        -- destruct (IH (extend (exec time_time env st2)
                           [Print (MsgIterationCompleted (i + 1) (td_mint td)
                                     (clock_reading env (n_clock st))
                                     (clock_reading env (n_clock st2)));
                            Sleep 5]))
             as (evs2 & Htrace2 & Hcadence2 & Hoof2).
           unfold exec in *.
           eexists. split; [|split; [|exact Hoof2]].
           ++ rewrite Htrace2. simpl. rewrite Htrace1, <- !app_assoc.
              reflexivity.
           ++ rewrite !cadence_app, Hcadence1. simpl.
              now apply prefix_cons_same, prefix_cons_same.
      * destruct (Hraise e). reflexivity.
      * exists evs1. unfold exec.
        rewrite (analyser_loop_out_of_fuel _ _ _ _ _ _ _ _ _ Hmint Hdec).
        simpl in *. split; [exact Htrace1|]. split.
        -- rewrite Hcadence1. apply prefix_cons_same, prefix_nil.
        -- intros Hf. destruct (Hoof Hf). reflexivity.
    + exists []. unfold exec. rewrite (analyser_loop_no_key _ _ _ _ _ _ _ Hmint).
      simpl. rewrite app_nil_r. split; [reflexivity|].
      split; [apply prefix_nil|discriminate].
Qed.

Lemma optional_pubkey_run s env st :
  exists o, optional_pubkey s env st = (o, st) /\ o <> OutOfFuel.
Proof.
  unfold optional_pubkey. destruct (String.eqb s "").
  - eexists. split; [reflexivity|discriminate].
  - unfold bind at 1, Pubkey_from_string, bind, ask.
    destruct (pubkey_from_string env s); eexists;
      (split; [reflexivity|discriminate]).
Qed.

(** The analyser fails before its loop, on a key that cannot be read, or
    runs its loop over the range of 60 values. *)
Lemma analyser_cases token_data env st :
  (exists e,
      analyser token_data env st
      = (Ret tt, extend st [Print (MsgErrorFetchingHolderCount e)]))
  \/ exists self,
       analyser token_data env st
       = try_except
           (analyser_loop self token_data
              (int_of_float (clock_reading env (n_clock st))) (seq 0 60))
           (fun e => print (MsgErrorFetchingHolderCount e)) env
           (exec time_time env (extend st [Print MsgWaitingFiveSeconds])).
Proof.
  assert (Hinit :
            (exists self,
                HolderCountAnalyzer_init (td_user token_data)
                  (td_bondingCurve token_data) env st = (Ret self, st))
            \/ exists e,
                 HolderCountAnalyzer_init (td_user token_data)
                   (td_bondingCurve token_data) env st = (Raise e, st)).
  { unfold HolderCountAnalyzer_init, bind.
    destruct (optional_pubkey_run (td_user token_data) env st)
      as (o1 & -> & Ho1).
    destruct o1 as [dev|e|]; [|right; now exists e|contradiction].
    destruct (optional_pubkey_run (td_bondingCurve token_data) env st)
      as (o2 & -> & Ho2).
    destruct o2 as [curve|e|]; [|right; now exists e|contradiction].
    left. now exists (mkAnalyzer dev curve). }
  unfold analyser.
  destruct Hinit as [(self & Hinit)|(e & Hinit)].
  - right. exists self. unfold try_except.
    now rewrite (bind_run _ _ _ _ _ _ Hinit).
  - left. exists e.
    now rewrite (try_except_raise _ _ _ _ e st) by now apply bind_raise.
Qed.

(** The loop raises only when the mint of the event is no key. *)
Lemma analyser_loop_raises self td start env range :
  forall st e st',
    analyser_loop self td start range env st = (Raise e, st') ->
    pubkey_from_string env (td_mint td) = None.
Proof.
  induction range as [|i range IH]; intros st e st' Hrun; [discriminate|].
  destruct (pubkey_from_string env (td_mint td)) as [mint|] eqn:Hmint;
    [|reflexivity].
  exfalso.
  destruct (make_decision_run true env self mint 35 1 60 80 start 100
              (exec time_time env st)) as (evs & _ & _ & Hraise & _);
    [discriminate|].
  destruct (make_decision self mint 35 1 60 80 start 100 env
              (exec time_time env st)) as [[proceed|e'|] st2] eqn:Hdec.
  - rewrite (analyser_loop_step _ _ _ _ _ _ _ _ _ _ Hmint Hdec) in Hrun.
    destruct (not_ proceed); [discriminate|].
    apply IH in Hrun. congruence.
  - now destruct (Hraise e').
  - rewrite (analyser_loop_out_of_fuel _ _ _ _ _ _ _ _ _ Hmint Hdec) in Hrun.
    discriminate.
Qed.

(** A run of the loop that returns is a run of consecutive cycles, each of
    which but the last returned [True]; the last returned [False] or [None],
    or it was the last of the range and is followed by a sleep. *)
Lemma analyser_loop_cycles self td start env mint :
  pubkey_from_string env (td_mint td) = Some mint ->
  forall n i st st_end,
    analyser_loop self td start (seq i n) env st = (Ret tt, st_end) ->
    (n = 0 /\ st_end = st)
    \/ exists log closed trues last,
         cycles self td mint start env i st log closed
         /\ log = trues ++ [last]
         /\ length log <= n
         /\ Forall (fun c => snd c = Some true) trues
         /\ ((not_ (snd last) = true /\ st_end = closed)
             \/ (snd last = Some true /\ length log = n
                 /\ st_end = extend closed [Sleep 5])).
Proof.
  intros Hmint. induction n as [|n IH]; intros i st st_end Hrun.
  - left. simpl in Hrun. unfold ret in Hrun. now inversion Hrun.
  - right. change (seq i (S n)) with (i :: seq (S i) n) in Hrun.
    destruct (make_decision_run true env self mint 35 1 60 80 start 100
                (exec time_time env st)) as (evs & _ & _ & Hraise & _);
      [discriminate|].
    destruct (make_decision self mint 35 1 60 80 start 100 env
                (exec time_time env st)) as [[proceed|e'|] st2] eqn:Hdec.
    + rewrite (analyser_loop_step _ _ _ _ _ _ _ _ _ _ Hmint Hdec) in Hrun.
      destruct (not_ proceed) eqn:Hnot.
      * inversion Hrun; subst st_end.
        exists [(st, proceed)], (cycle_closed env td i st st2), [],
          (st, proceed).
        split; [now apply cycles_last|]. split; [reflexivity|].
        split; [simpl; lia|]. split; [constructor|]. now left.
      * assert (proceed = Some true) as ->
          by (destruct proceed as [[|]|]; now try discriminate).
        replace (extend (exec time_time env st2)
                   [Print (MsgIterationCompleted (i + 1) (td_mint td)
                             (clock_reading env (n_clock st))
                             (clock_reading env (n_clock st2)));
                    Sleep 5])
          with (extend (cycle_closed env td i st st2) [Sleep 5]) in Hrun
          by (unfold cycle_closed; now rewrite extend_extend).
        destruct (IH _ _ _ Hrun)
          as [[-> ->]|(log & closed & trues & last & Hc & -> & Hlen & Ht
                        & Hlast)].
        -- exists [(st, Some true)], (cycle_closed env td i st st2), [],
             (st, Some true).
           split; [now apply cycles_last|]. split; [reflexivity|].
           split; [simpl; lia|]. split; [constructor|]. now right.
        -- exists ((st, Some true) :: trues ++ [last]), closed,
             ((st, Some true) :: trues), last.
           split; [now apply cycles_next with st2|].
           split; [reflexivity|]. split; [simpl; lia|].
           split; [now constructor|].
           destruct Hlast as [Hlast|(Hl1 & Hl2 & Hl3)]; [now left|].
           right. split; [exact Hl1|]. split; [simpl; lia|exact Hl3].
    + now destruct (Hraise e').
    + rewrite (analyser_loop_out_of_fuel _ _ _ _ _ _ _ _ _ Hmint Hdec)
        in Hrun.
      discriminate.
Qed.

(** Every cycle of a run is one call of [make_decision]. *)
Lemma cycles_elem self td mint start env i st log closed :
  cycles self td mint start env i st log closed ->
  forall c, c ∈ log ->
    exists st2,
      make_decision self mint 35 1 60 80 start 100 env
        (exec time_time env (fst c)) = (Ret (snd c), st2).
Proof.
  induction 1 as [i st proceed st2 Hdec|i st proceed st2 log closed Hdec _ IH];
    intros c Hc.
  - apply list_elem_of_singleton in Hc. subst c. now exists st2.
  - apply elem_of_cons in Hc. destruct Hc as [->|Hc]; [now exists st2|].
    now apply IH.
Qed.

(** The cycles of a run from [st]: one decision each, 5 seconds apart. *)
Lemma cycles_cadence self td mint start env i st log closed :
  cycles self td mint start env i st log closed ->
  exists evs,
    trace closed = trace st ++ evs
    /\ cadence evs
       = concat (repeat [Decision; Pause 5] (length log - 1)) ++ [Decision].
Proof.
  induction 1 as [i st proceed st2 Hdec
                 |i st proceed st2 log closed Hdec Hrest IH].
  - destruct (make_decision_run true env self mint 35 1 60 80 start 100
                (exec time_time env st)) as (evs & Htrace & Hcad & _);
      [discriminate|].
    unfold exec at 1 in Htrace. rewrite Hdec in Htrace. simpl in Htrace.
    eexists. split.
    + unfold cycle_closed. simpl. rewrite Htrace. now rewrite <- app_assoc.
    + rewrite cadence_app, Hcad. reflexivity.
  - destruct (make_decision_run true env self mint 35 1 60 80 start 100
                (exec time_time env st)) as (evs & Htrace & Hcad & _);
      [discriminate|].
    unfold exec at 1 in Htrace. rewrite Hdec in Htrace. simpl in Htrace.
    destruct IH as (evs' & Htrace' & Hcad').
    assert (Hlog : length log <> 0) by (inversion Hrest; simpl; lia).
    eexists. split.
    + rewrite Htrace'. unfold cycle_closed. simpl. rewrite Htrace.
      rewrite <- !app_assoc. reflexivity.
    + rewrite !cadence_app, Hcad, Hcad'.
      replace (length ((st, proceed) :: log) - 1)
        with (S (length log - 1)) by (simpl; lia).
      reflexivity.
Qed.

(** Building the analyzer reads no service and leaves the state as it is. *)
Lemma HolderCountAnalyzer_init_run dev_wallet bonding_curve env st :
  exists o,
    HolderCountAnalyzer_init dev_wallet bonding_curve env st = (o, st)
    /\ o <> OutOfFuel.
Proof.
  unfold HolderCountAnalyzer_init, bind.
  destruct (optional_pubkey_run dev_wallet env st) as (o1 & -> & Ho1).
  destruct o1 as [dev|e|];
    [|eexists; split; [reflexivity|discriminate]|contradiction].
  destruct (optional_pubkey_run bonding_curve env st) as (o2 & -> & Ho2).
  destruct o2 as [curve|e|]; [| |contradiction];
    eexists; (split; [reflexivity|discriminate]).
Qed.

(** The analyser fails on a key of its analyzer that cannot be read, or
    builds its analyzer and runs its loop over the range of 60 values. *)
Lemma analyser_init_cases token_data env st :
  (exists e,
      analyser token_data env st
      = (Ret tt, extend st [Print (MsgErrorFetchingHolderCount e)]))
  \/ exists self,
       HolderCountAnalyzer_init (td_user token_data)
         (td_bondingCurve token_data) env st = (Ret self, st)
       /\ analyser token_data env st
          = try_except
              (analyser_loop self token_data
                 (int_of_float (clock_reading env (n_clock st))) (seq 0 60))
              (fun e => print (MsgErrorFetchingHolderCount e)) env
              (exec time_time env (extend st [Print MsgWaitingFiveSeconds])).
Proof.
  destruct (HolderCountAnalyzer_init_run (td_user token_data)
              (td_bondingCurve token_data) env st) as (o & Hinit & Ho).
  unfold analyser. destruct o as [self|e|]; [| |contradiction].
  - right. exists self. split; [exact Hinit|]. unfold try_except.
    now rewrite (bind_run _ _ _ _ _ _ Hinit).
  - left. exists e.
    now rewrite (try_except_raise _ _ _ _ e st) by now apply bind_raise.
Qed.

(** C9 (amended). The analyser starts at most 60 decision cycles, one after
    the other with a pause of 5 seconds after each cycle that let it go on:
    the cadence of its trace is a prefix of sixty times a decision and a
    pause of 5 seconds. It never raises, and it returns when every holder
    pagination of its cycles ends. A run that returns either printed the
    error line of the analyser without starting a cycle (a key of the event
    could not be read), or is a run of at most 60 consecutive cycles of the
    analyzer built from the event, one decision each and 5 seconds apart,
    in which every cycle but the last returned [True] and the last returned
    [False] or [None], after whose closing line the analyser returns at
    once, or returned [True] as the 60th, after which the analyser sleeps
    once more and returns. In such a run a cycle whose statements after
    the fetch of the snapshot raise is the last one, [make_decision] having
    returned [None]; a cycle whose request for the largest accounts raises
    returned [True] and does not end the loop. *)
Theorem analyser_bounded token_data env st :
  (exists evs,
      trace (exec (analyser token_data) env st) = trace st ++ evs
      /\ cadence evs `prefix_of` concat (repeat [Decision; Pause 5] 60))
  /\ (forall e, fst (analyser token_data env st) <> Raise e)
  /\ (paginations_end env -> fst (analyser token_data env st) = Ret tt)
  /\ (forall st_end,
         analyser token_data env st = (Ret tt, st_end) ->
         (exists e evs,
             trace st_end
             = trace st ++ evs ++ [Print (MsgErrorFetchingHolderCount e)]
             /\ cadence evs = [])
         \/ exists self mint log closed trues last,
              let start := int_of_float (clock_reading env (n_clock st)) in
              HolderCountAnalyzer_init (td_user token_data)
                (td_bondingCurve token_data) env st = (Ret self, st)
              /\ pubkey_from_string env (td_mint token_data) = Some mint
              /\ cycles self token_data mint start env 0
                   (exec time_time env
                      (extend st [Print MsgWaitingFiveSeconds]))
                   log closed
              /\ (exists evs,
                     trace closed
                     = trace st ++ Print MsgWaitingFiveSeconds :: evs
                     /\ cadence evs
                        = concat (repeat [Decision; Pause 5] (length log - 1))
                          ++ [Decision])
              /\ log = trues ++ [last]
              /\ length log <= 60
              /\ Forall (fun c => snd c = Some true) trues
              /\ ((not_ (snd last) = true /\ st_end = closed)
                  \/ (snd last = Some true /\ length log = 60
                      /\ st_end = extend closed [Sleep 5]))
              /\ (forall c top_holders st1 e st2,
                     c ∈ log ->
                     get_top_holders self mint 20 env
                       (exec (make_decision_opening start) env
                          (exec time_time env (fst c)))
                     = (Ret top_holders, st1) ->
                     make_decision_on self mint 35 1 60 80 start 100
                       top_holders env st1 = (Raise e, st2) ->
                     snd c = None /\ c = last)
              /\ (forall c e,
                     c ∈ log ->
                     largest_response env (n_largest (fst c))
                     = LargestRaises e ->
                     snd c = Some true)).
Proof.
  assert (Hanalyser :
            forall oof, (oof = false -> paginations_end env) ->
              exists evs,
                trace (exec (analyser token_data) env st) = trace st ++ evs
                /\ cadence evs
                   `prefix_of` concat (repeat [Decision; Pause 5] 60)
                /\ (forall e, fst (analyser token_data env st) <> Raise e)
                /\ (oof = false ->
                    fst (analyser token_data env st) <> OutOfFuel)).
  { intros oof Hfuel. unfold exec.
    destruct (analyser_cases token_data env st) as [(e & ->)|(self & ->)].
    - exists [Print (MsgErrorFetchingHolderCount e)]. simpl.
      split; [reflexivity|]. split; [apply prefix_nil|].
      split; discriminate.
    - unfold try_except.
      match goal with
      | |- context [analyser_loop self _ ?start ?range env ?s] =>
          destruct (analyser_loop_run oof env self token_data start Hfuel
                      range s) as (evs & Htrace & Hcadence & Hoof);
          rewrite length_seq in Hcadence;
          unfold exec at 1 in Htrace;
          destruct (analyser_loop self token_data start range env s)
            as [[[]|e|] s']
      end.
      + exists (Print MsgWaitingFiveSeconds :: evs).
        simpl in *. rewrite Htrace, <- app_assoc.
        split; [reflexivity|]. split; [exact Hcadence|].
        split; discriminate.
      + eexists. simpl in *. rewrite Htrace, <- !app_assoc.
        split; [reflexivity|]. split; [|split; discriminate].
        rewrite !cadence_app.
        change (cadence [Print MsgWaitingFiveSeconds]) with (@nil Beat).
        change (cadence [Print (MsgErrorFetchingHolderCount e)])
          with (@nil Beat).
        now rewrite app_nil_r.
      + exists (Print MsgWaitingFiveSeconds :: evs).
        simpl in *. rewrite Htrace, <- app_assoc.
        split; [reflexivity|]. split; [exact Hcadence|].
        split; [discriminate|exact Hoof]. }
  split; [|split; [|split]].
  - destruct (Hanalyser true) as (evs & Htrace & Hcadence & _);
      [discriminate|]. now exists evs.
  - destruct (Hanalyser true) as (evs & _ & _ & Hraise & _);
      [discriminate|]. exact Hraise.
  - intros Hend.
    destruct (Hanalyser false (fun _ => Hend)) as (evs & _ & _ & Hraise & Hoof).
    destruct (fst (analyser token_data env st)) as [[]|e|].
    + reflexivity.
    + destruct (Hraise e). reflexivity.
    + destruct (Hoof eq_refl). reflexivity.
  - intros st_end Hrun.
    destruct (analyser_init_cases token_data env st)
      as [(e & Hfail)|(self & Hinit & Hloop)].
    { left. exists e, []. rewrite Hfail in Hrun. inversion Hrun.
      now split. }
    rewrite Hloop in Hrun. unfold try_except in Hrun.
    set (start := int_of_float (clock_reading env (n_clock st))) in *.
    set (st0 := exec time_time env (extend st [Print MsgWaitingFiveSeconds]))
      in *.
    destruct (analyser_loop self token_data start (seq 0 60) env st0)
      as [[[]|e|] s'] eqn:Hbody; [| |discriminate].
    + inversion Hrun; subst s'. clear Hrun.
      destruct (pubkey_from_string env (td_mint token_data)) as [mint|]
        eqn:Hmint.
      2: { change (seq 0 60) with (0 :: seq 1 59) in Hbody.
           rewrite (analyser_loop_no_key _ _ _ _ _ _ _ Hmint) in Hbody.
           discriminate. }
      right.
      destruct (analyser_loop_cycles self token_data start env mint Hmint
                  60 0 st0 st_end Hbody)
        as [[Hn _]|(log & closed & trues & last & Hc & Hlog & Hlen & Ht
                     & Hlast)]; [discriminate|].
      exists self, mint, log, closed, trues, last. cbv zeta.
      split; [exact Hinit|]. split; [reflexivity|]. split; [exact Hc|].
      split.
      { destruct (cycles_cadence _ _ _ _ _ _ _ _ _ Hc)
          as (evs & Htrace & Hcadence).
        exists evs. split; [|exact Hcadence].
        rewrite Htrace. unfold st0. simpl. now rewrite <- app_assoc. }
      split; [exact Hlog|]. split; [exact Hlen|]. split; [exact Ht|].
      split; [exact Hlast|]. split.
      * intros c top_holders st1 e st2 Hin Hsnap Hraise.
        destruct (cycles_elem _ _ _ _ _ _ _ _ _ Hc c Hin) as (st3 & Hdec).
        rewrite (make_decision_snapshot _ _ _ _ _ _ _ _ _ _ _ _ Hsnap)
          in Hdec.
        rewrite (try_except_raise _ _ _ _ e st2) in Hdec by exact Hraise.
        assert (Hnone : snd c = None).
        { unfold bind, print, emit, ret in Hdec. now inversion Hdec. }
        split; [exact Hnone|].
        subst log. apply elem_of_app in Hin. destruct Hin as [Hin|Hin].
        -- rewrite Forall_forall in Ht. apply Ht in Hin. congruence.
        -- now apply list_elem_of_singleton in Hin.
      * intros c e Hin Hfetch.
        destruct (cycles_elem _ _ _ _ _ _ _ _ _ Hc c Hin) as (st3 & Hdec).
        revert Hdec. unfold make_decision, try_except.
        rewrite (bind_run _ _ _ _ _ _
                   (make_decision_opening_run start env
                      (exec time_time env (fst c)))).
        unfold bind at 1, get_top_holders, try_except, bind at 1,
          get_token_largest_accounts.
        change (n_largest
                  (exec (make_decision_opening start) env
                     (exec time_time env (fst c))))
          with (n_largest (fst c)).
        rewrite Hfetch. unfold bind, print, emit, ret, make_decision_on.
        simpl. now inversion 1.
    + left. inversion Hrun; subst st_end. clear Hrun.
      pose proof (analyser_loop_raises _ _ _ _ _ _ _ _ Hbody) as Hmint.
      change (seq 0 60) with (0 :: seq 1 59) in Hbody.
      rewrite (analyser_loop_no_key _ _ _ _ _ _ _ Hmint) in Hbody.
      exists e, [Print MsgWaitingFiveSeconds].
      split; [|reflexivity]. inversion Hbody. simpl.
      now rewrite <- app_assoc.
Qed.

(** With no largest accounts and every pagination closed at once, the
    analyser returns. *)
Lemma analyser_bounded_witness :
  fst (analyser sample_token env_no_holders initial_state) = Ret tt.
Proof.
  apply (analyser_bounded sample_token env_no_holders initial_state).
  intros k. exists 0. split; [simpl; lia|reflexivity].
Defined.

(** On a snapshot that is not empty [make_decision] counts the holders; when
    the holder query never runs out of pages it does not return. *)
Lemma make_decision_unbounded self mint ht dt lo up start limit env st
    top_holders st1 :
  (forall i, last_page (http_response env i) = false) ->
  get_top_holders self mint 20 env (exec (make_decision_opening start) env st)
  = (Ret top_holders, st1) ->
  top_holders <> [] ->
  fst (make_decision self mint ht dt lo up start limit env st) = OutOfFuel.
Proof.
  intros Hpages Hsnap Hne.
  rewrite (make_decision_snapshot _ _ _ _ _ _ _ _ _ _ _ _ Hsnap).
  destruct top_holders as [|h hs]; [contradiction|].
  destruct (get_holder_count_loop_unbounded mint env Hpages (fuel env) 1 ∅
              st1) as (st2 & Hcount & _).
  unfold try_except, make_decision_on, bind at 1, display_top_holders,
    bind at 1, get_holder_count, bind at 1, ask.
  now rewrite Hcount.
Qed.

(** An analyser whose first snapshot is not empty, against a holder query
    that never runs out of pages, does not return. *)
Lemma analyser_unbounded token_data env st self mint top_holders st1 :
  (forall i, last_page (http_response env i) = false) ->
  HolderCountAnalyzer_init (td_user token_data) (td_bondingCurve token_data)
    env st = (Ret self, st) ->
  pubkey_from_string env (td_mint token_data) = Some mint ->
  get_top_holders self mint 20 env
    (exec (make_decision_opening
             (int_of_float (clock_reading env (n_clock st)))) env
       (exec time_time env
          (exec time_time env (extend st [Print MsgWaitingFiveSeconds]))))
  = (Ret top_holders, st1) ->
  top_holders <> [] ->
  fst (analyser token_data env st) = OutOfFuel.
Proof.
  intros Hpages Hinit Hmint Hsnap Hne.
  destruct (analyser_init_cases token_data env st)
    as [(e & Hfail)|(self' & Hinit' & ->)].
  - exfalso. revert Hfail. unfold analyser, try_except.
    rewrite (bind_run _ _ _ _ _ _ Hinit). unfold bind at 1.
    rewrite print_run. unfold bind at 1, time_time at 1.
    change (seq 0 (12 * 5)) with (0 :: seq 1 59).
    pose proof (make_decision_unbounded self mint 35 1 60 80 _ 100 env _ _ _
                  Hpages Hsnap Hne) as Hdec.
    match type of Hdec with
    | fst (make_decision ?a ?b ?c ?d ?f ?g ?h ?i ?j ?k) = _ =>
        destruct (make_decision a b c d f g h i j k) as [o st2] eqn:Hrun
    end.
    simpl in Hdec. subst o.
    match goal with
    | |- context [analyser_loop self token_data ?s (0 :: ?r) env ?st0] =>
        rewrite (analyser_loop_out_of_fuel self token_data s 0 r env st0
                   mint st2 Hmint Hrun)
    end.
    discriminate.
  - rewrite Hinit in Hinit'. inversion Hinit'; subst self'.
    unfold try_except. change (seq 0 60) with (0 :: seq 1 59).
    pose proof (make_decision_unbounded self mint 35 1 60 80 _ 100 env _ _ _
                  Hpages Hsnap Hne) as Hdec.
    match type of Hdec with
    | fst (make_decision ?a ?b ?c ?d ?f ?g ?h ?i ?j ?k) = _ =>
        destruct (make_decision a b c d f g h i j k) as [o st2] eqn:Hrun
    end.
    simpl in Hdec. subst o.
    now rewrite (analyser_loop_out_of_fuel _ _ _ _ _ _ _ _ _ Hmint Hrun).
Qed.

(** C9, as stated, fails in two ways. The loop does not always terminate:
    against a holder query that answers every request with a page of
    holders, the first cycle of the analyser never comes back from counting
    the holders, whatever the number of pages the pagination is followed
    for. And an error raised during a decision cycle is not always terminal:
    with a node whose request for the largest accounts raises at every
    cycle, the exception is printed 60 times by [get_top_holders] and the
    analyser goes through all its 60 cycles. *)
Lemma analyser_not_always_terminating :
  (forall n,
      fst (analyser sample_token (with_fuel env_endless n) initial_state)
      = OutOfFuel)
  /\ fst (analyser sample_token env_rpc_down initial_state) = Ret tt
  /\ cadence (trace (exec (analyser sample_token) env_rpc_down initial_state))
     = concat (repeat [Decision; Pause 5] 60)
  /\ omap (fun ev => match ev with
                     | Print (MsgExceptionTopHolders e) => Some e
                     | _ => None
                     end)
          (trace (exec (analyser sample_token) env_rpc_down initial_state))
     = repeat (Exception "ConnectionError") 60.
Proof.
  split; [|split; [|split]]; [|vm_compute; reflexivity..].
  intros n.
  eapply (analyser_unbounded sample_token (with_fuel env_endless n)
            initial_state sample_analyzer sample_mint).
  - intros i. reflexivity.
  - reflexivity.
  - reflexivity.
  - evaluate.
  - discriminate.
Qed.

(** * Further properties of the analytics *)

(** ** The snapshot of [get_top_holders] *)

Lemma length_kept self env pairs :
  forall idx, length (kept self env idx pairs) <= length pairs.
Proof.
  induction pairs as [|[account [w|]] pairs IH]; intros idx; simpl.
  - lia.
  - specialize (IH (S idx)). lia.
  - specialize (IH (S idx)). lia.
Qed.

(** [get_top_holders] when the node has largest accounts to give: the
    records kept from the first [top_n] of them, after one request for the
    largest accounts and one lookup for each of these accounts. *)
Lemma get_top_holders_value self mint top_n env st largest_accounts :
  largest_response env (n_largest st) = LargestValue largest_accounts ->
  exists owner_wallets st',
    get_top_holders self mint top_n env st
    = (Ret (kept self env 1 (zip (take top_n largest_accounts) owner_wallets)),
       st')
    /\ length owner_wallets = length (take top_n largest_accounts)
    /\ (forall i, i < length (take top_n largest_accounts) ->
          owner_wallets !! i
          = Some (resolved_owner env
                    (account_response env (n_account st + i))))
    /\ n_largest st' = S (n_largest st)
    /\ n_account st' = n_account st + length (take top_n largest_accounts)
    /\ n_http st' = n_http st
    /\ n_clock st' = n_clock st.
Proof.
  intros Hlargest.
  set (accounts := take top_n largest_accounts).
  set (st1 := extend
                (mkState (n_http st) (S (n_largest st)) (n_account st)
                   (n_clock st)
                   (trace st ++ [GetTokenLargestAccounts mint]))
                [Print (MsgFetchingTop top_n (pubkey_str env mint))]).
  destruct (gather_owner_wallets env accounts st1)
    as (ws & evs1 & Hgather & Hlen & Hws).
  destruct (compile_holders_run self env (zip accounts ws) 1 []
              (after_lookups st1 (length accounts) evs1))
    as (evs2 & Hcompile).
  exists ws. eexists. split.
  - unfold get_top_holders, try_except, bind at 1,
      get_token_largest_accounts.
    rewrite Hlargest. cbv iota.
    change (total_supply =? 0)%Z with false. cbv iota.
    unfold bind at 1, ask. unfold bind at 1. rewrite print_run.
    change CONVERT_TO_OWNER_WALLET_ADDRESSES with true. cbv iota.
    fold accounts. fold st1.
    rewrite (bind_run _ _ _ _ _ _ Hgather), Hcompile. reflexivity.
  - repeat split; try reflexivity; assumption.
Qed.

(** [get_top_holders] when the node raises or has no value. *)
Lemma get_top_holders_no_value self mint top_n env st :
  (forall l, largest_response env (n_largest st) <> LargestValue l) ->
  exists evs,
    get_top_holders self mint top_n env st
    = (Ret [],
       mkState (n_http st) (S (n_largest st)) (n_account st) (n_clock st)
         (trace st ++ GetTokenLargestAccounts mint :: evs))
    /\ cadence evs = [].
Proof.
  intros Hno. unfold get_top_holders, try_except, bind at 1,
    get_token_largest_accounts.
  destruct (largest_response env (n_largest st)) as [e| |l].
  - exists [Print (MsgExceptionTopHolders e)]. split; [|reflexivity].
    unfold bind, print, emit, ret. simpl. now rewrite <- app_assoc.
  - exists [Print MsgLargestNoValue]. split; [|reflexivity].
    unfold bind, print, emit, ret. simpl. now rewrite <- app_assoc.
  - now destruct (Hno l).
Qed.

(** [get_top_holders] returns, and what it costs. *)
Lemma get_top_holders_returns self mint top_n env st :
  exists top_holders st',
    get_top_holders self mint top_n env st = (Ret top_holders, st')
    /\ n_largest st' = S (n_largest st)
    /\ n_account st <= n_account st' <= n_account st + top_n
    /\ length top_holders <= n_account st' - n_account st
    /\ n_http st' = n_http st
    /\ n_clock st' = n_clock st
    /\ ((forall l, largest_response env (n_largest st) <> LargestValue l) ->
        top_holders = [] /\ n_account st' = n_account st).
Proof.
  destruct (largest_response env (n_largest st)) as [e| |l] eqn:Hlargest.
  1,2: destruct (get_top_holders_no_value self mint top_n env st)
         as (evs & Hrun & _);
    [rewrite Hlargest; discriminate|];
    eexists _, _; split; [exact Hrun|]; simpl;
    repeat split; try reflexivity; lia.
  destruct (get_top_holders_value self mint top_n env st l Hlargest)
    as (ws & st' & Hrun & Hlen & _ & Hl & Ha & Hh & Hc).
  exists (kept self env 1 (zip (take top_n l) ws)), st'.
  split; [exact Hrun|]. split; [exact Hl|].
  pose proof (length_take l top_n) as Htake.
  assert (Hkept : length (kept self env 1 (zip (take top_n l) ws))
                  <= length (take top_n l)).
  { etransitivity; [apply length_kept|].
    rewrite length_zip_with. lia. }
  split; [lia|]. split; [lia|]. split; [exact Hh|]. split; [exact Hc|].
  intros Hno. now destruct (Hno l).
Qed.

(** X1. [get_top_holders] never raises: whatever the node answers it returns
    a list, after exactly one request for the largest accounts and at most
    [top_n] account lookups, without any holder query or clock reading. The
    list has at most as many records as lookups were made, and it is empty,
    with no lookup at all, when the request raises or has no value. *)
Theorem get_top_holders_contract self mint top_n env st :
  exists top_holders st',
    get_top_holders self mint top_n env st = (Ret top_holders, st')
    /\ n_largest st' = S (n_largest st)
    /\ n_account st <= n_account st' <= n_account st + top_n
    /\ length top_holders <= n_account st' - n_account st
    /\ n_http st' = n_http st
    /\ n_clock st' = n_clock st
    /\ ((forall l, largest_response env (n_largest st) <> LargestValue l) ->
        top_holders = [] /\ n_account st' = n_account st).
Proof. apply get_top_holders_returns. Qed.

(** The fields of the records of a snapshot. *)
Lemma get_top_holders_record_fields self mint top_n env st top_holders st' :
  get_top_holders self mint top_n env st = (Ret top_holders, st') ->
  forall h, h ∈ top_holders ->
    (is_dev h = true <->
     exists dev, dev_wallet_pubkey self = Some dev
                 /\ address h = pubkey_str env dev)
    /\ percentage h = float_pct env (amount h) total_supply
    /\ 1 <= rank h <= top_n.
Proof.
  intros Hrun h Hin.
  destruct (largest_response env (n_largest st)) as [e| |l] eqn:Hlargest.
  1,2: destruct (get_top_holders_no_value self mint top_n env st)
         as (evs & Hrun' & _);
    [rewrite Hlargest; discriminate|];
    rewrite Hrun' in Hrun; inversion Hrun; subst;
    now apply elem_of_nil in Hin.
  destruct (get_top_holders_value self mint top_n env st l Hlargest)
    as (ws & st'' & Hrun' & _).
  rewrite Hrun' in Hrun. inversion Hrun; subst. clear Hrun.
  apply kept_elem in Hin. destruct Hin as (i & account & w & Hi & ->).
  apply lookup_zip_with_Some in Hi.
  destruct Hi as (x & y & Hxy & Hx & _). inversion Hxy; subst x y.
  apply lookup_lt_Some in Hx. pose proof (length_take l top_n).
  split; [|split].
  - unfold holder_info. simpl. destruct (dev_wallet_pubkey self) as [dev|].
    + rewrite String.eqb_eq. split.
      * intros ->. now exists dev.
      * intros (dev' & Hdev & ->). now inversion Hdev.
    + split; [discriminate|]. intros (dev & Hdev & _). discriminate.
  - reflexivity.
  - simpl. lia.
Qed.

(** X2. In every snapshot returned by [get_top_holders] a record is tagged
    [is_dev] exactly when the analyser has a creator wallet and the record's
    address is that wallet's; its percentage is the one computed from its
    amount and the fixed supply; and its rank lies between 1 and [top_n]. *)
Theorem get_top_holders_records self mint top_n env st top_holders st' :
  get_top_holders self mint top_n env st = (Ret top_holders, st') ->
  forall h, h ∈ top_holders ->
    (is_dev h = true <->
     exists dev, dev_wallet_pubkey self = Some dev
                 /\ address h = pubkey_str env dev)
    /\ percentage h = float_pct env (amount h) total_supply
    /\ 1 <= rank h <= top_n.
Proof. apply get_top_holders_record_fields. Qed.

(** The third account of the sample node is the creator's. *)
Lemma get_top_holders_records_witness :
  is_dev (holder_info sample_analyzer env_three_accounts 3 "creator"
            (mkLargestAccount (sample_key "acc3") 50000000000000)) = true
  <-> exists dev,
        dev_wallet_pubkey sample_analyzer = Some dev
        /\ "creator" = pubkey_str env_three_accounts dev.
Proof.
  eapply (get_top_holders_records sample_analyzer sample_mint 20
            env_three_accounts initial_state _ _ _
            (holder_info sample_analyzer env_three_accounts 3 "creator"
               (mkLargestAccount (sample_key "acc3") 50000000000000))).
  Unshelve.
  4: evaluate.
  apply elem_of_cons; right. apply elem_of_cons; left. reflexivity.
Defined.

(** X3. On a non-empty snapshot returned by [get_top_holders], for an
    analyser that has a creator wallet, [check_dev_wallet_sold] returns
    false exactly when a record tagged [is_dev] has a percentage at or above
    the threshold: the comparison of addresses that the check makes agrees
    with the tag that the ranker set. *)
Theorem check_dev_wallet_sold_tagged self mint top_n threshold env st
    top_holders st' st1 dev :
  dev_wallet_pubkey self = Some dev ->
  get_top_holders self mint top_n env st = (Ret top_holders, st') ->
  top_holders <> [] ->
  exists b evs,
    check_dev_wallet_sold self mint threshold top_holders env st1
    = (Ret b, extend st1 evs)
    /\ (b = false <->
        exists h, h ∈ top_holders /\ is_dev h = true
                  /\ (inject_Z threshold <= percentage h)%Q).
Proof.
  intros Hdev Hrun Hne.
  destruct top_holders as [|h0 hs]; [contradiction|].
  destruct (check_dev_wallet_sold_loop_run
              (str_optional env (dev_wallet_pubkey self)) threshold (h0 :: hs)
              env st1) as (b & evs & Hcheck & Hb).
  exists b, evs. split; [exact Hcheck|]. rewrite Hb. rewrite Hdev. simpl.
  split.
  - intros (h & Hin & Ha & Hp). exists h. split; [exact Hin|].
    split; [|exact Hp].
    apply (get_top_holders_record_fields _ _ _ _ _ _ _ Hrun h Hin).
    now exists dev.
  - intros (h & Hin & Ht & Hp). exists h. split; [exact Hin|].
    split; [|exact Hp].
    apply (get_top_holders_record_fields _ _ _ _ _ _ _ Hrun h Hin) in Ht.
    destruct Ht as (dev' & Hdev' & ->). congruence.
Qed.

Lemma check_dev_wallet_sold_tagged_witness :
  exists b evs,
    check_dev_wallet_sold sample_analyzer sample_mint 1
      (kept sample_analyzer env_three_accounts 1
         (zip [mkLargestAccount (sample_key "acc1") 750000000000000;
               mkLargestAccount (sample_key "acc2") 100000000000000;
               mkLargestAccount (sample_key "acc3") 50000000000000]
              [Some "curve"; None; Some "creator"]))
      env_three_accounts initial_state
    = (Ret b, extend initial_state evs)
    /\ (b = false <->
        exists h,
          h ∈ kept sample_analyzer env_three_accounts 1
                (zip [mkLargestAccount (sample_key "acc1") 750000000000000;
                      mkLargestAccount (sample_key "acc2") 100000000000000;
                      mkLargestAccount (sample_key "acc3") 50000000000000]
                     [Some "curve"; None; Some "creator"])
          /\ is_dev h = true /\ (inject_Z 1 <= percentage h)%Q).
Proof.
  eapply (check_dev_wallet_sold_tagged sample_analyzer sample_mint 20 1
            env_three_accounts initial_state).
  - reflexivity.
  - vm_compute. reflexivity.
  - discriminate.
Defined.

(** ** The time gate *)

Lemma int_of_float_le x k :
  (0 <= x)%Q -> ((int_of_float x <= k)%Z <-> (x < inject_Z (k + 1))%Q).
Proof.
  destruct x as [a b]. unfold Qle, Qlt, int_of_float. simpl.
  rewrite !Z.mul_1_r. intros Ha.
  rewrite Z.quot_div_nonneg by lia.
  pose proof (Z.div_mod a (Z.pos b)) as Hdm.
  pose proof (Z.mod_pos_bound a (Z.pos b)) as Hmod.
  split; intros H; nia.
Qed.

(** X4. [check_time_limit] always returns, after one reading of the clock;
    for a clock at or after the epoch it returns true exactly when the
    reading is less than one second past the limit: [int] drops the
    fraction, so a reading of [startEpochTime + timeLimit + 0.999] seconds
    is still within the limit. *)
Theorem check_time_limit_boundary start limit env st :
  (0 <= clock_reading env (n_clock st))%Q ->
  exists b evs,
    check_time_limit start limit env st
    = (Ret b,
       extend (mkState (n_http st) (n_largest st) (n_account st)
                 (S (n_clock st)) (trace st)) evs)
    /\ (b = true <->
        (clock_reading env (n_clock st) < inject_Z (start + limit + 1))%Q).
Proof.
  intros Hnow. unfold check_time_limit, bind at 1, time_time.
  pose proof (int_of_float_le (clock_reading env (n_clock st))
                (start + limit) Hnow) as Hle.
  destruct (Z.leb_spec (int_of_float (clock_reading env (n_clock st)) - start)
              limit) as [Hin|Hout].
  - exists true, [Print (MsgWithinTimeLimit limit)]. split; [reflexivity|].
    split; [|reflexivity]. intros _. apply Hle. lia.
  - exists false, [Print (MsgTimeLimitExceeded limit)]. split; [reflexivity|].
    split; [discriminate|]. intros Hlt. apply Hle in Hlt. lia.
Qed.

(** 100.999 seconds after a start at 0 the limit of 100 seconds holds. *)
Lemma check_time_limit_boundary_witness :
  exists b evs,
    check_time_limit 0 100
      (sample_env (fun _ => HttpResult []) (fun _ => LargestNone)
         (fun _ => AccountNone) (fun _ => (100999 # 1000)%Q))
      initial_state
    = (Ret b,
       extend (mkState 0 0 0 1 []) evs)
    /\ (b = true <-> ((100999 # 1000) < inject_Z (0 + 100 + 1))%Q).
Proof.
  apply (check_time_limit_boundary 0 100
           (sample_env (fun _ => HttpResult []) (fun _ => LargestNone)
              (fun _ => AccountNone) (fun _ => (100999 # 1000)%Q))
           initial_state).
  unfold Qle. simpl. lia.
Defined.

(** ** More on the holder pagination *)

(** X5. The pagination has no page cap: against a server that answers every
    request with a non-empty page, [get_holder_count] neither returns nor
    raises, however much fuel the embedding is given; it has made one request
    for each unit of fuel when the fuel is gone. *)
Theorem get_holder_count_unbounded mint env st :
  (forall i, last_page (http_response env i) = false) ->
  exists st',
    get_holder_count mint env st = (OutOfFuel, st')
    /\ n_http st' = n_http st + fuel env.
Proof.
  intros Hpages. unfold get_holder_count, bind, ask.
  apply get_holder_count_loop_unbounded. exact Hpages.
Qed.

Lemma get_holder_count_unbounded_witness :
  exists st',
    get_holder_count sample_mint
      (sample_env (fun _ => HttpResult sample_crowd) (fun _ => LargestNone)
         (fun _ => AccountNone) (fun _ => 0%Q))
      initial_state = (OutOfFuel, st')
    /\ n_http st' = n_http initial_state + 8.
Proof.
  apply (get_holder_count_unbounded sample_mint
           (sample_env (fun _ => HttpResult sample_crowd)
              (fun _ => LargestNone) (fun _ => AccountNone) (fun _ => 0%Q))
           initial_state).
  intros i. reflexivity.
Defined.

Lemma size_list_to_set_le (l : list string) :
  size (list_to_set l : gset string) <= length l.
Proof.
  induction l as [|x l IH].
  - change (size (∅ : gset string) <= 0). now rewrite size_empty.
  - change (size ({[x]} ∪ (list_to_set l : gset string)) <= S (length l)).
    rewrite size_union_alt, size_singleton.
    pose proof (subseteq_size (list_to_set l ∖ {[x]})
                  (list_to_set l : gset string)
                  (subseteq_difference_l _ _ _ (reflexivity _))).
    lia.
Qed.

(** X6. When a pagination ends (on an empty page or on an answer without
    result) the count that [get_holder_count] returns is at most the number
    of token accounts listed on its pages, and it is at least 1 as soon as
    there is a page. *)
Theorem get_holder_count_bounds mint env st pages :
  Forall (fun p => p <> []) pages ->
  (forall i p, pages !! i = Some p ->
               http_response env (n_http st + i) = HttpResult p) ->
  last_page (http_response env (n_http st + length pages)) = true ->
  (forall e, http_response env (n_http st + length pages) <> HttpRaises e) ->
  length pages < fuel env ->
  exists n st',
    get_holder_count mint env st = (Ret n, st')
    /\ n <= length (concat pages)
    /\ (pages <> [] -> 1 <= n).
Proof.
  intros Hne Hresp Hlast Hnoraise Hfuel.
  assert (Hclosing :
            http_response env (n_http st + length pages) = HttpNoResult
            \/ http_response env (n_http st + length pages) = HttpResult []).
  { destruct (http_response env (n_http st + length pages)) as [e| |[|a l]].
    - now destruct (Hnoraise e).
    - now left.
    - now right.
    - discriminate. }
  exists (size (owners_of_pages pages)). eexists.
  split; [now apply get_holder_count_closed|]. split.
  - unfold owners_of_pages. etransitivity; [apply size_list_to_set_le|].
    now rewrite length_map.
  - intros Hpages. destruct pages as [|p ps]; [contradiction|].
    inversion Hne as [|? ? Hp _]; subst. destruct p as [|a p]; [contradiction|].
    assert (Hin : ta_owner a ∈ owners_of_pages ((a :: p) :: ps)).
    { unfold owners_of_pages. simpl. apply elem_of_union_l.
      now apply elem_of_singleton. }
    destruct (size (owners_of_pages ((a :: p) :: ps))) eqn:Hsize; [|lia].
    apply size_empty_inv in Hsize. apply Hsize in Hin.
    now apply not_elem_of_empty in Hin.
Qed.

Lemma get_holder_count_bounds_witness :
  exists n st',
    get_holder_count sample_mint (env_two_pages HttpNoResult) initial_state
    = (Ret n, st')
    /\ n <= length (concat two_pages)
    /\ (two_pages <> [] -> 1 <= n).
Proof.
  apply (get_holder_count_bounds sample_mint (env_two_pages HttpNoResult)
           initial_state two_pages).
  - repeat constructor; discriminate.
  - intros i p Hp. simpl. now rewrite Hp.
  - reflexivity.
  - intros e. discriminate.
  - simpl. lia.
Defined.

(** X7. When a pagination ends after the pages [pages],
    [check_holder_count] returns true exactly when the number of distinct
    owners named on [pages] is at least the threshold, after the same
    requests as [get_holder_count]; so it is false for every threshold above
    the number of listed accounts. *)
Theorem check_holder_count_pagination self mint threshold env st pages :
  Forall (fun p => p <> []) pages ->
  (forall i p, pages !! i = Some p ->
               http_response env (n_http st + i) = HttpResult p) ->
  http_response env (n_http st + length pages) = HttpNoResult
  \/ http_response env (n_http st + length pages) = HttpResult [] ->
  length pages < fuel env ->
  exists b st',
    check_holder_count self mint threshold env st = (Ret b, st')
    /\ (b = true <-> (threshold <= Z.of_nat (size (owners_of_pages pages)))%Z)
    /\ n_http st' = n_http st + length pages + 1
    /\ ((Z.of_nat (length (concat pages)) < threshold)%Z -> b = false).
Proof.
  intros Hne Hresp Hlast Hfuel.
  pose proof (get_holder_count_closed mint env st pages Hne Hresp Hlast Hfuel)
    as Hrun.
  assert (Hle : size (owners_of_pages pages) <= length (concat pages)).
  { unfold owners_of_pages. etransitivity; [apply size_list_to_set_le|].
    now rewrite length_map. }
  unfold check_holder_count. rewrite (bind_run _ _ _ _ _ _ Hrun).
  destruct (Z.geb_spec (Z.of_nat (size (owners_of_pages pages))) threshold)
    as [Hge|Hlt].
  - exists true. eexists. split; [reflexivity|]. split; [|split].
    + split; [intros _; lia|reflexivity].
    + simpl. lia.
    + intros Habove. lia.
  - exists false. eexists. split; [reflexivity|]. split; [|split].
    + split; [discriminate|]. intros Hge. lia.
    + simpl. lia.
    + reflexivity.
Qed.

Lemma check_holder_count_pagination_witness :
  exists b st',
    check_holder_count sample_analyzer sample_mint 2
      (env_two_pages (HttpResult [])) initial_state = (Ret b, st')
    /\ (b = true <-> (2 <= Z.of_nat (size (owners_of_pages two_pages)))%Z)
    /\ n_http st' = n_http initial_state + length two_pages + 1
    /\ ((Z.of_nat (length (concat two_pages)) < 2)%Z -> b = false).
Proof.
  apply (check_holder_count_pagination sample_analyzer sample_mint 2
           (env_two_pages (HttpResult [])) initial_state two_pages).
  - repeat constructor; discriminate.
  - intros i p Hp. simpl. now rewrite Hp.
  - right. reflexivity.
  - simpl. lia.
Defined.

(** ** The time limit is enforced *)

Lemma check_dev_wallet_sold_returns self mint threshold top_holders env st :
  exists b evs,
    check_dev_wallet_sold self mint threshold top_holders env st
    = (Ret b, extend st evs).
Proof.
  destruct top_holders as [|h0 hs].
  - now exists false, [Print MsgNoTopHolders].
  - destruct (check_dev_wallet_sold_loop_run
                (str_optional env (dev_wallet_pubkey self)) threshold
                (h0 :: hs) env st) as (b & evs & Hrun & _).
    now exists b, evs.
Qed.

Lemma check_lp_liquidity_returns self mint lower upper top_holders env st :
  exists b evs,
    check_lp_liquidity self mint lower upper top_holders env st
    = (Ret b, extend st evs).
Proof.
  destruct top_holders as [|h0 hs].
  - now exists false, [Print MsgNoTopHolders].
  - destruct (check_lp_liquidity_loop_run
                (str_optional env (bonding_curve_pubkey self)) lower upper
                (h0 :: hs) env st) as (b & evs & Hrun & _).
    now exists b, evs.
Qed.

(** What [make_decision] does on a non-empty snapshot once the time gate
    has failed: it cannot return [True]. *)
Lemma make_decision_on_timeout self mint ht dt lo up start limit env st
    top_holders st2 st3 :
  top_holders <> [] ->
  display_top_holders self mint 20 top_holders env st = (Ret tt, st2) ->
  check_time_limit start limit env st2 = (Ret false, st3) ->
  forall o st',
    make_decision_on self mint ht dt lo up start limit top_holders env st
    = (o, st') ->
    o = Ret (Some false) \/ (exists e, o = Raise e) \/ o = OutOfFuel.
Proof.
  intros Hne Hdisplay Htime o st' Hrun.
  destruct top_holders as [|h0 hs]; [contradiction|].
  unfold make_decision_on in Hrun.
  rewrite (bind_run _ _ _ _ _ _ Hdisplay), (bind_run _ _ _ _ _ _ Htime)
    in Hrun.
  destruct (check_holder_count self mint ht env st3) as [[hc|e|] st4] eqn:Hc.
  2: { rewrite (bind_raise _ _ _ _ _ _ Hc) in Hrun. inversion Hrun.
       right; left. now exists e. }
  2: { unfold bind at 1 in Hrun. rewrite Hc in Hrun. inversion Hrun.
       now right; right. }
  rewrite (bind_run _ _ _ _ _ _ Hc) in Hrun.
  destruct (check_dev_wallet_sold_returns self mint dt (h0 :: hs) env st4)
    as (d & evs5 & Hdev).
  rewrite (bind_run _ _ _ _ _ _ Hdev) in Hrun.
  destruct (check_lp_liquidity_returns self mint lo up (h0 :: hs) env
              (extend st4 evs5)) as (l & evs6 & Hlp).
  rewrite (bind_run _ _ _ _ _ _ Hlp) in Hrun.
  rewrite andb_false_r in Hrun. cbv iota in Hrun.
  destruct (check_holder_count self mint 60 env (extend (extend st4 evs5) evs6))
    as [[h60|e|] st7] eqn:Hc60.
  2: { rewrite (bind_raise _ _ _ _ _ _ Hc60) in Hrun. inversion Hrun.
       right; left. now exists e. }
  2: { unfold bind at 1 in Hrun. rewrite Hc60 in Hrun. inversion Hrun.
       now right; right. }
  rewrite (bind_run _ _ _ _ _ _ Hc60) in Hrun.
  assert (Hlp60 : exists l60 evs8,
             (if h60 then check_lp_liquidity self mint 60 80 (h0 :: hs)
              else ret false) env st7 = (Ret l60, extend st7 evs8)).
  { destruct h60.
    - apply check_lp_liquidity_returns.
    - exists false, []. unfold ret. now rewrite extend_nil. }
  destruct Hlp60 as (l60 & evs8 & Hlp60).
  rewrite (bind_run _ _ _ _ _ _ Hlp60) in Hrun.
  replace (h60 && l60 && false && negb d) with false in Hrun
    by (now rewrite andb_false_r).
  cbv iota in Hrun. rewrite forced_exits in Hrun.
  left. destruct (bonding_curve_exhausted _ _); simpl in Hrun;
    now inversion Hrun.
Qed.

(** The holder paginations of [env_market] end: every other answer is an
    empty page. *)
Lemma env_market_paginations_end curve_amount creator_amount crowd clock :
  paginations_end (env_market curve_amount creator_amount crowd clock).
Proof.
  intros k. destruct (Nat.even k) eqn:Hk.
  - exists 1. split; [simpl; lia|]. simpl.
    now rewrite Nat.add_1_r, Nat.even_succ, <- Nat.negb_even, Hk.
  - exists 0. split; [simpl; lia|]. simpl.
    now rewrite Nat.add_0_r, Hk.
Qed.

(** X8. The time limit is enforced on every non-empty snapshot: when every
    holder pagination ends, a decision cycle whose snapshot is not empty and
    whose time gate fails returns, whatever the other gates say, and
    returns [False] or [None], never [True]. When this is a cycle of the
    loop of the analyser, the loop returns after the closing line of the
    cycle, with no pause and no further cycle. *)
Theorem make_decision_timeout self mint ht dt lo up start limit env st
    top_holders st1 st2 st3 :
  paginations_end env ->
  top_holders <> [] ->
  get_top_holders self mint 20 env (exec (make_decision_opening start) env st)
  = (Ret top_holders, st1) ->
  display_top_holders self mint 20 top_holders env st1 = (Ret tt, st2) ->
  check_time_limit start limit env st2 = (Ret false, st3) ->
  exists proceed st',
    make_decision self mint ht dt lo up start limit env st
    = (Ret proceed, st')
    /\ (proceed = Some false \/ proceed = None)
    /\ not_ proceed = true
    /\ (forall token_data i rest st0,
           ht = 35%Z -> dt = 1%Z -> lo = 60%Z -> up = 80%Z ->
           limit = 100%Z ->
           pubkey_from_string env (td_mint token_data) = Some mint ->
           st = exec time_time env st0 ->
           exists evs,
             analyser_loop self token_data start (i :: rest) env st0
             = (Ret tt,
                mkState (n_http st') (n_largest st') (n_account st')
                  (S (n_clock st')) (trace st' ++ evs))
             /\ cadence evs = []).
Proof.
  intros Hend Hne Hsnap Hdisplay Htime.
  destruct (make_decision_run false env self mint ht dt lo up start limit st
              (fun _ => Hend)) as (_ & _ & _ & Hraise & Hoof).
  destruct (make_decision self mint ht dt lo up start limit env st)
    as [[proceed|e|] st'] eqn:Hrun.
  2: now destruct (Hraise e).
  2: now destruct (Hoof eq_refl).
  exists proceed, st'. split; [reflexivity|].
  assert (Hfalsy : proceed = Some false \/ proceed = None).
  { rewrite (make_decision_snapshot _ _ _ _ _ _ _ _ _ _ _ _ Hsnap) in Hrun.
    unfold try_except in Hrun.
    destruct (make_decision_on self mint ht dt lo up start limit top_holders
                env st1) as [o st4] eqn:Hon.
    destruct (make_decision_on_timeout _ _ _ _ _ _ _ _ _ _ _ _ _ Hne
                Hdisplay Htime _ _ Hon) as [->|[(e & ->)| ->]].
    - inversion Hrun. now left.
    - inversion Hrun. now right.
    - discriminate. }
  split; [exact Hfalsy|].
  assert (Hnot : not_ proceed = true) by (now destruct Hfalsy as [->| ->]).
  split; [exact Hnot|].
  intros token_data i rest st0 -> -> -> -> -> Hmint ->.
  rewrite (analyser_loop_step _ _ _ _ _ _ _ _ _ _ Hmint Hrun), Hnot.
  eexists. split; reflexivity.
Qed.

(** The curve at 75%, the creator out, 61 holders, but 500 seconds after the
    start: the cycle returns [False]. *)
Lemma make_decision_timeout_witness :
  exists proceed st',
    make_decision sample_analyzer sample_mint 35 1 70 80 0 100
      (env_market 750000000000000 0 sample_crowd (fun _ => 500%Q))
      initial_state = (Ret proceed, st')
    /\ (proceed = Some false \/ proceed = None)
    /\ not_ proceed = true.
Proof.
  edestruct (make_decision_timeout sample_analyzer sample_mint 35 1 70 80 0
               100
               (env_market 750000000000000 0 sample_crowd (fun _ => 500%Q))
               initial_state)
    as (proceed & st' & Hrun & Hfalsy & Hnot & _).
  - apply env_market_paginations_end.
  - shelve.
  - evaluate.
  - evaluate.
  - evaluate.
  - exists proceed, st'.
    split; [exact Hrun|]. split; [exact Hfalsy|exact Hnot].
  Unshelve. discriminate.
Defined.

(** ** The cost of a cycle in RPC requests *)

Section Keeps.
Variable R : State -> State -> Prop.
Hypothesis R_refl : forall st, R st st.
Hypothesis R_trans : forall a b c, R a b -> R b c -> R a c.
Variable env : Env.

Lemma keeps_ret {A} (a : A) : keeps R env (ret a).
Proof. intros st. apply R_refl. Qed.

Lemma keeps_raise {A} e : keeps R env (@raise A e).
Proof. intros st. apply R_refl. Qed.

Lemma keeps_ask : keeps R env ask.
Proof. intros st. apply R_refl. Qed.

Lemma keeps_out_of_fuel {A} : keeps R env (@out_of_fuel A).
Proof. intros st. apply R_refl. Qed.

Lemma keeps_bind {A B} (m : M A) (k : A -> M B) :
  keeps R env m -> (forall a, keeps R env (k a)) -> keeps R env (bind m k).
Proof.
  intros Hm Hk st. unfold bind. specialize (Hm st).
  destruct (m env st) as [[a|e|] st1]; simpl in *; try exact Hm.
  exact (R_trans _ _ _ Hm (Hk a st1)).
Qed.

Lemma keeps_try_except {A} (m : M A) handler :
  keeps R env m -> (forall e, keeps R env (handler e)) ->
  keeps R env (try_except m handler).
Proof.
  intros Hm Hh st. unfold try_except. specialize (Hm st).
  destruct (m env st) as [[a|e|] st1]; simpl in *; try exact Hm.
  exact (R_trans _ _ _ Hm (Hh e st1)).
Qed.
End Keeps.

Lemma same_rpc_refl st : same_rpc st st.
Proof. now split. Qed.

Lemma same_rpc_trans a b c : same_rpc a b -> same_rpc b c -> same_rpc a c.
Proof. intros [H1 H2] [H3 H4]. split; congruence. Qed.

Section SameRpc.
Variable env : Env.

Lemma quiet_emit e : keeps same_rpc env (emit e).
Proof. intros st. now split. Qed.

Lemma quiet_time_time : keeps same_rpc env time_time.
Proof. intros st. now split. Qed.

Lemma quiet_requests_post mint page :
  keeps same_rpc env (requests_post mint page).
Proof.
  intros st. unfold requests_post.
  destruct (http_response env (n_http st)); now split.
Qed.

Create HintDb quiet.

Hint Resolve quiet_emit quiet_time_time quiet_requests_post : quiet.

Ltac quiet_step :=
  match goal with
  | |- keeps _ _ (bind _ _) =>
      apply (keeps_bind _ same_rpc_trans); [|intros ?]
  | |- keeps _ _ (try_except _ _) =>
      apply (keeps_try_except _ same_rpc_trans); [|intros ?]
  | |- keeps _ _ (ret _) => apply (keeps_ret _ same_rpc_refl)
  | |- keeps _ _ (raise _) => apply (keeps_raise _ same_rpc_refl)
  | |- keeps _ _ ask => apply (keeps_ask _ same_rpc_refl)
  | |- keeps _ _ out_of_fuel => apply (keeps_out_of_fuel _ same_rpc_refl)
  | |- keeps _ _ (print _) => apply quiet_emit
  | |- keeps _ _ (match ?x with _ => _ end) => destruct x
  | |- keeps _ _ _ => solve [eauto with quiet]
  end.

Lemma quiet_get_holder_count mint : keeps same_rpc env (get_holder_count mint).
Proof.
  assert (Hloop : forall n page all_owners,
             keeps same_rpc env (get_holder_count_loop n mint page all_owners)).
  { induction n as [|n IH]; intros page all_owners; simpl;
      repeat quiet_step. }
  unfold get_holder_count. repeat quiet_step.
Qed.

Hint Resolve quiet_get_holder_count : quiet.

Lemma quiet_make_decision_on self mint ht dt lo up start limit top_holders :
  keeps same_rpc env
    (make_decision_on self mint ht dt lo up start limit top_holders).
Proof.
  assert (Hrows : forall hs, keeps same_rpc env (print_rows hs)).
  { induction hs; simpl; repeat quiet_step. }
  assert (Hdev : forall dev threshold hs,
             keeps same_rpc env (check_dev_wallet_sold_loop dev threshold hs)).
  { intros dev threshold hs. induction hs; simpl; repeat quiet_step. }
  assert (Hlp : forall curve lower upper hs,
             keeps same_rpc env
               (check_lp_liquidity_loop curve lower upper hs)).
  { intros curve lower upper hs. induction hs; simpl; repeat quiet_step. }
  unfold make_decision_on, display_top_holders, check_time_limit,
    check_holder_count, check_dev_wallet_sold, check_lp_liquidity.
  repeat quiet_step.
Qed.
End SameRpc.

(** One decision cycle asks once for the largest accounts and looks up at
    most 20 accounts. *)
Lemma make_decision_rpc self mint ht dt lo up start limit env st :
  n_largest (exec (make_decision self mint ht dt lo up start limit) env st)
  = S (n_largest st)
  /\ n_account st
     <= n_account (exec (make_decision self mint ht dt lo up start limit)
                     env st)
     <= n_account st + 20.
Proof.
  destruct (get_top_holders_returns self mint 20 env
              (exec (make_decision_opening start) env st))
    as (top_holders & st1 & Hsnap & Hl & Ha & _).
  unfold exec.
  rewrite (make_decision_snapshot _ _ _ _ _ _ _ _ _ _ _ _ Hsnap).
  assert (Hrest : keeps same_rpc env
                    (try_except
                       (make_decision_on self mint ht dt lo up start limit
                          top_holders)
                       (fun e => print (MsgExceptionMakeDecision e) ;;
                                 ret None))).
  { apply (keeps_try_except _ same_rpc_trans).
    - apply quiet_make_decision_on.
    - intros e. apply (keeps_bind _ same_rpc_trans).
      + apply quiet_emit.
      + intros _. apply (keeps_ret _ same_rpc_refl). }
  destruct (Hrest st1) as [Hl' Ha']. rewrite Hl', Ha', Hl.
  simpl in Ha. simpl. lia.
Qed.

(** The loop of the analyser over [range]. *)
Lemma analyser_loop_rpc self td start env range :
  forall st,
    n_largest st
    <= n_largest (exec (analyser_loop self td start range) env st)
    <= n_largest st + length range
    /\ n_account st
       <= n_account (exec (analyser_loop self td start range) env st)
       <= n_account st + 20 * length range.
Proof.
  induction range as [|i range IH]; intros st.
  - unfold exec. simpl. lia.
  - destruct (pubkey_from_string env (td_mint td)) as [mint|] eqn:Hmint.
    + pose proof (make_decision_rpc self mint 35 1 60 80 start 100 env
                    (exec time_time env st)) as [Hl Ha].
      pose proof (make_decision_run true env self mint 35 1 60 80 start 100
                    (exec time_time env st)) as (evs & _ & _ & Hraise & _);
        [discriminate|].
      unfold exec in *.
      destruct (make_decision self mint 35 1 60 80 start 100 env
                  (snd (time_time env st))) as [[proceed|e|] st2] eqn:Hdec.
      * rewrite (analyser_loop_step _ _ _ _ _ _ _ _ _ _ Hmint Hdec).
        simpl in Hl, Ha. destruct (not_ proceed).
        -- simpl. lia.
        -- match goal with
           | |- context [analyser_loop self td start range env ?s] =>
               specialize (IH s); simpl in IH
           end.
           simpl length. lia.
      * destruct (Hraise e). reflexivity.
      * rewrite (analyser_loop_out_of_fuel _ _ _ _ _ _ _ _ _ Hmint Hdec).
        simpl in *. lia.
    + unfold exec. rewrite (analyser_loop_no_key _ _ _ _ _ _ _ Hmint).
      simpl. lia.
Qed.

(** X9. A decision cycle asks the RPC node once for the largest accounts
    and for at most 20 accounts, whatever its outcome; an analyser, over all
    its cycles, asks at most 60 times for the largest accounts and looks up
    at most 1200 accounts. *)
Theorem analyser_rpc_budget token_data env st :
  (forall self mint ht dt lo up start limit st0,
      n_largest (exec (make_decision self mint ht dt lo up start limit) env
                   st0) = S (n_largest st0)
      /\ n_account st0
         <= n_account (exec (make_decision self mint ht dt lo up start limit)
                         env st0)
         <= n_account st0 + 20)
  /\ n_largest st <= n_largest (exec (analyser token_data) env st)
     <= n_largest st + 60
  /\ n_account st <= n_account (exec (analyser token_data) env st)
     <= n_account st + 1200.
Proof.
  split; [intros; apply make_decision_rpc|].
  unfold exec.
  destruct (analyser_cases token_data env st) as [(e & ->)|(self & ->)].
  - simpl. lia.
  - unfold try_except, exec.
    match goal with
    | |- context [analyser_loop self _ ?start ?range env ?s] =>
        pose proof (analyser_loop_rpc self token_data start env range s)
          as Hloop;
        rewrite length_seq in Hloop; unfold exec in Hloop;
        destruct (analyser_loop self token_data start range env s)
          as [[[]|e|] s']
    end; simpl in *; lia.
Qed.

(** ** Empty snapshots do not end the loop *)

Lemma make_decision_no_value self mint ht dt lo up start limit env st :
  (forall i l, largest_response env i <> LargestValue l) ->
  exists evs,
    make_decision self mint ht dt lo up start limit env st
    = (Ret (Some true),
       mkState (n_http st) (S (n_largest st)) (n_account st) (S (n_clock st))
         (trace st ++ evs))
    /\ cadence evs = [Decision].
Proof.
  intros Hno.
  destruct (get_top_holders_no_value self mint 20 env
              (exec (make_decision_opening start) env st))
    as (evs & Hsnap & Hquiet); [apply Hno|].
  rewrite (make_decision_snapshot _ _ _ _ _ _ _ _ _ _ _ _ Hsnap).
  eexists. split.
  - unfold try_except, make_decision_on, bind, print, emit, ret. simpl.
    rewrite <- !app_assoc. reflexivity.
  - simpl.
    change (cadence (Print (MsgAtSecond
                              (int_of_float (clock_reading env (n_clock st))
                               - start))
                     :: GetTokenLargestAccounts mint
                     :: evs ++ [Print MsgNoTopHoldersSkipping]))
      with (Decision :: cadence (evs ++ [Print MsgNoTopHoldersSkipping])).
    now rewrite cadence_app, Hquiet.
Qed.

(** With a node that never has largest accounts, each value of the range
    costs one decision cycle and one pause. *)
Lemma analyser_loop_no_value self td start env mint :
  (forall i l, largest_response env i <> LargestValue l) ->
  pubkey_from_string env (td_mint td) = Some mint ->
  forall range st,
  exists evs st',
    analyser_loop self td start range env st = (Ret tt, st')
    /\ trace st' = trace st ++ evs
    /\ cadence evs = concat (repeat [Decision; Pause 5] (length range)).
Proof.
  intros Hno Hmint. induction range as [|i range IH]; intros st.
  - exists [], st. simpl. now rewrite app_nil_r.
  - destruct (make_decision_no_value self mint 35 1 60 80 start 100 env
                (exec time_time env st) Hno) as (evs1 & Hdec & Hcadence1).
    rewrite (analyser_loop_step _ _ _ _ _ _ _ _ _ _ Hmint Hdec).
    cbv iota beta delta [not_].
    match goal with
    | |- context [analyser_loop self td start range env ?s] =>
        destruct (IH s) as (evs2 & st' & Hrun & Htrace & Hcadence2)
    end.
    eexists. exists st'. split; [exact Hrun|]. split.
    + rewrite Htrace. simpl. rewrite <- !app_assoc. reflexivity.
    + rewrite !cadence_app, Hcadence1, Hcadence2. reflexivity.
Qed.

(** X10. An empty snapshot never ends the loop, time limit or not: with an
    RPC node that never has largest accounts to give (it raises or returns
    no value at every request), an analyser whose three keys can be read
    goes through all its 60 decision cycles, each followed by a pause of 5
    seconds, and then returns. *)
Theorem analyser_retries_on_empty token_data env st mint :
  (forall i l, largest_response env i <> LargestValue l) ->
  pubkey_from_string env (td_mint token_data) = Some mint ->
  pubkey_from_string env (td_user token_data) <> None ->
  pubkey_from_string env (td_bondingCurve token_data) <> None ->
  exists evs st',
    analyser token_data env st = (Ret tt, st')
    /\ trace st' = trace st ++ evs
    /\ cadence evs = concat (repeat [Decision; Pause 5] 60).
Proof.
  intros Hno Hmint Huser Hcurve.
  assert (Hkey : forall s,
             pubkey_from_string env s <> None ->
             exists o, optional_pubkey s env st = (Ret o, st)).
  { intros s Hs. unfold optional_pubkey. destruct (String.eqb s "").
    - now exists None.
    - unfold bind at 1, Pubkey_from_string, bind, ask.
      destruct (pubkey_from_string env s) as [p|]; [|contradiction].
      now exists (Some p). }
  destruct (Hkey _ Huser) as (dev & Hdev).
  destruct (Hkey _ Hcurve) as (curve & Hcurve').
  unfold analyser, try_except, HolderCountAnalyzer_init.
  rewrite (bind_run _ _ _ _ (mkAnalyzer dev curve) st)
    by (now rewrite (bind_run _ _ _ _ _ _ Hdev),
          (bind_run _ _ _ _ _ _ Hcurve')).
  unfold bind at 1. rewrite print_run. unfold bind at 1, time_time at 1.
  match goal with
  | |- context [analyser_loop ?self _ ?start ?range env ?s] =>
      destruct (analyser_loop_no_value self token_data start env mint Hno
                  Hmint range s) as (evs & st' & Hrun & Htrace & Hcadence)
  end.
  rewrite Hrun. exists (Print MsgWaitingFiveSeconds :: evs), st'.
  split; [reflexivity|]. split.
  - rewrite Htrace. simpl. now rewrite <- app_assoc.
  - rewrite length_seq in Hcadence. exact Hcadence.
Qed.

Lemma analyser_retries_on_empty_witness :
  exists evs st',
    analyser sample_token env_no_holders initial_state = (Ret tt, st')
    /\ trace st' = trace initial_state ++ evs
    /\ cadence evs = concat (repeat [Decision; Pause 5] 60).
Proof.
  apply (analyser_retries_on_empty sample_token env_no_holders initial_state
           (sample_key "mint")); try discriminate.
  reflexivity.
Defined.

(** * Properties of the trading side *)

Import Trade.

Lemma count_app kind (a b : list Event) :
  count kind (a ++ b) = count kind a + count kind b.
Proof. unfold count. now rewrite List.filter_app, length_app. Qed.

Lemma count_one kind (e : Event) :
  count kind [e] = if kind e then 1 else 0.
Proof. unfold count. simpl. now destruct (kind e). Qed.

(** Brings the indices of the answers back to the trace of the start. *)
Ltac counts :=
  rewrite ?count_app, ?count_one in *;
  cbn [is_connect is_listen is_ping is_write is_price is_buy is_sell is_log
       is_all_tasks] in *;
  rewrite ?Nat.add_0_r in *.

(** ** What a computation adds to the trace *)

Section Grows.
Variable I : list Event -> Prop.
Hypothesis I_nil : I [].
Hypothesis I_app : forall a b, I a -> I b -> I (a ++ b).

Lemma grows_ret {A} (a : A) : grows I (ret a).
Proof. intros w tr. exists []. now rewrite app_nil_r. Qed.

Lemma grows_raise {A} e : grows I (@raise A e).
Proof. intros w tr. exists []. now rewrite app_nil_r. Qed.

Lemma grows_out_of_fuel {A} : grows I (@out_of_fuel A).
Proof. intros w tr. exists []. now rewrite app_nil_r. Qed.

Lemma grows_ask : grows I ask.
Proof. intros w tr. exists []. now rewrite app_nil_r. Qed.

Lemma grows_emit e : I [e] -> grows I (emit e).
Proof. intros He w tr. now exists [e]. Qed.

Lemma grows_call {A} kind (answer : World -> nat -> Answer A) e :
  I [e] -> grows I (call kind answer e).
Proof.
  intros He w tr. exists [e]. unfold call.
  now destruct (answer w (count kind tr)).
Qed.

Lemma grows_bind {A B} (m : T A) (k : A -> T B) :
  grows I m -> (forall a, grows I (k a)) -> grows I (bind m k).
Proof.
  intros Hm Hk w tr. unfold bind.
  destruct (Hm w tr) as (evs & E & Hevs).
  destruct (m w tr) as [[a | e |] tr']; simpl in E; subst tr'.
  - destruct (Hk a w (tr ++ evs)) as (evs' & E' & Hevs').
    exists (evs ++ evs'). rewrite E', app_assoc. auto.
  - now exists evs.
  - now exists evs.
Qed.

Lemma grows_try_except {A} (body : T A) handler :
  grows I body -> (forall e, grows I (handler e)) ->
  grows I (try_except body handler).
Proof.
  intros Hm Hk w tr. unfold try_except.
  destruct (Hm w tr) as (evs & E & Hevs).
  destruct (body w tr) as [[a | e |] tr']; simpl in E; subst tr'.
  - now exists evs.
  - destruct (Hk e w (tr ++ evs)) as (evs' & E' & Hevs').
    exists (evs ++ evs'). rewrite E', app_assoc. auto.
  - now exists evs.
Qed.

Lemma grows_finally {A} (body : T A) cleanup :
  grows I body -> grows I cleanup -> grows I (finally body cleanup).
Proof.
  intros Hm Hk w tr. unfold finally.
  destruct (Hm w tr) as (evs & E & Hevs).
  destruct (Hk w (tr ++ evs)) as (evs' & E' & Hevs').
  destruct (body w tr) as [[a | e |] tr']; simpl in E; subst tr';
    try (now exists evs);
    destruct (cleanup w (tr ++ evs)) as [[[] | e' |] tr'']; simpl in E';
    subst tr''; exists (evs ++ evs'); rewrite app_assoc; auto.
Qed.

Lemma grows_with_connection {A} (body : Websocket -> T A) :
  (forall websocket, I [Connect websocket]) ->
  (forall websocket, I [Close websocket]) ->
  (forall websocket, grows I (body websocket)) ->
  grows I (with_connection body).
Proof.
  intros Hc Hd Hb w tr. unfold with_connection.
  apply grows_bind.
  - now apply grows_call.
  - intros _. apply grows_finally; [apply Hb | now apply grows_emit].
Qed.

Lemma grows_Pubkey_from_string s : grows I (Pubkey_from_string s).
Proof.
  intros w tr. unfold Pubkey_from_string, bind, ask.
  destruct (key_from_string w s); exists []; now rewrite app_nil_r.
Qed.

Lemma grows_log_trade action token_data price tx_hash :
  (forall entry, I [AppendLog entry]) ->
  grows I (log_trade action token_data price tx_hash).
Proof.
  intros He w tr. unfold log_trade. now apply grows_call.
Qed.

Lemma grows_all_tasks : I [AllTasks] -> grows I all_tasks.
Proof. intros He w tr. now exists [AllTasks]. Qed.

Lemma grows_break_unless yolo_mode : grows I (break_unless yolo_mode).
Proof. destruct yolo_mode; apply grows_ret. Qed.

End Grows.

Lemma only_nil P : only P [].
Proof. constructor. Qed.

Lemma only_app P a b : only P a -> only P b -> only P (a ++ b).
Proof. intros. now apply Forall_app. Qed.

Lemma only_one (P : Event -> Prop) e : P e -> only P [e].
Proof. intros. now repeat constructor. Qed.

(** ** One turn of [_trade], case by case *)

(** Splits a run of [_trade_turn] into the cases of the world's answers. *)
Ltac turn_cases :=
  unfold _trade_turn, listen_for_create_transaction, log_trade, print,
    asyncio_sleep, Pubkey_from_string, break_unless, call, emit, bind, ask,
    ret, raise;
  repeat (cbn beta iota zeta; cbn [negb];
    match goal with
    | |- context [listen_answer ?w ?i] => destruct (listen_answer w i) eqn:?
    | |- context [fails_match ?w ?m ?t] => destruct (fails_match w m t) eqn:?
    | |- context [fails_bro ?b ?t] => destruct (fails_bro b t) eqn:?
    | |- context [write_answer ?w ?i] => destruct (write_answer w i) eqn:?
    | |- context [key_from_string ?w ?s] =>
        destruct (key_from_string w s) eqn:?
    | |- context [price_answer ?w ?i] => destruct (price_answer w i) eqn:?
    | |- context [buy_answer ?w ?i] =>
        destruct (buy_answer w i) as [? | [? |]] eqn:?
    | |- context [sell_answer ?w ?i] =>
        destruct (sell_answer w i) as [? | [? |]] eqn:?
    | |- context [log_answer ?w ?i] => destruct (log_answer w i) eqn:?
    | |- context [negb ?b] => is_var b; destruct b
    end);
  cbn beta iota zeta; cbn [negb snd fst]; rewrite <- ?app_assoc; cbn [app].

Lemma balanced_nil : balanced [].
Proof. unfold balanced. cbn. lia. Qed.

Lemma balanced_app a b : balanced a -> balanced b -> balanced (a ++ b).
Proof. unfold balanced. rewrite !count_app. lia. Qed.

Lemma balanced_other e : is_trading e = false -> balanced [e].
Proof. destruct e; try discriminate; intros _; unfold balanced; cbn; lia. Qed.

Lemma _trade_turn_balanced websocket match_string bro_address marry_mode
    yolo_mode :
  grows balanced
    (_trade_turn websocket match_string bro_address marry_mode yolo_mode).
Proof.
  intros w tr. turn_cases;
    (eexists; split; [reflexivity | unfold balanced; cbn; lia]).
Qed.

(** ** The loops, for a property of the traces that one turn keeps *)

Section Loops.
Variable I : list Event -> Prop.
Hypothesis I_nil : I [].
Hypothesis I_app : forall a b, I a -> I b -> I (a ++ b).
Hypothesis I_other : forall e, is_trading e = false -> I [e].
Variable marry_mode : bool.
Hypothesis I_turn :
  forall websocket match_string bro_address yolo_mode,
    grows I
      (_trade_turn websocket match_string bro_address marry_mode yolo_mode).

Ltac grows_step :=
  first
    [ apply (grows_bind I I_app); [| intros ?]
    | apply (grows_try_except I I_app); [| intros ?]
    | apply (grows_with_connection I I_app); [| | intros ?]
    | apply grows_emit
    | apply grows_call
    | apply grows_all_tasks
    | apply (grows_ret I I_nil)
    | apply (grows_out_of_fuel I I_nil)
    | apply (grows_ask I I_nil)
    | apply I_other; reflexivity
    | intros ?; apply I_other; reflexivity ].

(** [known] closes the computations that have their lemma already. *)
Ltac grows_with known := repeat first [known | grows_step].

Lemma grows__trade n websocket match_string bro_address yolo_mode :
  grows I (_trade n websocket match_string bro_address marry_mode yolo_mode).
Proof.
  induction n as [| n IH]; simpl; grows_with ltac:(apply I_turn).
  match goal with
  | c : Control |- _ => destruct c
  end; [grows_step | apply IH].
Qed.

Lemma grows_trade n websocket match_string bro_address yolo_mode :
  grows I (trade n websocket match_string bro_address marry_mode yolo_mode).
Proof.
  destruct websocket as [websocket |]; simpl;
    grows_with ltac:(apply grows__trade).
Qed.

Lemma grows_monitor_turn : grows I monitor_turn.
Proof.
  unfold monitor_turn, listen_for_create_transaction, print.
  repeat grows_step.
  destruct (_ <? _); repeat grows_step.
Qed.

Lemma grows_monitorTokenCreation n : grows I (monitorTokenCreation n).
Proof.
  induction n as [| n IH]; simpl;
    grows_with ltac:(first [apply grows_monitor_turn | apply IH]).
Qed.

Lemma grows_monitor_forever n : grows I (monitor_forever n).
Proof.
  induction n as [| n IH]; simpl; unfold print;
    grows_with ltac:(first [apply grows_monitorTokenCreation | apply IH]).
Qed.

Lemma grows_yolo_trades n websocket match_string bro_address yolo_mode :
  grows I
    (yolo_trades n websocket match_string bro_address marry_mode yolo_mode).
Proof.
  induction n as [| n IH]; simpl; unfold print, asyncio_sleep;
    grows_with ltac:(apply grows__trade).
  - match goal with
    | |- context [connection_closed ?w ?e] => destruct (connection_closed w e)
    end; repeat grows_step.
  - match goal with
    | c : Control |- _ => destruct c
    end; grows_with ltac:(apply IH).
Qed.

Lemma grows_yolo_forever n match_string bro_address yolo_mode :
  grows I (yolo_forever n match_string bro_address marry_mode yolo_mode).
Proof.
  induction n as [| n IH]; simpl; unfold print, asyncio_sleep;
    grows_with ltac:(first [apply grows_yolo_trades | apply IH]).
Qed.

Lemma grows_main n yolo_mode match_string bro_address monitor_mode :
  grows I
    (main n yolo_mode match_string bro_address marry_mode monitor_mode).
Proof.
  unfold main. grows_step.
  - destruct monitor_mode; [apply grows_monitor_forever | grows_step].
  - destruct yolo_mode.
    + apply grows_yolo_forever.
    + grows_with ltac:(apply grows_trade).
Qed.

End Loops.

(** ** What the whole program does and never does *)

Lemma balanced_program n yolo_mode match_string bro_address marry_mode
    monitor_mode :
  grows balanced
    (main n yolo_mode match_string bro_address marry_mode monitor_mode).
Proof.
  apply grows_main;
    auto using balanced_nil, balanced_app, balanced_other.
  intros. apply _trade_turn_balanced.
Qed.

(** X11. In every run of [main], for any fuel, flags and answers of the
    world, and in every run of [trade] on its own: among the events added
    to the trace there are at most as many sales as purchases, as many
    purchases as price queries, as many price queries as token files
    written, as many files as creation events received, and at most as
    many log lines as transactions. *)
Theorem main_balanced n yolo_mode match_string bro_address marry_mode
    monitor_mode websocket w tr :
  (exists evs,
     snd (main n yolo_mode match_string bro_address marry_mode monitor_mode
            w tr) = tr ++ evs
     /\ balanced evs)
  /\ (exists evs,
        snd (trade n websocket match_string bro_address marry_mode yolo_mode
               w tr) = tr ++ evs
        /\ balanced evs).
Proof.
  split.
  - apply balanced_program.
  - apply grows_trade;
      auto using balanced_nil, balanced_app, balanced_other.
    intros. apply _trade_turn_balanced.
Qed.

Lemma no_sale_other e :
  is_trading e = false -> only (fun e => no_sale e = true) [e].
Proof. destruct e; try discriminate; intros _; now apply only_one. Qed.

Lemma _trade_turn_marry websocket match_string bro_address yolo_mode :
  grows (only (fun e => no_sale e = true))
    (_trade_turn websocket match_string bro_address true yolo_mode).
Proof.
  intros w tr. turn_cases;
    (eexists; split; [reflexivity | repeat constructor]).
Qed.

(** X12. With [marry_mode] set, no run of [main] or of [trade] ever sends a
    sale or logs anything but a purchase, whatever the fuel, the other
    flags and the answers of the world (exceptions included). *)
Theorem marry_mode_never_sells n yolo_mode match_string bro_address
    monitor_mode websocket w tr :
  (exists evs,
     snd (main n yolo_mode match_string bro_address true monitor_mode w tr)
     = tr ++ evs
     /\ Forall (fun e => no_sale e = true) evs)
  /\ (exists evs,
        snd (trade n websocket match_string bro_address true yolo_mode w tr)
        = tr ++ evs
        /\ Forall (fun e => no_sale e = true) evs).
Proof.
  split.
  - apply (grows_main (only (fun e => no_sale e = true)));
      auto using only_nil, only_app, no_sale_other, _trade_turn_marry.
  - apply (grows_trade (only (fun e => no_sale e = true)));
      auto using only_nil, only_app, no_sale_other, _trade_turn_marry.
Qed.

(** *** The command line *)

Lemma monitorTokenCreation_never_returns n w tr a :
  fst (monitorTokenCreation n w tr) <> Ret a.
Proof.
  revert tr. induction n as [| n IH]; intros tr; simpl; [discriminate|].
  unfold bind. destruct (monitor_turn w tr) as [[[] | e |] tr'];
    [apply IH | discriminate | discriminate].
Qed.

Lemma monitor_forever_never_returns n w tr :
  fst (monitor_forever n w tr) = OutOfFuel.
Proof.
  revert tr. induction n as [| n IH]; intros tr; simpl; [reflexivity|].
  unfold bind, try_except.
  pose proof (monitorTokenCreation_never_returns n w tr) as H.
  destruct (monitorTokenCreation n w tr) as [[a | e |] tr']; simpl in *.
  - now destruct (H a).
  - apply IH.
  - reflexivity.
Qed.

Lemma command_line_monitor n args w tr :
  command_line n args w tr = monitor_forever n w tr.
Proof.
  unfold command_line, main, bind.
  pose proof (monitor_forever_never_returns n w tr) as H.
  destruct (monitor_forever n w tr) as [[a | e |] tr']; now simpl in *.
Qed.

(** X13. The command line never passes [monitor_mode], so [main] runs with
    its default: whatever the flags, the program only monitors. It never
    ends (for any fuel the run is cut off inside the monitoring loop), none
    of its events is a token file, a price query, a purchase, a sale or a
    log line, and the run is the same for any two sets of flags. *)
Theorem command_line_only_monitors n args w tr :
  fst (command_line n args w tr) = OutOfFuel
  /\ (exists evs,
        snd (command_line n args w tr) = tr ++ evs
        /\ Forall (fun e => is_trading e = false) evs)
  /\ forall args', command_line n args' w tr = command_line n args w tr.
Proof.
  rewrite command_line_monitor. split; [|split].
  - apply monitor_forever_never_returns.
  - apply (grows_monitor_forever (only (fun e => is_trading e = false)));
      auto using only_nil, only_app.
    intros e He. now apply only_one.
  - intros args'. apply command_line_monitor.
Qed.

(** *** Yolo mode *)

Lemma _trade_turn_returns websocket match_string bro_address marry_mode
    yolo_mode w tr :
  fst (_trade_turn websocket match_string bro_address marry_mode yolo_mode
         w tr) <> OutOfFuel
  /\ fst (_trade_turn websocket match_string bro_address marry_mode yolo_mode
            w tr)
     <> Ret (if yolo_mode then Break else Continue).
Proof. turn_cases; split; discriminate. Qed.

Lemma _trade_yolo_never_returns n websocket match_string bro_address
    marry_mode w tr :
  fst (_trade n websocket match_string bro_address marry_mode true w tr)
  <> Ret tt.
Proof.
  revert tr. induction n as [| n IH]; intros tr; simpl; [discriminate|].
  unfold bind.
  pose proof (_trade_turn_returns websocket match_string bro_address
                marry_mode true w tr) as [_ H].
  destruct (_trade_turn _ _ _ _ _ w tr) as [[[] | e |] tr']; simpl in *;
    [congruence | apply IH | discriminate | discriminate].
Qed.

Lemma yolo_forever_never_returns n match_string bro_address marry_mode
    yolo_mode w tr :
  fst (yolo_forever n match_string bro_address marry_mode yolo_mode w tr)
  = OutOfFuel.
Proof.
  revert tr. induction n as [| n IH]; intros tr; simpl; [reflexivity|].
  unfold bind, try_except.
  destruct (with_connection _ w tr) as [[[] | e |] tr']; cbn;
    [apply IH | apply IH | reflexivity].
Qed.

(** X14. In yolo mode the program never stops by itself: whatever the
    world answers (exceptions of the connection, of the node, of the
    transactions or of the files), for any fuel the run of [main] is cut off
    inside its loops, neither returning nor raising; and [_trade] never
    returns normally, it leaves its loop only by an exception. *)
Theorem main_yolo_never_stops n match_string bro_address marry_mode
    monitor_mode websocket w tr :
  fst (main n true match_string bro_address marry_mode monitor_mode w tr)
  = OutOfFuel
  /\ fst (_trade n websocket match_string bro_address marry_mode true w tr)
     <> Ret tt.
Proof.
  split; [| apply _trade_yolo_never_returns].
  unfold main, bind. destruct monitor_mode.
  - pose proof (monitor_forever_never_returns n w tr) as H.
    destruct (monitor_forever n w tr) as [[a | e |] tr']; now simpl in *.
  - cbn. apply yolo_forever_never_returns.
Qed.

(** *** One trade *)

Lemma beforeb_before a b evs :
  forall seen,
    beforeb a b seen evs = true ->
    forall pre e post,
      evs = pre ++ e :: post -> b e = true ->
      seen = true \/ 1 <= count a pre.
Proof.
  induction evs as [|x evs IH]; intros seen Hcheck pre e post Hsplit He.
  - now destruct pre.
  - simpl in Hcheck. apply andb_true_iff in Hcheck.
    destruct Hcheck as [Hx Hrest].
    destruct pre as [|y pre]; simpl in Hsplit; inversion Hsplit; subst.
    + rewrite He in Hx. now left.
    + destruct (IH _ Hrest pre e post eq_refl He) as [Hseen|Hcount].
      * apply orb_true_iff in Hseen. destruct Hseen as [Hseen|Hy].
        -- now left.
        -- right. change (y :: pre) with ([y] ++ pre).
           rewrite count_app, count_one, Hy. lia.
      * right. change (y :: pre) with ([y] ++ pre).
        rewrite count_app. lia.
Qed.

Lemma beforeb_sound a b evs : beforeb a b false evs = true -> before a b evs.
Proof.
  intros Hcheck pre e post Hsplit He.
  now destruct (beforeb_before a b evs false Hcheck pre e post Hsplit He).
Qed.

Lemma _trade_turn_one_token websocket match_string bro_address marry_mode
    yolo_mode :
  grows one_token
    (_trade_turn websocket match_string bro_address marry_mode yolo_mode).
Proof.
  intros w tr. turn_cases;
    (eexists; split;
     [reflexivity
     |unfold one_token; repeat split; try (cbn; lia);
      apply beforeb_sound; reflexivity]).
Qed.

Lemma _trade_once n websocket match_string bro_address marry_mode w tr :
  exists evs,
    snd (_trade (S n) websocket match_string bro_address marry_mode false
           w tr) = tr ++ evs
    /\ one_token evs
    /\ fst (_trade (S n) websocket match_string bro_address marry_mode false
              w tr) <> OutOfFuel.
Proof.
  simpl. unfold bind.
  destruct (_trade_turn_one_token websocket match_string bro_address
              marry_mode false w tr) as (evs & E & Hevs).
  destruct (_trade_turn_returns websocket match_string bro_address
              marry_mode false w tr) as [Hf Hc].
  exists evs.
  destruct (_trade_turn _ _ _ _ _ w tr) as [[[] | e |] tr']; simpl in *;
    try congruence; (split; [assumption | split; [assumption | discriminate]]).
Qed.

(** X15. Without yolo and monitor mode, [main] handles one creation event
    and ends: it opens one connection; when that fails the exception
    leaves [main] at once; otherwise it listens for exactly one event,
    sends at most one purchase, after the event, and at most one sale,
    after the purchase was sent (whether or not the purchase returned a
    transaction), and closes the connection as its last step, also when
    the trade raises. The run ends within one turn of fuel. *)
Theorem main_single_trade n match_string bro_address marry_mode w tr :
  let websocket := Connection (count is_connect tr) in
  let r := main (S n) false match_string bro_address marry_mode false w tr in
  fst r <> OutOfFuel
  /\ match connect_answer w (count is_connect tr) with
     | Raises e => r = (Raise e, tr ++ [Connect websocket])
     | Gives _ =>
         exists evs,
           snd r = tr ++ [Connect websocket] ++ evs ++ [Close websocket]
           /\ one_token evs
     end.
Proof.
  intros websocket r. subst r.
  unfold main, bind, ret, with_connection, bind, call, trade, finally, emit.
  fold websocket.
  destruct (connect_answer w (count is_connect tr)) as [e | []].
  - split; [discriminate | reflexivity].
  - destruct (_trade_once n websocket match_string bro_address marry_mode w
                (tr ++ [Connect websocket])) as (evs & E & Hevs & Hf).
    destruct (_trade (S n) _ _ _ _ _ w _) as [[[] | e |] tr'];
      simpl in E, Hf; subst tr'; try congruence;
      (split; [discriminate |]); exists evs; simpl;
      now rewrite <- !app_assoc.
Qed.

(** *** The protocol of a trade *)

(** X16. The protocol of one trade. When the event passes the filters, the
    three keys parse and the file, the price query and the log succeed:
    the token's file is written before anything else, 15 seconds pass, the
    price is queried once, the purchase is sent; 20 seconds later the sale
    is sent, whether or not the purchase gave a transaction (a purchase
    that returns nothing only prints a line); each transaction that gave
    one is logged with the price queried before the purchase. The turn
    ends the loop unless [yolo_mode] is set. *)
Theorem trade_turn_protocol websocket match_string bro_address yolo_mode w
    tr token_data mint_key bonding_curve associated_bonding_curve
    token_price_sol buy_tx_hash sell_tx_hash :
  listen_answer w (count is_listen tr) = Gives token_data ->
  fails_match w match_string token_data = false ->
  fails_bro bro_address token_data = false ->
  write_answer w (count is_write tr) = Gives tt ->
  key_from_string w (mint token_data) = Some mint_key ->
  key_from_string w (bondingCurve token_data) = Some bonding_curve ->
  key_from_string w (associatedBondingCurve token_data)
  = Some associated_bonding_curve ->
  price_answer w (count is_price tr) = Gives token_price_sol ->
  buy_answer w (count is_buy tr) = Gives buy_tx_hash ->
  sell_answer w (count is_sell tr) = Gives sell_tx_hash ->
  (forall i, log_answer w i = Gives tt) ->
  _trade_turn websocket match_string bro_address false yolo_mode w tr
  = (Ret (if yolo_mode then Continue else Break),
     tr
     ++ until_purchase websocket token_data mint_key bonding_curve
          associated_bonding_curve token_price_sol
     ++ recorded w (count is_log tr) "buy" token_data token_price_sol
          buy_tx_hash MsgBuyFailed
     ++ [Printed MsgWaitingBeforeSelling; Sleep 20; Printed MsgSelling;
         SellToken mint_key bonding_curve associated_bonding_curve]
     ++ recorded w
          (count is_log tr + length (option_list buy_tx_hash))
          "sell" token_data token_price_sol sell_tx_hash MsgSellFailed).
Proof.
  intros Hlisten Hmatch Hbro Hwrite Hmint Hcurve Hassoc Hprice Hbuy Hsell
    Hlog.
  destruct buy_tx_hash, sell_tx_hash; turn_cases; counts;
    repeat match goal with
           | H : log_answer w ?i = Raises _ |- _ => rewrite Hlog in H
           end;
    try congruence; unfold until_purchase, recorded; cbn [app];
    repeat f_equal; congruence.
Qed.

Lemma trade_turn_protocol_witness :
  _trade_turn (Connection 0) (Some "pepe") None false false
    (sample_world (Gives None) (Gives (Some "tx2"))) []
  = (Ret Break,
     []
     ++ until_purchase (Connection 0) sample_token_event (sample_key "mint")
          (sample_key "curve") (sample_key "assoc") (1 # 1000000)%Q
     ++ recorded (sample_world (Gives None) (Gives (Some "tx2"))) 0 "buy"
          sample_token_event (1 # 1000000)%Q None MsgBuyFailed
     ++ [Printed MsgWaitingBeforeSelling; Sleep 20; Printed MsgSelling;
         SellToken (sample_key "mint") (sample_key "curve")
           (sample_key "assoc")]
     ++ recorded (sample_world (Gives None) (Gives (Some "tx2"))) 0 "sell"
          sample_token_event (1 # 1000000)%Q (Some "tx2") MsgSellFailed).
Proof.
  apply (trade_turn_protocol (Connection 0) (Some "pepe") None false
           (sample_world (Gives None) (Gives (Some "tx2"))) []
           sample_token_event (sample_key "mint") (sample_key "curve")
           (sample_key "assoc") (1 # 1000000)%Q None (Some "tx2"));
    reflexivity.
Defined.

(** X17. An event that fails the [match] filter or, after it, the [bro]
    filter is dropped right after it was printed: nothing is written, no
    price is queried and nothing is bought; the line printed names the
    first filter that failed. The turn ends the loop unless [yolo_mode] is
    set, whatever [marry_mode]. *)
Theorem trade_turn_skips websocket match_string bro_address marry_mode
    yolo_mode w tr token_data :
  listen_answer w (count is_listen tr) = Gives token_data ->
  fails_match w match_string token_data || fails_bro bro_address token_data
  = true ->
  _trade_turn websocket match_string bro_address marry_mode yolo_mode w tr
  = (Ret (if yolo_mode then Continue else Break),
     tr
     ++ [Printed MsgWaitingForToken; Listen websocket; Printed MsgNewToken;
         Printed (MsgJson token_data);
         Printed
           (if fails_match w match_string token_data
            then MsgNoMatch match_string
            else MsgNotBro bro_address)]).
Proof.
  intros Hlisten Hfails.
  unfold _trade_turn, listen_for_create_transaction, print, break_unless,
    call, emit, bind, ask, ret.
  cbn beta iota zeta. counts. rewrite Hlisten. cbn beta iota zeta.
  destruct (fails_match w match_string token_data); simpl in Hfails.
  - destruct yolo_mode; cbn; now rewrite <- !app_assoc.
  - rewrite Hfails. destruct yolo_mode; cbn; now rewrite <- !app_assoc.
Qed.

Lemma trade_turn_skips_witness :
  _trade_turn (Connection 0) (Some "doge") None false false
    (sample_world (Gives None) (Gives None)) []
  = (Ret Break,
     []
     ++ [Printed MsgWaitingForToken; Listen (Connection 0);
         Printed MsgNewToken; Printed (MsgJson sample_token_event);
         Printed
           (if fails_match (sample_world (Gives None) (Gives None))
                 (Some "doge") sample_token_event
            then MsgNoMatch (Some "doge")
            else MsgNotBro None)]).
Proof.
  apply (trade_turn_skips (Connection 0) (Some "doge") None false false
           (sample_world (Gives None) (Gives None)) [] sample_token_event);
    reflexivity.
Defined.

(** X18. A purchase whose line cannot be written to the log is never
    sold: when the purchase gave a transaction and [log_trade] raises, the
    exception leaves the turn and the loop of [_trade] right there,
    whatever [marry_mode] and [yolo_mode]; the trace ends with the attempt
    to log and holds no sale. *)
Theorem trade_unsold_after_log_failure n websocket match_string bro_address
    marry_mode yolo_mode w tr token_data mint_key bonding_curve
    associated_bonding_curve token_price_sol h e :
  listen_answer w (count is_listen tr) = Gives token_data ->
  fails_match w match_string token_data = false ->
  fails_bro bro_address token_data = false ->
  write_answer w (count is_write tr) = Gives tt ->
  key_from_string w (mint token_data) = Some mint_key ->
  key_from_string w (bondingCurve token_data) = Some bonding_curve ->
  key_from_string w (associatedBondingCurve token_data)
  = Some associated_bonding_curve ->
  price_answer w (count is_price tr) = Gives token_price_sol ->
  buy_answer w (count is_buy tr) = Gives (Some h) ->
  log_answer w (count is_log tr) = Raises e ->
  _trade (S n) websocket match_string bro_address marry_mode yolo_mode w tr
  = (Raise e,
     tr
     ++ until_purchase websocket token_data mint_key bonding_curve
          associated_bonding_curve token_price_sol
     ++ recorded w (count is_log tr) "buy" token_data token_price_sol
          (Some h) MsgBuyFailed)
  /\ count is_sell
       (until_purchase websocket token_data mint_key bonding_curve
          associated_bonding_curve token_price_sol
        ++ recorded w (count is_log tr) "buy" token_data token_price_sol
             (Some h) MsgBuyFailed) = 0.
Proof.
  intros Hlisten Hmatch Hbro Hwrite Hmint Hcurve Hassoc Hprice Hbuy Hlog.
  split; [| reflexivity].
  cbn [_trade]. unfold bind at 1.
  assert (_trade_turn websocket match_string bro_address marry_mode
            yolo_mode w tr
          = (Raise e,
             tr
             ++ until_purchase websocket token_data mint_key bonding_curve
                  associated_bonding_curve token_price_sol
             ++ recorded w (count is_log tr) "buy" token_data
                  token_price_sol (Some h) MsgBuyFailed)) as ->;
    [| reflexivity].
  turn_cases; counts; try congruence;
    unfold until_purchase, recorded; cbn [app]; repeat f_equal; congruence.
Qed.

Lemma trade_unsold_after_log_failure_witness :
  _trade 1 (Connection 0) None None false false sample_world_no_log []
  = (Raise (Exception "OSError"),
     []
     ++ until_purchase (Connection 0) sample_token_event (sample_key "mint")
          (sample_key "curve") (sample_key "assoc") (1 # 1000000)%Q
     ++ recorded sample_world_no_log 0 "buy" sample_token_event
          (1 # 1000000)%Q (Some "tx1") MsgBuyFailed).
Proof.
  apply (trade_unsold_after_log_failure 0 (Connection 0) None None false
           false sample_world_no_log [] sample_token_event
           (sample_key "mint") (sample_key "curve") (sample_key "assoc")
           (1 # 1000000)%Q "tx1" (Exception "OSError"));
    reflexivity.
Defined.

(** *** The monitor, as [main] runs it *)

(** X19. One turn of the monitoring loop, when the connection opens and an
    event arrives: a connection of its own is opened for the event and
    closed at the end of the turn; the task count is read once, after the
    event; the lines printed from there on and the decision to start an
    analyser are those of [monitor_event] on the tasks read: a task is
    created for the event exactly when fewer than 200 tasks are alive. *)
Theorem monitor_turn_admission w tr token_data :
  connect_answer w (count is_connect tr) = Gives tt ->
  listen_answer w (count is_listen tr) = Gives token_data ->
  let websocket := Connection (count is_connect tr) in
  let tasks := tasks_answer w (count is_all_tasks tr) in
  let verdict := monitor_event tasks (token_data_of token_data) in
  monitor_turn w tr
  = (Ret tt,
     tr
     ++ [Connect websocket; Printed MsgWaitingForToken; Listen websocket;
         Printed MsgNewToken; Printed (MsgJson token_data); AllTasks]
     ++ map (fun m => Printed (MsgMonitor m)) (snd verdict)
     ++ map CreateTask
          (omap (fun t => match t with
                          | AnalyserTask td => Some td
                          | _ => None
                          end)
             (drop (length tasks) (fst verdict)))
     ++ [Close websocket])
  /\ (length tasks < 200 ->
      fst verdict = tasks ++ [AnalyserTask (token_data_of token_data)])
  /\ (200 <= length tasks -> fst verdict = tasks).
Proof.
  intros Hconnect Hlisten websocket tasks verdict.
  assert (verdict
          = if length tasks <? 200
            then (tasks ++ [AnalyserTask (token_data_of token_data)],
                  [MsgNumberOfTasks (length tasks);
                   MsgAnalyserStarted (mint token_data)])
            else (tasks, [MsgNumberOfTasks (length tasks); MsgTooManyTasks]))
    as Hverdict by reflexivity.
  split; [| split].
  - unfold monitor_turn, with_connection, finally,
      listen_for_create_transaction, all_tasks, print, call, emit, bind, ret.
    cbn beta iota zeta. rewrite Hconnect. cbn beta iota zeta.
    counts. rewrite Hlisten. cbn beta iota zeta. counts.
    fold websocket tasks. rewrite Hverdict.
    destruct (length tasks <? 200); cbn [fst snd map].
    + rewrite drop_app_length. cbn. now rewrite <- !app_assoc.
    + rewrite drop_all. cbn. now rewrite <- !app_assoc.
  - intros H. rewrite Hverdict.
    now destruct (Nat.ltb_spec (length tasks) 200); [| lia].
  - intros H. rewrite Hverdict.
    now destruct (Nat.ltb_spec (length tasks) 200); [lia |].
Qed.

Lemma monitor_turn_admission_witness :
  monitor_turn (sample_world (Gives None) (Gives None)) []
  = (Ret tt,
     [Connect (Connection 0); Printed MsgWaitingForToken;
      Listen (Connection 0); Printed MsgNewToken;
      Printed (MsgJson sample_token_event); AllTasks;
      Printed (MsgMonitor (MsgNumberOfTasks 1));
      Printed (MsgMonitor (MsgAnalyserStarted "mint"));
      CreateTask (token_data_of sample_token_event);
      Close (Connection 0)]).
Proof.
  apply (proj1 (monitor_turn_admission (sample_world (Gives None) (Gives None))
                  [] sample_token_event eq_refl eq_refl)).
Defined.

(** *** The keep-alive *)

(** X20. [ping_websocket] never raises: it pings, sleeps 20 seconds and
    pings again, and returns at the first ping that raises, whatever the
    exception. After [k] pings that succeed and one that fails the trace
    holds [k] times a ping and a sleep, and the last ping. *)
Theorem ping_websocket_stops k n websocket w tr e :
  (forall i, i < k -> ping_answer w (count is_ping tr + i) = Gives tt) ->
  ping_answer w (count is_ping tr + k) = Raises e ->
  k < n ->
  ping_websocket n websocket w tr
  = (Ret tt,
     tr ++ concat (repeat [Ping websocket; Sleep 20] k) ++ [Ping websocket]).
Proof.
  revert n tr. induction k as [| k IH]; intros n tr Hgood Hbad Hn;
    (destruct n as [| n]; [lia |]); cbn [ping_websocket];
    unfold try_except, bind, call, asyncio_sleep, emit, ret.
  - rewrite Nat.add_0_r in Hbad. now rewrite Hbad.
  - rewrite <- (Nat.add_0_r (count is_ping tr)), (Hgood 0) by lia.
    cbn beta iota zeta. rewrite IH.
    + cbn [repeat concat]. now rewrite <- !app_assoc.
    + intros i Hi. counts. rewrite <- Nat.add_assoc. apply Hgood. lia.
    + counts. now rewrite <- Nat.add_assoc.
    + lia.
Qed.

Lemma ping_websocket_stops_witness :
  ping_websocket 9 (Connection 0) (sample_world (Gives None) (Gives None)) []
  = (Ret tt,
     []
     ++ concat (repeat [Ping (Connection 0); Sleep 20] 3)
     ++ [Ping (Connection 0)]).
Proof.
  apply (ping_websocket_stops 3 9 (Connection 0)
           (sample_world (Gives None) (Gives None)) []
           (Exception "ConnectionClosed")).
  - intros i Hi. simpl.
    destruct i as [| [| [| i]]]; [reflexivity | reflexivity | reflexivity |].
    lia.
  - reflexivity.
  - lia.
Defined.

(** *** Errors in yolo mode *)

(** X21. In the inner loop of yolo mode, when listening for the next event
    raises: an exception of class [ConnectionClosed] is printed and ends
    the loop on this connection at once; any other exception is printed,
    and after 5 seconds the loop listens again on the same connection. *)
Theorem yolo_trades_on_error n websocket match_string bro_address marry_mode
    yolo_mode w tr e :
  listen_answer w (count is_listen tr) = Raises e ->
  yolo_trades (S (S n)) websocket match_string bro_address marry_mode
    yolo_mode w tr
  = if connection_closed w e
    then
      (Ret tt,
       tr
       ++ [Printed MsgWaitingForToken; Listen websocket;
           Printed MsgConnectionClosed])
    else
      yolo_trades (S n) websocket match_string bro_address marry_mode
        yolo_mode w
        (tr
         ++ [Printed MsgWaitingForToken; Listen websocket;
             Printed (MsgErrorOccurred e); Printed MsgWaitingForNext;
             Sleep 5]).
Proof.
  intros Hlisten.
  assert (_trade (S n) websocket match_string bro_address marry_mode
            yolo_mode w tr
          = (Raise e, tr ++ [Printed MsgWaitingForToken; Listen websocket]))
    as Htrade.
  { cbn [_trade]. unfold _trade_turn, listen_for_create_transaction, print,
      call, emit, bind.
    cbn beta iota zeta. counts. rewrite Hlisten.
    now rewrite <- !app_assoc. }
  change (yolo_trades (S (S n)) websocket match_string bro_address
            marry_mode yolo_mode)
    with (bind
            (try_except
               (bind
                  (trade (S n) (Some websocket) match_string bro_address
                     marry_mode yolo_mode)
                  (fun _ => ret Continue))
               (fun e =>
                  bind ask
                    (fun w =>
                       if connection_closed w e
                       then bind (print MsgConnectionClosed)
                                 (fun _ => ret Break)
                       else bind (print (MsgErrorOccurred e))
                                 (fun _ => ret Continue))))
            (fun control =>
               match control with
               | Break => ret tt
               | Continue =>
                   bind (print MsgWaitingForNext)
                     (fun _ =>
                        bind (asyncio_sleep 5)
                          (fun _ =>
                             yolo_trades (S n) websocket match_string
                               bro_address marry_mode yolo_mode))
               end)).
  unfold bind at 1, try_except, bind at 1. unfold trade. rewrite Htrade.
  unfold bind, ask, print, asyncio_sleep, emit, ret.
  destruct (connection_closed w e); cbn beta iota zeta;
    now rewrite <- !app_assoc.
Qed.

Lemma yolo_trades_on_error_witness :
  yolo_trades 2 (Connection 0) None None false true sample_world_closed []
  = (if connection_closed sample_world_closed (Exception "ConnectionClosed")
     then
       (Ret tt,
        []
        ++ [Printed MsgWaitingForToken; Listen (Connection 0);
            Printed MsgConnectionClosed])
     else
       yolo_trades 1 (Connection 0) None None false true sample_world_closed
         ([]
          ++ [Printed MsgWaitingForToken; Listen (Connection 0);
              Printed (MsgErrorOccurred (Exception "ConnectionClosed"));
              Printed MsgWaitingForNext; Sleep 5])).
Proof.
  apply (yolo_trades_on_error 0 (Connection 0) None None false true
           sample_world_closed [] (Exception "ConnectionClosed")).
  reflexivity.
Defined.
